(** * telegram-web-app: version gate, popup state machine and orchestrator

    A shallow embedding of the parts of the TypeScript sources that the
    specification's testable properties talk about:

    - [WebApp.#versionCompare] / [#versionAtLeast]   (src/WebApp/WebApp.ts)
    - [WebAppPopupButton]                            (PopupButton)
    - [Popup]                                        (src/WebApp/Popup/Popup.ts)
    - [TelegramWebApp] event handlers and entry points (the orchestrator)
    - the legacy [WebApp.openInvoice]                (src/WebApp/WebApp.ts)
    - the legacy [WebApp.#byteLength] and [sendData] (src/WebApp/WebApp.ts)
    - [TelegramWebApp.setHeaderColor]                (the orchestrator)

    Conventions.  A JavaScript string is a [string]; every [ascii] stands for
    one UTF-16 code unit below 256, so [String.length] is the [.length] of
    the source.  A throwing function returns a [result]; a mutable object is
    a record that is passed in and returned.  What the consumer's functions
    do when the orchestrator calls them is a parameter of the handlers: a
    function is handed the orchestrator, and returns or throws. *)

From Stdlib Require Import ZArith Ascii String List Bool Lia.
From stdpp Require Import base option list gmap strings.

Local Open Scope string_scope.
Local Open Scope Z_scope.

(* ===================================================================== *)
(** ** JavaScript strings and numbers                                     *)
(* ===================================================================== *)

Module JS.

(** The code units matched by [\s], by [String.prototype.trim] and skipped
    by [parseInt], restricted to the code units below 256:
    TAB, LF, VT, FF, CR, SPACE and NBSP. *)
Definition isWhiteSpace (c : ascii) : bool :=
  let n := Z.of_N (N_of_ascii c) in
  ((9 <=? n) && (n <=? 13)) || (n =? 32) || (n =? 160).

Fixpoint trimStart (s : string) : string :=
  match s with
  | EmptyString => EmptyString
  | String c s' => if isWhiteSpace c then trimStart s' else s
  end.

Fixpoint trimEnd (s : string) : string :=
  match s with
  | EmptyString => EmptyString
  | String c s' =>
      match trimEnd s' with
      | EmptyString => if isWhiteSpace c then EmptyString else String c EmptyString
      | t => String c t
      end
  end.

(** [s.trim()], which is also [s.replace(/^\s+|\s+$/g, '')]. *)
Definition trim (s : string) : string := trimEnd (trimStart s).

(** [s.length] as an integer. *)
Definition len (s : string) : Z := Z.of_nat (String.length s).

(** [s.repeat(n)] *)
Fixpoint repeat_ (s : string) (n : nat) : string :=
  match n with
  | O => EmptyString
  | S n' => s ++ repeat_ s n'
  end.

(** [s.split('.')]: never empty, [''.split('.')] is [['']]. *)
Fixpoint split_dot (s : string) : list string :=
  match s with
  | EmptyString => [EmptyString]
  | String c s' =>
      if Ascii.eqb c "."%char then EmptyString :: split_dot s'
      else match split_dot s' with
           | u :: us => String c u :: us
           | [] => [String c EmptyString]
           end
  end.

(** A JavaScript Number that holds an integer, an infinity or NaN.  The two
    zeros are both [Fin 0]: they are equal under [===] and both falsy, and
    nothing in the embedded code tells them apart. *)
Inductive number : Type :=
  | NaN
  | Fin (z : Z)
  | PosInf
  | NegInf.

(** The Number value of a non-negative mathematical integer: the nearest
    double, ties to even, and [Infinity] from 2^1024 - 2^970 on. *)
Definition roundToDouble (m : Z) : number :=
  let bits := Z.log2 m + 1 in
  if bits <=? 53 then Fin m
  else
    let e := bits - 53 in
    let q := Z.shiftr m e in
    let r := Z.land m (Z.ones e) in
    let half := Z.shiftl 1 (e - 1) in
    let q' := if (half <? r) || ((r =? half) && Z.odd q) then q + 1 else q in
    if 1024 <? Z.log2 q' + 1 + e then PosInf else Fin (Z.shiftl q' e).

Definition negate (n : number) : number :=
  match n with
  | NaN => NaN
  | Fin z => Fin (- z)
  | PosInf => NegInf
  | NegInf => PosInf
  end.

(** The value of a character as a digit, in radixes up to 36. *)
Definition digitValue (c : ascii) : option Z :=
  let n := Z.of_N (N_of_ascii c) in
  if (48 <=? n) && (n <=? 57) then Some (n - 48)
  else if (97 <=? n) && (n <=? 122) then Some (n - 87)
  else if (65 <=? n) && (n <=? 90) then Some (n - 55)
  else None.

Definition radixDigit (R : Z) (c : ascii) : option Z :=
  match digitValue c with
  | Some d => if d <? R then Some d else None
  | None => None
  end.

(** The longest prefix of radix-[R] digits, as a mathematical integer;
    [acc] is [None] as long as no digit was read. *)
Fixpoint parseDigits (R : Z) (s : string) (acc : option Z) : option Z :=
  match s with
  | EmptyString => acc
  | String c s' =>
      match radixDigit R c with
      | Some d => parseDigits R s' (Some (R * default 0 acc + d))
      | None => acc
      end
  end.

Definition stripSign (s : string) : bool * string :=
  match s with
  | String "-" s' => (true, s')
  | String "+" s' => (false, s')
  | _ => (false, s)
  end.

Definition stripHexPrefix (s : string) : Z * string :=
  match s with
  | String "0" (String "x" s') => (16, s')
  | String "0" (String "X" s') => (16, s')
  | _ => (10, s)
  end.

(** [parseInt(s)] with no radix argument (ECMA-262, 19.2.5). *)
Definition parseInt (s : string) : number :=
  let '(neg, s1) := stripSign (trimStart s) in
  let '(R, s2) := stripHexPrefix s1 in
  match parseDigits R s2 None with
  | None => NaN
  | Some m => if neg then negate (roundToDouble m) else roundToDouble m
  end.

(** [ToString] of a value that is a string or [undefined]. *)
Definition toStringArg (o : option string) : string := default "undefined" o.

(** [n || 0] on numbers: [NaN] and zero are falsy. *)
Definition orZero (n : number) : number :=
  match n with
  | NaN => Fin 0
  | _ => n
  end.

(** [a === b] on numbers. *)
Definition strictEq (a b : number) : bool :=
  match a, b with
  | Fin x, Fin y => x =? y
  | PosInf, PosInf => true
  | NegInf, NegInf => true
  | _, _ => false
  end.

(** [a > b] on numbers. *)
Definition gt (a b : number) : bool :=
  match a, b with
  | NaN, _ | _, NaN => false
  | Fin x, Fin y => y <? x
  | PosInf, PosInf => false
  | PosInf, _ => true
  | _, NegInf => match a with NegInf => false | _ => true end
  | _, _ => false
  end.

(** A value whose static type is an object type [O] but which, at run time,
    can be anything. *)
Inductive jsvalue (O : Type) : Type :=
  | VUndefined
  | VNull
  | VBoolean (b : bool)
  | VNumber (n : number)
  | VString (s : string)
  | VFunction (name : string)
  | VObject (o : O).
Arguments VUndefined {O}.
Arguments VNull {O}.
Arguments VBoolean {O} b.
Arguments VNumber {O} n.
Arguments VString {O} s.
Arguments VFunction {O} name.
Arguments VObject {O} o.

(** [typeof v] *)
Definition typeof {O : Type} (v : jsvalue O) : string :=
  match v with
  | VUndefined => "undefined"
  | VNull => "object"
  | VBoolean _ => "boolean"
  | VNumber _ => "number"
  | VString _ => "string"
  | VFunction _ => "function"
  | VObject _ => "object"
  end.

(** [v === null] *)
Definition isNull {O : Type} (v : jsvalue O) : bool :=
  match v with
  | VNull => true
  | _ => false
  end.

End JS.

(* ===================================================================== *)
(** ** VersionGate: WebApp.#versionCompare and #versionAtLeast            *)
(* ===================================================================== *)

Module VersionGate.
Import JS.

(** The [for] loop of [#versionCompare], over the indices still to visit. *)
Fixpoint versionCompare_loop (v1Units v2Units : list string) (idx : list nat) : Z :=
  match idx with
  | [] => 0
  | i :: rest =>
      let p1 := orZero (parseInt (toStringArg (v1Units !! i))) in
      let p2 := orZero (parseInt (toStringArg (v2Units !! i))) in
      if strictEq p1 p2 then versionCompare_loop v1Units v2Units rest
      else if gt p1 p2 then 1
      else -1
  end.

(** [#versionCompare(v1, v2)]; [None] is an argument that is [undefined] or
    not a string, which the default value and the [typeof] tests turn into
    the empty string. *)
Definition versionCompare (v1 v2 : option string) : Z :=
  let v1 := default "" v1 in
  let v2 := default "" v2 in
  let v1Units := split_dot (trim v1) in
  let v2Units := split_dot (trim v2) in
  let longestVersionString := Nat.max (length v1Units) (length v2Units) in
  versionCompare_loop v1Units v2Units (seq 0 longestVersionString).

(** [#versionAtLeast(version)] with [webAppVersion] the private field. *)
Definition versionAtLeast (webAppVersion version : string) : bool :=
  0 <=? versionCompare (Some webAppVersion) (Some version).

(** [isVersionAtLeast], the public wrapper. *)
Definition isVersionAtLeast (webAppVersion version : string) : bool :=
  versionAtLeast webAppVersion version.

End VersionGate.

(** The specification's reading of a version, in its words: a "sequence of
    non-negative integers parsed from a dot-separated string; missing
    trailing components are treated as 0; non-numeric components parse as
    0", and [isSuitableTo] "returns true iff current >= target
    (lexicographic, zero-padded)". *)
Module SemVer.

Definition isDecimalDigit (c : ascii) : bool :=
  let n := Z.of_N (N_of_ascii c) in
  (48 <=? n) && (n <=? 57).

Fixpoint all_decimal (s : string) : bool :=
  match s with
  | EmptyString => true
  | String c s' => isDecimalDigit c && all_decimal s'
  end.

Fixpoint decimal_from (acc : Z) (s : string) : Z :=
  match s with
  | EmptyString => acc
  | String c s' => decimal_from (10 * acc + (Z.of_N (N_of_ascii c) - 48)) s'
  end.

(** The integer a string of decimal digits writes. *)
Definition decimal_value (s : string) : Z := decimal_from 0 s.

(** A numeric component writes a non-negative integer: one decimal digit or
    more, and nothing else. *)
Definition numeric (u : string) : bool :=
  match u with
  | EmptyString => false
  | String _ _ => all_decimal u
  end.

(** Non-numeric components parse as 0. *)
Definition component (u : string) : Z :=
  if numeric u then decimal_value u else 0.

Definition parse (s : string) : list Z :=
  map component (JS.split_dot s).

(** Missing trailing components are 0. *)
Definition pad (n : nat) (l : list Z) : list Z :=
  l ++ replicate (n - length l) 0.

Fixpoint lex_compare (a b : list Z) : comparison :=
  match a, b with
  | [], [] => Eq
  | [], _ :: _ => Lt
  | _ :: _, [] => Gt
  | x :: a', y :: b' =>
      match Z.compare x y with
      | Eq => lex_compare a' b'
      | c => c
      end
  end.

Definition compare (cur target : string) : comparison :=
  let a := parse cur in
  let b := parse target in
  let n := Nat.max (length a) (length b) in
  lex_compare (pad n a) (pad n b).

(** current >= target *)
Definition ge (cur target : string) : Prop := compare cur target <> Lt.

End SemVer.

(* ===================================================================== *)
(** ** Errors and throwing methods                                        *)
(* ===================================================================== *)

(** The fixed part of the message of a [WebAppPopupParamInvalidError]. *)
Inductive param_fault : Type :=
  | ButtonIdTooLong        (* button id is too long *)
  | ButtonTypeInvalid      (* button type is invalid *)
  | ButtonTypeUnset        (* You should set type ... before setting the text *)
  | ButtonTextRequired     (* button text is required for type *)
  | ButtonTextTooLong      (* button text is too long *)
  | TitleTooLong           (* title is too long *)
  | MessageRequired        (* message is required *)
  | MessageTooLong         (* message is too long *)
  | ButtonsNotArray        (* buttons should be an array *)
  | TooFewButtons          (* should have at least 1 button *)
  | TooManyButtons         (* should not have more than 3 buttons *)
  | ParamsNotObject.       (* params must be an object *)

Inductive error : Type :=
  | WebAppPopupParamInvalidError (why : param_fault)
  | WebAppMethodUnsupportedError (method : string)
  | WebAppPopupOpenedError
  | TypeError
  | Error (message : string).

(** The result of an expression that may throw. *)
Inductive result (A : Type) : Type :=
  | Ok (a : A)
  | Throw (e : error).
Arguments Ok {A} a.
Arguments Throw {A} e.

Definition bind {A B : Type} (r : result A) (k : A -> result B) : result B :=
  match r with
  | Ok a => k a
  | Throw e => Throw e
  end.

Notation "'try' x ':=' r 'in' k" := (bind r (fun x => k))
  (at level 10, x name, r at level 100, k at level 200).

(** A method of a mutable object: the object as the call leaves it, and the
    error it threw, if any. *)
Definition ran (S : Type) : Type := (S * option error)%type.

Definition done_ {S : Type} (s : S) : ran S := (s, None).
Definition threw {S : Type} (e : error) (s : S) : ran S := (s, Some e).

(** Whether an object has the property. *)
Definition has_key {A : Type} (o : option A) : bool :=
  match o with
  | Some _ => true
  | None => false
  end.

(** A truthy string is a non-empty one. *)
Definition truthy (s : string) : bool := negb (String.eqb s "").

(** [s?] for an optional string: [undefined], [null] and [''] are falsy. *)
Definition truthy_opt (o : option string) : bool :=
  match o with
  | Some s => truthy s
  | None => false
  end.

(* ===================================================================== *)
(** ** WebAppPopupButton                                                  *)
(* ===================================================================== *)

Module PopupButton.
Import JS.

(** A button object, as passed in and as built: any property may be
    missing. *)
Record EventPopupButton : Type := {
  id : option string;
  type : option string;
  text : option string;
}.

Module TYPES.
Definition DEFAULT := "default".
Definition OK := "ok".
Definition CLOSE := "close".
Definition CANCEL := "cancel".
Definition DESTRUCTIVE := "destructive".
End TYPES.

Definition VALID_BUTTON_TYPES : list string :=
  [TYPES.DEFAULT; TYPES.OK; TYPES.CLOSE; TYPES.CANCEL; TYPES.DESTRUCTIVE].

Definition TYPES_WITH_REQUIRED_TEXT : list string :=
  [TYPES.DEFAULT; TYPES.DESTRUCTIVE].

Definition MAX_ID_LENGTH : Z := 64.
Definition MAX_TEXT_LENGTH : Z := 64.

(** [list.includes(x)] where [x] may be [undefined]. *)
Definition includes (l : list string) (x : option string) : bool :=
  match x with
  | Some s => existsb (String.eqb s) l
  | None => false
  end.

(** [#button = {}] *)
Definition empty : EventPopupButton :=
  {| id := None; type := None; text := None |}.

Definition setID (i : option string) (b : EventPopupButton) : result EventPopupButton :=
  let stringifiedID := default "" i in
  if MAX_ID_LENGTH <? len stringifiedID
  then Throw (WebAppPopupParamInvalidError ButtonIdTooLong)
  else Ok {| id := Some stringifiedID; type := type b; text := text b |}.

Definition setType (t : option string) (b : EventPopupButton) : result EventPopupButton :=
  let isValidType := includes VALID_BUTTON_TYPES t in
  if negb isValidType
  then Throw (WebAppPopupParamInvalidError ButtonTypeInvalid)
  else Ok {| id := id b; type := t; text := text b |}.

Definition setText (x : option string) (b : EventPopupButton) : result EventPopupButton :=
  if negb (truthy_opt (type b))
  then Throw (WebAppPopupParamInvalidError ButtonTypeUnset)
  else
    let isTextRequired := includes TYPES_WITH_REQUIRED_TEXT (type b) in
    if negb isTextRequired then Ok b
    else
      let normalizedText := trim (default "" x) in
      if negb (truthy normalizedText)
      then Throw (WebAppPopupParamInvalidError ButtonTextRequired)
      else if MAX_TEXT_LENGTH <? len normalizedText
      then Throw (WebAppPopupParamInvalidError ButtonTextTooLong)
      else Ok {| id := id b; type := type b; text := Some normalizedText |}.

(** [new WebAppPopupButton(config).data] *)
Definition WebAppPopupButton (config : EventPopupButton) : result EventPopupButton :=
  try b1 := setID (id config) empty in
  try b2 := setType (type config) b1 in
  setText (text config) b2.

End PopupButton.

(* ===================================================================== *)
(** ** Values handed over by the consumer                                 *)
(* ===================================================================== *)

(** Modelled from the spec: [generateId] of [utils] is absent from the
    sources; the specification asks for a random fixed-length token.  The
    random source is the function [rnd], read at positions [0 .. n-1]. *)
Definition generateId (n : nat) (rnd : nat -> ascii) : string :=
  string_of_list_ascii (map rnd (seq 0 n)).

(** A consumer function is known by its name; what it does when it is
    called is the parameter [consumer] of the orchestrator's handlers. *)
Definition handle : Type := string.

Inductive jsarg : Type :=
  | AString (s : string)
  | ABool (b : bool)
  | ANull.

(** The callbacks a [Popup] can hold: the consumer's own function, or one of
    the two closures built by [showAlert] and [showConfirm] around an
    optional consumer function. *)
Inductive PopupCallback : Type :=
  | UserCallback (f : handle)
  | CallbackWithoutID (callback : option handle)
  | ConfirmCallback (callback : option handle).

(* ===================================================================== *)
(** ** Popup                                                              *)
(* ===================================================================== *)

Module Popup.
Import JS.
Import PopupButton.

(** The [buttons] property of the parameters. *)
Inductive ButtonsArg : Type :=
  | NoButtons                                  (* undefined or null *)
  | NotAnArray                                 (* a truthy value that is no array *)
  | ButtonArray (l : list EventPopupButton).

Record PopupParams : Type := {
  title : option string;
  message : option string;
  buttons : ButtonsArg;
}.

(** [#data.params], which starts as [{}]. *)
Record OpenPopupEventData : Type := {
  ev_title : option string;
  ev_message : option string;
  ev_buttons : option (list EventPopupButton);
}.

Record t : Type := {
  isOpened : bool;
  data_params : OpenPopupEventData;
  data_callback : option PopupCallback;
}.

Definition MAX_TITLE_LENGTH : Z := 64.
Definition MAX_MESSAGE_LENGTH : Z := 256.
Definition MIN_BUTTONS : Z := 1.
Definition MAX_BUTTONS : Z := 3.

Definition no_params : OpenPopupEventData :=
  {| ev_title := None; ev_message := None; ev_buttons := None |}.

(** [createInitialState()] together with [#isOpened = false]. *)
Definition initial : t :=
  {| isOpened := false; data_params := no_params; data_callback := None |}.

Definition set_params (d : OpenPopupEventData) (p : t) : t :=
  {| isOpened := isOpened p; data_params := d; data_callback := data_callback p |}.

Definition setCallback (callback : option PopupCallback) (p : t) : t :=
  match callback with
  | Some cb => {| isOpened := isOpened p; data_params := data_params p;
                  data_callback := Some cb |}
  | None => p
  end.

(** Each setter throws before it assigns, so a throw leaves [this] as it
    found it. *)
Definition setTitle (title : option string) (p : t) : result t :=
  if negb (truthy_opt title) then Ok p
  else
    let title := default "" title in
    let trimmedTitle := trim title in
    if len trimmedTitle =? 0 then Ok p
    else if MAX_TITLE_LENGTH <? len title
    then Throw (WebAppPopupParamInvalidError TitleTooLong)
    else
      let d := data_params p in
      Ok (set_params {| ev_title := Some trimmedTitle; ev_message := ev_message d;
                        ev_buttons := ev_buttons d |} p).

Definition setMessage (message : option string) (p : t) : result t :=
  let trimmedMessage := trim (default "" message) in
  if negb (truthy trimmedMessage)
  then Throw (WebAppPopupParamInvalidError MessageRequired)
  else if MAX_MESSAGE_LENGTH <? len trimmedMessage
  then Throw (WebAppPopupParamInvalidError MessageTooLong)
  else
    let d := data_params p in
    Ok (set_params {| ev_title := ev_title d; ev_message := Some trimmedMessage;
                      ev_buttons := ev_buttons d |} p).

(** [buttons.map(button => new WebAppPopupButton(button).data)]: the first
    button that fails aborts the whole map. *)
Fixpoint mapButtons (l : list EventPopupButton) : result (list EventPopupButton) :=
  match l with
  | [] => Ok []
  | b :: rest =>
      try d := WebAppPopupButton b in
      try ds := mapButtons rest in
      Ok (d :: ds)
  end.

Definition store_buttons (bs : list EventPopupButton) (p : t) : t :=
  let d := data_params p in
  set_params {| ev_title := ev_title d; ev_message := ev_message d;
                ev_buttons := Some bs |} p.

Definition setButtons (rnd : nat -> ascii) (buttons : ButtonsArg) (p : t) : result t :=
  match buttons with
  | NoButtons =>
      try b := WebAppPopupButton {| id := Some (generateId 5 rnd);
                                    type := Some TYPES.CLOSE; text := None |} in
      Ok (store_buttons [b] p)
  | NotAnArray => Throw (WebAppPopupParamInvalidError ButtonsNotArray)
  | ButtonArray l =>
      if Z.of_nat (length l) <? MIN_BUTTONS
      then Throw (WebAppPopupParamInvalidError TooFewButtons)
      else if MAX_BUTTONS <? Z.of_nat (length l)
      then Throw (WebAppPopupParamInvalidError TooManyButtons)
      else
        try popupButtons := mapButtons l in
        Ok (store_buttons popupButtons p)
  end.

(** One link of the chain [a().b()]: when [f] throws, the object stays as
    the links before it left it. *)
Definition andThen (f : t -> result t) (k : t -> ran t) (p : t) : ran t :=
  match f p with
  | Ok p' => k p'
  | Throw e => threw e p
  end.

(** The pattern [{ title, message, buttons }] applied to the [params]
    property: [undefined] and [null] cannot be destructured, a primitive or
    a function has none of the three properties. *)
Definition destructure (v : jsvalue PopupParams) : result PopupParams :=
  match v with
  | VUndefined | VNull => Throw TypeError
  | VObject o => Ok o
  | _ => Ok {| title := None; message := None; buttons := NoButtons |}
  end.

(** The body of [open], after the parameter was destructured. *)
Definition open_with (rnd : nat -> ascii) (params : PopupParams)
    (callback : option PopupCallback) (p : t) : ran t :=
  if isOpened p then done_ p
  else
    andThen (setTitle (title params))
      (andThen (setMessage (message params))
        (andThen (setButtons rnd (buttons params))
          (fun p' =>
             let p'' := setCallback callback p' in
             done_ {| isOpened := true; data_params := data_params p'';
                      data_callback := data_callback p'' |}))) p.

(** [open({ params, callback })] *)
Definition open (rnd : nat -> ascii) (params : jsvalue PopupParams)
    (callback : option PopupCallback) (p : t) : ran t :=
  match destructure params with
  | Throw e => threw e p
  | Ok ps => open_with rnd ps callback p
  end.

Definition close (p : t) : t := initial.

(** The [params] getter: [Object.keys(...).length > 0]. *)
Definition params (p : t) : option OpenPopupEventData :=
  let d := data_params p in
  let hasData := has_key (ev_title d) || has_key (ev_message d)
                 || has_key (ev_buttons d) in
  if hasData then Some d else None.

Definition callback (p : t) : option PopupCallback := data_callback p.

End Popup.

(* ===================================================================== *)
(** ** TelegramWebApp, the orchestrator                                   *)
(* ===================================================================== *)

Module TelegramWebApp.
Import JS.
Import PopupButton.

Record InvoiceEntry : Type := {
  inv_url : string;
  inv_callback : option handle;
}.

(** The third argument of [webView.postEvent]. *)
Inductive payload : Type :=
  | PopupData (data : Popup.OpenPopupEventData)
  | EmptyObject
  | SlugData (slug : string)
  | ReqIdData (req_id : string)
  | InlineQueryData (query : string) (chat_types : list string).

(** The argument of [#receiveWebViewEvent]. *)
Inductive event_params : Type :=
  | PopupClosedData (button_id : option string)
  | ClipboardData (data : option string)
  | InvoiceClosedData (url status : string).

(** What leaves the orchestrator, in the order in which it happens:
    [webView.postEvent(name, undefined, params)], the fan-out of
    [#receiveWebViewEvent(eventType, params)] to the subscribers of
    ['webview:' + eventType], and a call of a consumer function. *)
Inductive effect : Type :=
  | Post (name : string) (params : payload)
  | Emit (eventType : string) (params : event_params)
  | Call (f : handle) (args : list jsarg).

Record t : Type := {
  version : string;                          (* #version.value *)
  tgWebAppBotInline : bool;                  (* #webView.initParams.tgWebAppBotInline *)
  popup : Popup.t;                           (* #popup *)
  invoices : gmap string InvoiceEntry;       (* #invoices *)
  clipboard : gmap string (option handle);   (* #clipboard *)
  trace : list effect;
}.

Definition with_popup (p : Popup.t) (w : t) : t :=
  {| version := version w; tgWebAppBotInline := tgWebAppBotInline w; popup := p;
     invoices := invoices w; clipboard := clipboard w; trace := trace w |}.

Definition with_invoices (m : gmap string InvoiceEntry) (w : t) : t :=
  {| version := version w; tgWebAppBotInline := tgWebAppBotInline w; popup := popup w;
     invoices := m; clipboard := clipboard w; trace := trace w |}.

Definition with_clipboard (m : gmap string (option handle)) (w : t) : t :=
  {| version := version w; tgWebAppBotInline := tgWebAppBotInline w; popup := popup w;
     invoices := invoices w; clipboard := m; trace := trace w |}.

Definition log (e : effect) (w : t) : t :=
  {| version := version w; tgWebAppBotInline := tgWebAppBotInline w; popup := popup w;
     invoices := invoices w; clipboard := clipboard w; trace := trace w ++ [e] |}.

(** Modelled from the spec: the [Version] class is absent from the sources;
    [isSuitableTo(target)] parses both versions and is true iff the current
    one is at least the target, which is [#versionAtLeast] of WebApp.ts. *)
Definition isSuitableTo (value target : string) : bool :=
  VersionGate.versionAtLeast value target.

(** Modelled from the spec: the [Invoices] and [WebAppClipboard] classes are
    absent from the sources; [has], [get], [remove] and [set] have the
    standard semantics of a map from ids to values, and [remove] hands back
    what it removed. *)
Module Invoices.
Definition has (slug : string) (m : gmap string InvoiceEntry) : bool :=
  has_key (m !! slug).
Definition remove (slug : string) (m : gmap string InvoiceEntry)
    : option InvoiceEntry * gmap string InvoiceEntry :=
  (m !! slug, delete slug m).
Definition save (slug : string) (e : InvoiceEntry) (m : gmap string InvoiceEntry)
    : gmap string InvoiceEntry :=
  <[slug := e]> m.
End Invoices.

Module Clipboard.
Definition hasRequest (id : string) (m : gmap string (option handle)) : bool :=
  has_key (m !! id).
Definition getRequest (id : string) (m : gmap string (option handle)) : option handle :=
  mjoin (m !! id).
Definition removeRequest (id : string) (m : gmap string (option handle))
    : gmap string (option handle) :=
  delete id m.
Definition setRequest (id : string) (callback : option handle)
    (m : gmap string (option handle)) : gmap string (option handle) :=
  <[id := callback]> m.
End Clipboard.

(** [#receiveWebViewEvent(eventType, params)]: the emission is recorded; the
    subscribers are called by [WebView.callEventCallbacks], which is absent
    from the sources. *)
Definition receiveWebViewEvent (eventType : string) (params : event_params) (w : t) : t :=
  log (Emit eventType params) w.

Definition OK_BTN_ID : string := "ok".

Section Consumer.
(** What a consumer function does when it is called is not in the sources.
    It is handed the orchestrator, whose methods it may call, and it returns
    or throws: [consumer f args w] is the orchestrator as the function [f],
    called with [args], leaves it, and the error it threw, if any. *)
Variable consumer : handle -> list jsarg -> t -> ran t.

(** [f(args)] for a consumer function [f]: the call is recorded, then the
    function runs. *)
Definition callConsumer (f : handle) (args : list jsarg) (w : t) : ran t :=
  consumer f args (log (Call f args) w).

(** [callback?.(arg)] for a consumer function *)
Definition callOptional (callback : option handle) (args : list jsarg) (w : t) : ran t :=
  match callback with
  | Some f => callConsumer f args w
  | None => done_ w
  end.

(** [callback?.(buttonID)] for the callback a popup holds. *)
Definition callPopupCallback (callback : option PopupCallback) (buttonID : string)
    (w : t) : ran t :=
  match callback with
  | None => done_ w
  | Some (UserCallback f) => callConsumer f [AString buttonID] w
  | Some (CallbackWithoutID cb) => callOptional cb [] w
  | Some (ConfirmCallback cb) =>
      callOptional cb [ABool (String.eqb buttonID OK_BTN_ID)] w
  end.

(** The statements after a call: they run only if the call returned; an
    error it threw leaves the handler with the orchestrator as it is. *)
Definition afterCall (r : ran t) (k : t -> ran t) : ran t :=
  match r with
  | (w, None) => k w
  | (w, Some e) => threw e w
  end.

(** [#onInvoiceClosed(_, { slug, status })] *)
Definition onInvoiceClosed (slug : option string) (status : string) (w : t) : ran t :=
  if negb (truthy_opt slug) then done_ w
  else
    let slug := default "" slug in
    if negb (Invoices.has slug (invoices w)) then done_ w
    else
      match Invoices.remove slug (invoices w) with
      | (None, m) => threw TypeError (with_invoices m w)
      | (Some e, m) =>
          let w1 := with_invoices m w in
          afterCall (callOptional (inv_callback e) [AString status] w1)
            (fun w2 =>
               done_ (receiveWebViewEvent "invoiceClosed"
                        (InvoiceClosedData (inv_url e) status) w2))
      end.

(** [#onPopupClosed(_, eventData)], [button_id] being [eventData.button_id]. *)
Definition onPopupClosed (button_id : option string) (w : t) : ran t :=
  if negb (Popup.isOpened (popup w)) then done_ w
  else
    let callback := Popup.callback (popup w) in
    let w1 := with_popup (Popup.close (popup w)) w in
    let buttonID := button_id in
    afterCall (if truthy_opt buttonID
             then callPopupCallback callback (default "" buttonID) w1
             else done_ w1)
      (fun w2 =>
         done_ (receiveWebViewEvent "popupClosed" (PopupClosedData buttonID) w2)).

Definition arg_of_data (data : option string) : jsarg :=
  match data with
  | Some s => AString s
  | None => ANull
  end.

(** [#onClipboardTextReceived(_, { req_id: id, data = null })] *)
Definition onClipboardTextReceived (id : option string) (data : option string)
    (w : t) : ran t :=
  if negb (truthy_opt id) || negb (Clipboard.hasRequest (default "" id) (clipboard w))
  then done_ w
  else
    let id := default "" id in
    let callback := Clipboard.getRequest id (clipboard w) in
    let w1 := with_clipboard (Clipboard.removeRequest id (clipboard w)) w in
    afterCall (callOptional callback [arg_of_data data] w1)
      (fun w2 =>
         done_ (receiveWebViewEvent "clipboardTextReceived" (ClipboardData data) w2)).

End Consumer.

Section OpenInvoice.
(** [Invoices.create(url)] is absent from the sources: it is handed the url,
    sees the registry it belongs to, and returns a slug or throws. *)
Variable create : gmap string InvoiceEntry -> string -> result string.

(** [openInvoice(url, callback)], under the comment [TODO: version 6.1+]. *)
Definition openInvoice (url : string) (callback : option handle) (w : t) : ran t :=
  match create (invoices w) url with
  | Throw e => threw e w
  | Ok slug =>
      let w1 := with_invoices
                  (Invoices.save slug {| inv_url := url; inv_callback := callback |}
                     (invoices w)) w in
      done_ (log (Post "web_app_open_invoice" (SlugData slug)) w1)
  end.
End OpenInvoice.

(** [readTextFromClipboard(callback)] *)
Definition readTextFromClipboard (rnd : nat -> ascii) (callback : option handle)
    (w : t) : ran t :=
  if negb (isSuitableTo (version w) "6.4")
  then threw (WebAppMethodUnsupportedError "readTextFromClipboard") w
  else
    let id := generateId 16 rnd in
    let w1 := with_clipboard (Clipboard.setRequest id callback (clipboard w)) w in
    done_ (log (Post "web_app_read_text_from_clipboard" (ReqIdData id)) w1).

(** The test [typeof params !== 'object' && params === null] of [showPopup]. *)
Definition paramsGuard (params : jsvalue Popup.PopupParams) : bool :=
  negb (String.eqb (typeof params) "object") && isNull params.

(** [showPopup(params, callback)] *)
Definition showPopup (rnd : nat -> ascii) (params : jsvalue Popup.PopupParams)
    (callback : option PopupCallback) (w : t) : ran t :=
  if negb (isSuitableTo (version w) "6.2")
  then threw (WebAppMethodUnsupportedError "showPopup") w
  else if Popup.isOpened (popup w)
  then threw WebAppPopupOpenedError w
  else if paramsGuard params
  then threw (WebAppPopupParamInvalidError ParamsNotObject) w
  else
    match Popup.open rnd params callback (popup w) with
    | (p, Some e) => threw e (with_popup p w)
    | (p, None) =>
        let w1 := with_popup p w in
        let data := match Popup.params p with
                    | Some d => PopupData d
                    | None => EmptyObject
                    end in
        done_ (log (Post "web_app_open_popup" data) w1)
    end.

(** [showAlert(message, callback)] *)
Definition showAlert (rnd : nat -> ascii) (message : string) (callback : option handle)
    (w : t) : ran t :=
  showPopup rnd
    (VObject {| Popup.title := None; Popup.message := Some message;
                Popup.buttons := Popup.NoButtons |})
    (Some (CallbackWithoutID callback)) w.

(** [showConfirm(message, callback)] *)
Definition showConfirm (rnd : nat -> ascii) (message : string) (callback : option handle)
    (w : t) : ran t :=
  let popupCallback := ConfirmCallback callback in
  let built :=
    try okButton := WebAppPopupButton
                      {| id := Some OK_BTN_ID; type := Some TYPES.OK; text := None |} in
    try cancelButton := WebAppPopupButton
                          {| id := Some ""; type := Some TYPES.CANCEL; text := None |} in
    Ok [okButton; cancelButton] in
  match built with
  | Throw e => threw e w
  | Ok bs =>
      showPopup rnd
        (VObject {| Popup.title := None; Popup.message := Some message;
                    Popup.buttons := Popup.ButtonArray bs |})
        (Some popupCallback) w
  end.

(** The [chatTypesToChoose] argument of [switchInlineQuery]. *)
Inductive ChatTypesArg : Type :=
  | ChatTypesUndefined                 (* omitted, or [undefined] *)
  | ChatTypesNull
  | ChatTypesArray (l : list string).

Definition VALID_CHAT_TYPES : list string := ["users"; "bots"; "groups"; "channels"].

Definition MAX_INLINE_QUERY_LENGTH : Z := 256.

(** [[...new Set(l)]]: the elements in the order of their first occurrence. *)
Fixpoint uniq_from (seen : list string) (l : list string) : list string :=
  match l with
  | [] => []
  | x :: rest =>
      if existsb (String.eqb x) seen then uniq_from seen rest
      else x :: uniq_from (x :: seen) rest
  end.

Definition uniq (l : list string) : list string := uniq_from [] l.

(** The [forEach] that throws at the first chat type that is not valid. *)
Fixpoint checkChats (chats : list string) : result unit :=
  match chats with
  | [] => Ok tt
  | chat :: rest =>
      if negb (existsb (String.eqb chat) VALID_CHAT_TYPES)
      then Throw (Error "WebAppInlineChooseChatTypeInvalid")
      else checkChats rest
  end.

(** [switchInlineQuery(query, chatTypesToChoose)] *)
Definition switchInlineQuery (query : string) (chatTypesToChoose : ChatTypesArg)
    (w : t) : ran t :=
  if negb (isSuitableTo (version w) "6.7")
  then threw (WebAppMethodUnsupportedError "switchInlineQuery") w
  else if negb (tgWebAppBotInline w)
  then threw (Error "WebAppInlineModeDisabled") w
  else
    let queryToSend := trim query in
    if MAX_INLINE_QUERY_LENGTH <? len queryToSend
    then threw (Error "WebAppInlineQueryInvalid") w
    else
      match chatTypesToChoose with
      | ChatTypesUndefined | ChatTypesNull =>
          threw (Error "WebAppInlineChooseChatTypesInvalid") w
      | ChatTypesArray chatTypes =>
          let chats := uniq chatTypes in
          match checkChats chats with
          | Throw e => threw e w
          | Ok _ =>
              done_ (log (Post "web_app_switch_inline_query"
                            (InlineQueryData queryToSend chats)) w)
          end
      end.

End TelegramWebApp.

(* ===================================================================== *)
(** ** The legacy WebApp class: openInvoice                               *)
(* ===================================================================== *)

Module WebApp.
Import JS.

(** The properties of a [URL] object that [openInvoice] reads. *)
Record URL : Type := {
  protocol : string;
  hostname : string;
  pathname : string;
}.

Record InvoiceEntry : Type := {
  inv_url : string;
  inv_callback : option handle;
}.

Record t : Type := {
  webAppVersion : string;
  webAppInvoices : gmap string InvoiceEntry;
  posted : list (string * string);      (* event name and slug *)
}.

(** [[A-Za-z0-9\-_=]] *)
Definition isSlugChar (c : ascii) : bool :=
  let n := Z.of_N (N_of_ascii c) in
  ((65 <=? n) && (n <=? 90)) || ((97 <=? n) && (n <=? 122))
  || ((48 <=? n) && (n <=? 57)) || (n =? 45) || (n =? 95) || (n =? 61).

Definition allSlugChars (s : string) : bool :=
  forallb isSlugChar (list_ascii_of_string s).

(** [s] without the prefix [pre], when it starts with it. *)
Fixpoint stripPrefix (pre s : string) : option string :=
  match pre, s with
  | EmptyString, _ => Some s
  | String a pre', String b s' =>
      if Ascii.eqb a b then stripPrefix pre' s' else None
  | String _ _, EmptyString => None
  end.

(** Group 2 of [pathname.match(/^\/(\$|invoice\/)([A-Za-z0-9\-_=]+)$/)]. *)
Definition matchInvoicePath (pathname : string) : option string :=
  match stripPrefix "/" pathname with
  | None => None
  | Some rest =>
      let tail := match stripPrefix "$" rest with
                  | Some r => Some r
                  | None => stripPrefix "invoice/" rest
                  end in
      match tail with
      | Some slug => if truthy slug && allSlugChars slug then Some slug else None
      | None => None
      end
  end.

Section OpenInvoice.
(** [new URL(url)] belongs to the platform: [None] when it throws. *)
Variable parseURL : string -> option URL.

(** [openInvoice(url, callback)] *)
Definition openInvoice (url : string) (callback : option handle) (w : t) : ran t :=
  match parseURL url with
  | None => threw TypeError w
  | Some url2 =>
      let notHttp := negb (String.eqb (protocol url2) "http:")
                     && negb (String.eqb (protocol url2) "https:") in
      let notTme := negb (String.eqb (hostname url2) "t.me") in
      let match_ := matchInvoicePath (pathname url2) in
      if notHttp || notTme || negb (has_key match_) || negb (truthy_opt match_)
      then threw (Error "WebAppInvoiceUrlInvalid") w
      else
        let slug := default "" match_ in
        if negb (VersionGate.versionAtLeast (webAppVersion w) "6.1")
        then threw (Error "WebAppMethodUnsupported") w
        else if has_key (webAppInvoices w !! slug)
        then threw (Error "WebAppInvoiceOpened") w
        else
          done_ {| webAppVersion := webAppVersion w;
                   webAppInvoices :=
                     <[slug := {| inv_url := url; inv_callback := callback |}]>
                       (webAppInvoices w);
                   posted := posted w ++ [("web_app_open_invoice", slug)] |}
  end.
End OpenInvoice.

End WebApp.

(* ===================================================================== *)
(** ** The legacy WebApp class: #byteLength and sendData                  *)
(* ===================================================================== *)

(** Here a string is the list of its UTF-16 code units, since the code
    reads them with [charCodeAt]. *)
Module WebAppData.

(** [data.charCodeAt(i)] for an index inside the string. *)
Definition charCodeAt (data : list Z) (i : Z) : Z := nth (Z.to_nat i) data 0.

(** The [for (let i = data.length - 1; i >= 0; i--)] loop of [#byteLength];
    [fuel] bounds the number of rounds, and [data.length] rounds are enough
    because [i] goes down by at least one in each. *)
Fixpoint byteLength_loop (data : list Z) (fuel : nat) (i size : Z) : Z :=
  match fuel with
  | O => size
  | S fuel' =>
      if i <? 0 then size
      else
        let code := charCodeAt data i in
        let size :=
          if (127 <? code) && (code <=? 2047) then size + 1
          else if (2047 <? code) && (code <=? 65535) then size + 2
          else size in
        let i := if (56320 <=? code) && (code <=? 57343) then i - 1 else i in
        byteLength_loop data fuel' (i - 1) size
  end.

(** [#byteLength(data)]; [blobSize] is [new Blob([data]).size] when
    [window.Blob] exists and the constructor does not throw. *)
Definition byteLength (blobSize : option Z) (data : list Z) : Z :=
  match blobSize with
  | Some size => size
  | None =>
      let size := Z.of_nat (length data) in
      byteLength_loop data (length data) (size - 1) size
  end.

Definition MAXIMUM_BYTES_TO_SEND : Z := 4096.

(** [sendData(data)]: the data posted with [web_app_data_send], or the
    error; [None] is a falsy value that is no string. *)
Definition sendData (blobSize : option Z) (data : option (list Z)) : result (list Z) :=
  match data with
  | None => Throw (Error "WebAppDataInvalid")
  | Some d =>
      if Z.of_nat (length d) =? 0 then Throw (Error "WebAppDataInvalid")
      else if MAXIMUM_BYTES_TO_SEND <? byteLength blobSize d
      then Throw (Error "WebAppDataInvalid")
      else Ok d
  end.

End WebAppData.

(* ===================================================================== *)
(** ** TelegramWebApp: the header colour                                   *)
(* ===================================================================== *)

Module HeaderColor.

(** Modelled from the spec: [HEADER_COLOR_KEYS] of [./constants] is absent
    from the sources; its two keys are the ones the error message of
    [setHeaderColor] names. *)
Definition BG_COLOR : string := "bg_color".
Definition SECONDARY_BG_COLOR : string := "secondary_bg_color".

(** What [setHeaderColor] reads and writes.  Modelled from the spec: the
    [Theme] class is absent from the sources; [params] is the mapping from
    parameter names to colours and [getParam] its lookup. *)
Record t : Type := {
  version : string;                      (* #version.value *)
  themeParams : gmap string string;      (* #theme.params *)
  headerColorKey : string;               (* #headerColorKey *)
  posted : list string;                  (* the color_key of each web_app_set_header_color *)
}.

(** [#headerColorKey = HEADER_COLOR_KEYS.BG_COLOR] *)
Definition initial (version : string) (themeParams : gmap string string) : t :=
  {| version := version; themeParams := themeParams; headerColorKey := BG_COLOR;
     posted := [] |}.

Section ParseColor.
(** [parseColorToHex] of [utils] is absent from the sources: the hex string
    of a colour, or [None] for a falsy result. *)
Variable parseColorToHex : string -> option string.

(** [#getHeaderColorKey(colorKeyOrColor)]; [None] is [false]. *)
Definition getHeaderColorKey (colorKeyOrColor : string) (h : t) : option string :=
  if String.eqb colorKeyOrColor BG_COLOR || String.eqb colorKeyOrColor SECONDARY_BG_COLOR
  then Some colorKeyOrColor
  else
    let parsedColor := parseColorToHex colorKeyOrColor in
    let same (theme : option string) : bool :=
      match theme, parsedColor with
      | Some a, Some b => String.eqb a b
      | _, _ => false
      end in
    if truthy_opt (themeParams h !! "bg_color") && same (themeParams h !! "bg_color")
    then Some BG_COLOR
    else if truthy_opt (themeParams h !! "secondary_bg_color")
            && same (themeParams h !! "secondary_bg_color")
    then Some SECONDARY_BG_COLOR
    else None.

(** [setHeaderColor(colorKeyOrColor)] *)
Definition setHeaderColor (colorKeyOrColor : string) (h : t) : ran t :=
  if negb (TelegramWebApp.isSuitableTo (version h) "6.1") then done_ h
  else
    match getHeaderColorKey colorKeyOrColor h with
    | Some colorKey =>
        if negb (String.eqb colorKey BG_COLOR)
           && negb (String.eqb colorKey SECONDARY_BG_COLOR)
        then threw (Error "WebAppHeaderColorKeyInvalid") h
        else
          done_ {| version := version h; themeParams := themeParams h;
                   headerColorKey := colorKey; posted := posted h ++ [colorKey] |}
    | None => threw (Error "WebAppHeaderColorKeyInvalid") h
    end.
End ParseColor.

(** The [headerColor] getter: [#theme.getParam(#headerColorKey) ?? '']. *)
Definition headerColor (h : t) : string :=
  default "" (themeParams h !! headerColorKey h).

End HeaderColor.

(* ===================================================================== *)
(** ** Vocabulary of the properties                                       *)
(* ===================================================================== *)

(** The number [#versionCompare] returns for an ordering. *)
Definition Z_of_comparison (c : comparison) : Z :=
  match c with
  | Eq => 0
  | Lt => -1
  | Gt => 1
  end.

(** The value the loop of [#versionCompare] reads at index [i]. *)
Definition unit_value (units : list string) (i : nat) : JS.number :=
  JS.orZero (JS.parseInt (JS.toStringArg (units !! i))).

(** The loop of [#versionCompare] seen as an order: the sequences of the
    numbers it reads from the units, [parseInt(unit) || 0] each, padded with
    zeros to the same length and compared from the left. *)
Module Units.
Import JS.

(** [parseInt(u) || 0] *)
Definition component (u : string) : number := orZero (parseInt u).

Definition parse (s : string) : list number :=
  map component (split_dot (trim s)).

Definition pad (n : nat) (l : list number) : list number :=
  l ++ replicate (n - length l) (Fin 0).

(** The order of the Number values that are not [NaN]. *)
Definition num_compare (a b : number) : comparison :=
  match a, b with
  | Fin x, Fin y => Z.compare x y
  | NegInf, NegInf | PosInf, PosInf | NaN, NaN => Eq
  | NegInf, _ | _, PosInf => Lt
  | _, _ => Gt
  end.

Fixpoint lex_compare (a b : list number) : comparison :=
  match a, b with
  | [], [] => Eq
  | [], _ :: _ => Lt
  | _ :: _, [] => Gt
  | x :: a', y :: b' =>
      match num_compare x y with
      | Eq => lex_compare a' b'
      | c => c
      end
  end.

Definition compare (cur target : string) : comparison :=
  let a := parse cur in
  let b := parse target in
  let n := Nat.max (length a) (length b) in
  lex_compare (pad n a) (pad n b).

Definition ge (cur target : string) : Prop := compare cur target <> Lt.

End Units.

(** A component that the specification and [parseInt] read alike: the empty
    one, a decimal numeral below 2^53, or one that starts with neither a
    digit, a sign nor white space. *)
Definition plain_component (u : string) : bool :=
  match u with
  | EmptyString => true
  | String c _ =>
      if SemVer.isDecimalDigit c
      then SemVer.all_decimal u && (SemVer.decimal_value u <? 2 ^ 53)
      else negb (JS.isWhiteSpace c) && negb (Ascii.eqb c "+")
           && negb (Ascii.eqb c "-")
  end.

(** A version all of whose components are such. *)
Definition plain (s : string) : bool :=
  forallb plain_component (JS.split_dot s).

(** One of the five enumerated kinds of button. *)
Definition is_kind (t : option string) : Prop :=
  t = Some "default" \/ t = Some "ok" \/ t = Some "close" \/ t = Some "cancel"
  \/ t = Some "destructive".

(** A kind whose text is mandatory. *)
Definition needs_text (t : option string) : Prop :=
  t = Some "default" \/ t = Some "destructive".

(** The button [#setButtons] makes up when none is given. *)
Definition synthesized (rnd : nat -> ascii) : PopupButton.EventPopupButton :=
  {| PopupButton.id := Some (generateId 5 rnd);
     PopupButton.type := Some PopupButton.TYPES.CLOSE;
     PopupButton.text := None |}.

(** The two buttons of [showConfirm]. *)
Definition okButton : PopupButton.EventPopupButton :=
  {| PopupButton.id := Some "ok"; PopupButton.type := Some "ok";
     PopupButton.text := None |}.

Definition cancelButton : PopupButton.EventPopupButton :=
  {| PopupButton.id := Some ""; PopupButton.type := Some "cancel";
     PopupButton.text := None |}.

(** The popups reached from the initial one by [close] and by calls of [open]
    that do not throw. *)
Inductive clean_run : Popup.t -> Prop :=
  | clean_initial : clean_run Popup.initial
  | clean_close (p : Popup.t) : clean_run p -> clean_run (Popup.close p)
  | clean_open (p p' : Popup.t) (rnd : nat -> ascii)
      (v : JS.jsvalue Popup.PopupParams) (cb : option PopupCallback) :
      clean_run p -> Popup.open rnd v cb p = (p', None) -> clean_run p'.

(** The fault of the object test of [showPopup]. *)
Definition params_fault : error := WebAppPopupParamInvalidError ParamsNotObject.

(** The orchestrator once the request [id] was taken out of the clipboard
    registry, which is where the consumer function is called. *)
Definition clipboard_taken (id : string) (w : TelegramWebApp.t) : TelegramWebApp.t :=
  TelegramWebApp.with_clipboard
    (TelegramWebApp.Clipboard.removeRequest id (TelegramWebApp.clipboard w)) w.

(** The same for the invoice [slug]. *)
Definition invoice_taken (slug : string) (w : TelegramWebApp.t) : TelegramWebApp.t :=
  TelegramWebApp.with_invoices
    (snd (TelegramWebApp.Invoices.remove slug (TelegramWebApp.invoices w))) w.

(** *** UTF-16 code units and their UTF-8 length *)

(** The bytes a code unit adds to the one that [data.length] counts. *)
Definition unit_extra (code : Z) : Z :=
  if (127 <? code) && (code <=? 2047) then 1
  else if (2047 <? code) && (code <=? 65535) then 2
  else 0.

(** Low (trailing) and high (leading) surrogates. *)
Definition isTrail (code : Z) : bool := (56320 <=? code) && (code <=? 57343).
Definition isLead (code : Z) : bool := (55296 <=? code) && (code <=? 56319).

(** What the loop of [#byteLength] adds, on the string read from its end:
    after a trailing surrogate the next unit is skipped. *)
Fixpoint extra_rev (r : list Z) : Z :=
  match r with
  | [] => 0
  | c :: rest =>
      unit_extra c
      + (if isTrail c
         then match rest with
              | [] => 0
              | _ :: rest' => extra_rev rest'
              end
         else extra_rev rest)
  end.

(** The code points of a string; a surrogate without its partner decodes to
    U+FFFD, as an encoder does. *)
Fixpoint codePoints (s : list Z) : list Z :=
  match s with
  | [] => []
  | c :: rest =>
      if isLead c then
        match rest with
        | t :: rest' =>
            if isTrail t
            then (65536 + (c - 55296) * 1024 + (t - 56320)) :: codePoints rest'
            else 65533 :: codePoints rest
        | [] => [65533]
        end
      else if isTrail c then 65533 :: codePoints rest
      else c :: codePoints rest
  end.

(** The length of the UTF-8 encoding of a code point, and of a string. *)
Definition utf8_bytes (cp : Z) : Z :=
  if cp <=? 127 then 1
  else if cp <=? 2047 then 2
  else if cp <=? 65535 then 3
  else 4.

Definition utf8_length (s : list Z) : Z :=
  fold_right (fun cp n => utf8_bytes cp + n) 0 (codePoints s).

(** Code units in range, every leading surrogate followed by a trailing one
    and no other trailing surrogate. *)
Fixpoint well_formed (s : list Z) : bool :=
  match s with
  | [] => true
  | c :: rest =>
      if isLead c then
        match rest with
        | t :: rest' => isTrail t && well_formed rest'
        | [] => false
        end
      else negb (isTrail c) && (0 <=? c) && (c <=? 65535) && well_formed rest
  end.

(** The same, for a string read from its end. *)
Fixpoint well_formed_rev (r : list Z) : bool :=
  match r with
  | [] => true
  | c :: rest =>
      if isTrail c then
        match rest with
        | h :: rest' => isLead h && well_formed_rev rest'
        | [] => false
        end
      else negb (isLead c) && (0 <=? c) && (c <=? 65535) && well_formed_rev rest
  end.

(** *** Validated popup data *)

(** A button that the validator returns as it is. *)
Definition valid_button (b : PopupButton.EventPopupButton) : Prop :=
  PopupButton.WebAppPopupButton b = Ok b.

(** A stored text that is not empty, has no white space around it and is at
    most [bound] long, or no text at all. *)
Definition fits (bound : Z) (o : option string) : Prop :=
  match o with
  | Some s => s <> "" /\ JS.trim s = s /\ JS.len s <= bound
  | None => True
  end.

(** Parameters in which every field that is present went through its
    check. *)
Definition validated (d : Popup.OpenPopupEventData) : Prop :=
  fits 64 (Popup.ev_title d)
  /\ fits 256 (Popup.ev_message d)
  /\ match Popup.ev_buttons d with
     | Some bs => (1 <= length bs <= 3)%nat /\ Forall valid_button bs
     | None => True
     end.

(** What a popup keeps, open or closed. *)
Definition popup_inv (p : Popup.t) : Prop :=
  validated (Popup.data_params p)
  /\ (Popup.isOpened p = true ->
      is_Some (Popup.ev_message (Popup.data_params p))
      /\ is_Some (Popup.ev_buttons (Popup.data_params p)))
  /\ (Popup.isOpened p = false ->
      Popup.ev_buttons (Popup.data_params p) = None
      /\ Popup.data_callback p = None).

(** The popups reached from the initial one by [close] and by calls of
    [open], whether they throw or not. *)
Inductive any_run : Popup.t -> Prop :=
  | any_initial : any_run Popup.initial
  | any_close (p : Popup.t) : any_run p -> any_run (Popup.close p)
  | any_open (p p' : Popup.t) (rnd : nat -> ascii)
      (v : JS.jsvalue Popup.PopupParams) (cb : option PopupCallback)
      (o : option error) :
      any_run p -> Popup.open rnd v cb p = (p', o) -> any_run p'.

(** *** Runs of the orchestrator *)

(** The calls and the host events that are modelled. *)
Inductive webapp_op : Type :=
  | OpShowPopup (rnd : nat -> ascii) (params : JS.jsvalue Popup.PopupParams)
      (callback : option PopupCallback)
  | OpShowAlert (rnd : nat -> ascii) (message : string) (callback : option handle)
  | OpShowConfirm (rnd : nat -> ascii) (message : string) (callback : option handle)
  | OpPopupClosed (button_id : option string)
  | OpReadTextFromClipboard (rnd : nat -> ascii) (callback : option handle)
  | OpClipboardTextReceived (req_id data : option string)
  | OpOpenInvoice (url : string) (callback : option handle)
  | OpInvoiceClosed (slug : option string) (status : string)
  | OpSwitchInlineQuery (query : string) (chatTypes : TelegramWebApp.ChatTypesArg).

(** One call or event; [create] is [Invoices.create] and [consumer] is what
    the consumer functions do. *)
Definition webapp_step
    (create : gmap string TelegramWebApp.InvoiceEntry -> string -> result string)
    (consumer : handle -> list jsarg -> TelegramWebApp.t -> ran TelegramWebApp.t)
    (op : webapp_op) (w : TelegramWebApp.t) : ran TelegramWebApp.t :=
  match op with
  | OpShowPopup rnd params callback => TelegramWebApp.showPopup rnd params callback w
  | OpShowAlert rnd message callback => TelegramWebApp.showAlert rnd message callback w
  | OpShowConfirm rnd message callback =>
      TelegramWebApp.showConfirm rnd message callback w
  | OpPopupClosed button_id => TelegramWebApp.onPopupClosed consumer button_id w
  | OpReadTextFromClipboard rnd callback =>
      TelegramWebApp.readTextFromClipboard rnd callback w
  | OpClipboardTextReceived req_id data =>
      TelegramWebApp.onClipboardTextReceived consumer req_id data w
  | OpOpenInvoice url callback => TelegramWebApp.openInvoice create url callback w
  | OpInvoiceClosed slug status => TelegramWebApp.onInvoiceClosed consumer slug status w
  | OpSwitchInlineQuery query chatTypes =>
      TelegramWebApp.switchInlineQuery query chatTypes w
  end.

(** A sequence of calls and events; a call that throws leaves the
    orchestrator in the state it had reached, and the run goes on. *)
Fixpoint webapp_run
    (create : gmap string TelegramWebApp.InvoiceEntry -> string -> result string)
    (consumer : handle -> list jsarg -> TelegramWebApp.t -> ran TelegramWebApp.t)
    (ops : list webapp_op) (w : TelegramWebApp.t) : TelegramWebApp.t :=
  match ops with
  | [] => w
  | op :: rest => webapp_run create consumer rest (fst (webapp_step create consumer op w))
  end.

(** The calls of methods, as opposed to the events of the host. *)
Definition is_method (op : webapp_op) : bool :=
  match op with
  | OpPopupClosed _ | OpClipboardTextReceived _ _ | OpInvoiceClosed _ _ => false
  | _ => true
  end.

(** Consumer functions that reach the orchestrator through the modelled
    methods only: whatever a function does to it, before it returns or
    throws, is what some sequence of calls of these methods does. *)
Definition acts_through_methods
    (create : gmap string TelegramWebApp.InvoiceEntry -> string -> result string)
    (consumer : handle -> list jsarg -> TelegramWebApp.t -> ran TelegramWebApp.t)
    : Prop :=
  forall (f : handle) (args : list jsarg) (w : TelegramWebApp.t),
    exists ops : list webapp_op,
      forallb is_method ops = true
      /\ fst (consumer f args w) = webapp_run create consumer ops w.

(** Consumer functions that always return. *)
Definition never_throws
    (consumer : handle -> list jsarg -> TelegramWebApp.t -> ran TelegramWebApp.t)
    : Prop :=
  forall (f : handle) (args : list jsarg) (w : TelegramWebApp.t),
    snd (consumer f args w) = None.

(** Consumer functions for the examples: ["boom"] throws, ["again"] shows an
    alert from inside the callback, every other function returns at once. *)
Definition sample_consumer (f : handle) (args : list jsarg) (w : TelegramWebApp.t)
    : ran TelegramWebApp.t :=
  if String.eqb f "boom" then (w, Some (Error "boom"))
  else if String.eqb f "again"
  then TelegramWebApp.showAlert (fun _ => "z"%char) "Again" None w
  else (w, None).

(** Consumer functions that return at once. *)
Definition quiet_consumer (f : handle) (args : list jsarg) (w : TelegramWebApp.t)
    : ran TelegramWebApp.t :=
  (w, None).

(** The orchestrator before anything happened. *)
Definition webapp_start (version : string) (botInline : bool) : TelegramWebApp.t :=
  {| TelegramWebApp.version := version;
     TelegramWebApp.tgWebAppBotInline := botInline;
     TelegramWebApp.popup := Popup.initial;
     TelegramWebApp.invoices := ∅;
     TelegramWebApp.clipboard := ∅;
     TelegramWebApp.trace := [] |}.

Definition is_popup_post (e : TelegramWebApp.effect) : bool :=
  match e with
  | TelegramWebApp.Post name _ => String.eqb name "web_app_open_popup"
  | _ => false
  end.

Definition is_popup_closed (e : TelegramWebApp.effect) : bool :=
  match e with
  | TelegramWebApp.Emit eventType _ => String.eqb eventType "popupClosed"
  | _ => false
  end.

(** How many times an effect of a kind occurs in a trace. *)
Definition count_effects (f : TelegramWebApp.effect -> bool)
    (tr : list TelegramWebApp.effect) : nat :=
  length (List.filter f tr).

(** One if a popup is open. *)
Definition open_popups (w : TelegramWebApp.t) : nat :=
  if Popup.isOpened (TelegramWebApp.popup w) then 1%nat else 0%nat.

(** The popups posted that were neither answered by a [popupClosed] nor are
    open. *)
Definition popup_slack (w : TelegramWebApp.t) : Z :=
  Z.of_nat (count_effects is_popup_post (TelegramWebApp.trace w))
  - Z.of_nat (count_effects is_popup_closed (TelegramWebApp.trace w))
  - Z.of_nat (open_popups w).

(** What every run keeps. *)
Definition webapp_inv (w : TelegramWebApp.t) : Prop :=
  popup_inv (TelegramWebApp.popup w)
  /\ (forall d, In (TelegramWebApp.Post "web_app_open_popup" d) (TelegramWebApp.trace w) ->
        exists data, d = TelegramWebApp.PopupData data /\ validated data
                     /\ is_Some (Popup.ev_message data)
                     /\ is_Some (Popup.ev_buttons data))
  /\ (forall id, is_Some (TelegramWebApp.clipboard w !! id) ->
        In (TelegramWebApp.Post "web_app_read_text_from_clipboard"
              (TelegramWebApp.ReqIdData id)) (TelegramWebApp.trace w))
  /\ (forall slug, is_Some (TelegramWebApp.invoices w !! slug) ->
        In (TelegramWebApp.Post "web_app_open_invoice"
              (TelegramWebApp.SlugData slug)) (TelegramWebApp.trace w)).

(* ===================================================================== *)
(** * Properties                                                          *)
(* ===================================================================== *)

(** ** The version gate *)

Section VersionGateFacts.
Import JS VersionGate.

Lemma orZero_not_NaN (n : number) : orZero n <> NaN.
Proof. destruct n; discriminate. Qed.

Lemma strictEq_num_compare (a b : number) :
  a <> NaN -> b <> NaN ->
  strictEq a b = (if Units.num_compare a b is Eq then true else false).
Proof.
  intros Ha Hb.
  destruct a as [|x| |], b as [|y| |]; try congruence; try reflexivity.
  simpl. destruct (Z.eqb_spec x y) as [->|Hne].
  - now rewrite Z.compare_refl.
  - destruct (Z.compare_spec x y); congruence.
Qed.

Lemma gt_num_compare (a b : number) :
  a <> NaN -> b <> NaN ->
  gt a b = (if Units.num_compare a b is Gt then true else false).
Proof.
  intros Ha Hb.
  destruct a as [|x| |], b as [|y| |]; try congruence; try reflexivity.
  simpl. destruct (Z.ltb_spec y x), (Z.compare_spec x y); try reflexivity; lia.
Qed.

Lemma versionCompare_loop_lex (u1 u2 : list string) (idx : list nat) :
  versionCompare_loop u1 u2 idx =
  Z_of_comparison
    (Units.lex_compare (map (unit_value u1) idx) (map (unit_value u2) idx)).
Proof.
  induction idx as [|i rest IH]; [reflexivity|].
  cbn [versionCompare_loop map Units.lex_compare].
  fold (unit_value u1 i). fold (unit_value u2 i).
  rewrite strictEq_num_compare by apply orZero_not_NaN.
  rewrite gt_num_compare by apply orZero_not_NaN.
  destruct (Units.num_compare (unit_value u1 i) (unit_value u2 i));
    [exact IH | reflexivity | reflexivity].
Qed.

Lemma unit_value_nil (n : nat) :
  map (unit_value []) (seq 0 n) = replicate n (Fin 0).
Proof.
  assert (H : forall k, map (unit_value []) (seq k n) = replicate n (Fin 0)).
  { induction n as [|n IH]; intros k; [reflexivity|].
    cbn [seq map replicate]. now rewrite IH. }
  apply H.
Qed.

(** Reading the units by index up to [n] pads the parsed components. *)
Lemma unit_values_pad (units : list string) :
  forall n : nat, (length units <= n)%nat ->
  map (unit_value units) (seq 0 n) = Units.pad n (map Units.component units).
Proof.
  induction units as [|u units IH]; intros n Hn.
  - unfold Units.pad. cbn [map length app]. rewrite Nat.sub_0_r.
    apply unit_value_nil.
  - destruct n as [|n]; [cbn in Hn; lia|].
    cbn [seq map]. rewrite <- seq_shift, List.map_map.
    unfold Units.pad. cbn [length Nat.sub app].
    f_equal.
    change (map (unit_value units) (seq 0 n) =
            Units.pad n (map Units.component units)).
    apply IH. cbn in Hn. lia.
Qed.

Lemma versionCompare_compare (cur target : string) :
  versionCompare (Some cur) (Some target) =
  Z_of_comparison (Units.compare cur target).
Proof.
  unfold versionCompare, Units.compare, Units.parse. cbn [default].
  rewrite versionCompare_loop_lex.
  rewrite !unit_values_pad by lia.
  now rewrite !length_map.
Qed.

(** Reading a component *)

Lemma decimal_digit_cases (c : ascii) :
  SemVer.isDecimalDigit c = true ->
  In c ["0"; "1"; "2"; "3"; "4"; "5"; "6"; "7"; "8"; "9"]%char.
Proof.
  destruct c as [[|] [|] [|] [|] [|] [|] [|] [|]];
    intros H; try discriminate H; cbn; tauto.
Qed.

Lemma radixDigit_decimal (c : ascii) :
  SemVer.isDecimalDigit c = true ->
  radixDigit 10 c = Some (Z.of_N (N_of_ascii c) - 48).
Proof.
  intros H. apply decimal_digit_cases in H. cbn in H.
  decompose [or] H; subst; try reflexivity; contradiction.
Qed.

Lemma parseDigits_decimal (s : string) :
  forall acc : Z,
    SemVer.all_decimal s = true ->
    parseDigits 10 s (Some acc) = Some (SemVer.decimal_from acc s).
Proof.
  induction s as [|c s IH]; intros acc H; [reflexivity|].
  cbn [SemVer.all_decimal] in H. apply andb_true_iff in H as [Hc Hs].
  cbn [parseDigits SemVer.decimal_from]. rewrite (radixDigit_decimal c Hc).
  cbn [default]. now apply IH.
Qed.

Lemma decimal_from_nonneg (s : string) :
  forall acc : Z, 0 <= acc -> SemVer.all_decimal s = true ->
  0 <= SemVer.decimal_from acc s.
Proof.
  induction s as [|c s IH]; intros acc Ha H; [exact Ha|].
  cbn [SemVer.all_decimal] in H. apply andb_true_iff in H as [Hc Hs].
  cbn [SemVer.decimal_from]. apply IH; [|exact Hs].
  unfold SemVer.isDecimalDigit in Hc. cbv zeta in Hc.
  apply andb_true_iff in Hc as [H1 H2]. lia.
Qed.

Lemma roundToDouble_exact (m : Z) : 0 <= m < 2 ^ 53 -> roundToDouble m = Fin m.
Proof.
  intros [H0 H1]. unfold roundToDouble. cbv zeta.
  destruct (Z.leb_spec (Z.log2 m + 1) 53) as [_|Hl]; [reflexivity|].
  exfalso. destruct (Z.eq_dec m 0) as [->|Hm]; [cbn in Hl; lia|].
  assert (Z.log2 m < 53) by (apply Z.log2_lt_pow2; lia). lia.
Qed.

(** A component of decimal digits below 2^53 is read as its value. *)
Lemma component_decimal (u : string) :
  u <> "" -> SemVer.all_decimal u = true -> SemVer.decimal_value u < 2 ^ 53 ->
  Units.component u = Fin (SemVer.decimal_value u).
Proof.
  intros Hne Hd Hv. destruct u as [|c u]; [contradiction|].
  assert (Hp : parseInt (String c u) = Fin (SemVer.decimal_value (String c u))).
  { pose proof (decimal_from_nonneg _ 0 (Z.le_refl 0) Hd) as Hpos.
    fold (SemVer.decimal_value (String c u)) in Hpos.
    pose proof Hd as Hd'. cbn [SemVer.all_decimal] in Hd'.
    apply andb_true_iff in Hd' as [Hc Hu].
    assert (Hdigits : parseDigits 10 (String c u) None
                      = Some (SemVer.decimal_value (String c u))).
    { unfold SemVer.decimal_value. cbn [parseDigits SemVer.decimal_from].
      rewrite (radixDigit_decimal c Hc). cbn [default].
      now apply parseDigits_decimal. }
    unfold parseInt.
    assert (Hhead : stripSign (trimStart (String c u)) = (false, String c u)).
    { pose proof (decimal_digit_cases c Hc) as Hin. cbn in Hin.
      decompose [or] Hin; subst; try reflexivity; contradiction. }
    rewrite Hhead.
    assert (Hhex : stripHexPrefix (String c u) = (10, String c u)).
    { destruct u as [|c2 u]; [|cbn [SemVer.all_decimal] in Hu;
        apply andb_true_iff in Hu as [Hc2 _]];
        pose proof (decimal_digit_cases c Hc) as Hin; cbn in Hin.
      - decompose [or] Hin; subst; try reflexivity; contradiction.
      - pose proof (decimal_digit_cases c2 Hc2) as Hin2. cbn in Hin2.
        decompose [or] Hin; subst; try reflexivity; try contradiction.
        decompose [or] Hin2; subst; try reflexivity; contradiction. }
    rewrite Hhex, Hdigits. apply roundToDouble_exact. lia. }
  unfold Units.component. now rewrite Hp.
Qed.

(** A component that starts with neither white space, a sign nor a decimal
    digit is not a number, and the empty component is not one either. *)
Lemma component_not_numeric (c : ascii) (u : string) :
  isWhiteSpace c = false -> c <> "+"%char -> c <> "-"%char ->
  SemVer.isDecimalDigit c = false ->
  parseInt (String c u) = NaN /\ Units.component (String c u) = Fin 0.
Proof.
  intros Hw Hp Hm Hd.
  assert (H : parseInt (String c u) = NaN).
  { destruct c as [[|] [|] [|] [|] [|] [|] [|] [|]];
      try discriminate Hw; try discriminate Hd; try congruence; reflexivity. }
  split; [exact H|]. unfold Units.component. now rewrite H.
Qed.

End VersionGateFacts.

Section PlainVersions.
Import JS VersionGate.

Lemma digit_not_space (c : ascii) :
  SemVer.isDecimalDigit c = true -> isWhiteSpace c = false.
Proof.
  intros H. apply decimal_digit_cases in H. cbn in H.
  decompose [or] H; subst; try reflexivity; contradiction.
Qed.

Lemma plain_component_head (c : ascii) (u : string) :
  plain_component (String c u) = true -> isWhiteSpace c = false.
Proof.
  unfold plain_component.
  destruct (SemVer.isDecimalDigit c) eqn:Ed; [intros _; now apply digit_not_space|].
  intros H. apply andb_true_iff in H as [H _]. apply andb_true_iff in H as [H _].
  now apply negb_true_iff in H.
Qed.

Lemma split_dot_cons (s : string) : exists u us, split_dot s = u :: us.
Proof.
  induction s as [|c s (u & us & IH)]; [now exists "", []|].
  cbn [split_dot]. destruct (Ascii.eqb c "."); [now eexists; eexists|].
  rewrite IH. now eexists; eexists.
Qed.

(** A plain version does not start with white space. *)
Lemma trimStart_plain (s : string) : plain s = true -> trimStart s = s.
Proof.
  destruct s as [|c s]; [reflexivity|].
  unfold plain. cbn [split_dot trimStart].
  destruct (Ascii.eqb_spec c "."%char) as [->|Hne]; [reflexivity|].
  destruct (split_dot_cons s) as (u & us & E). rewrite E.
  cbn [forallb]. intros H. apply andb_true_iff in H as [H _].
  now rewrite (plain_component_head c u H).
Qed.

Lemma split_dot_String (c : ascii) (s : string) :
  split_dot (String c s) =
    if Ascii.eqb c "."%char then "" :: split_dot s
    else match split_dot s with
         | u :: us => String c u :: us
         | [] => [String c ""]
         end.
Proof. reflexivity. Qed.

(** The white space [trimEnd] removes is in the last component. *)
Lemma split_dot_trimEnd (s : string) :
  exists (init : list string) (last : string),
    split_dot s = (init ++ [last])%list
    /\ split_dot (trimEnd s) = (init ++ [trimEnd last])%list.
Proof.
  induction s as [|c s (init & last & E1 & E2)]; [now exists [], ""|].
  cbn [split_dot trimEnd].
  destruct (Ascii.eqb_spec c "."%char) as [->|Hne].
  - exists ("" :: init), last. split; [now rewrite E1|].
    destruct (trimEnd s) as [|d t] eqn:Et.
    + cbn. cbn in E2. now rewrite <- E2.
    + change (split_dot (String "." (String d t)))
        with ("" :: split_dot (String d t)). now rewrite E2.
  - assert (Hc : Ascii.eqb c "." = false) by now apply Ascii.eqb_neq.
    destruct init as [|i init].
    + exists [], (String c last). rewrite E1. split; [reflexivity|].
      cbn [app] in E2. cbn [trimEnd].
      destruct (trimEnd s) as [|d t] eqn:Et.
      * cbn in E2. injection E2 as E2. rewrite <- E2.
        destruct (isWhiteSpace c); [reflexivity|].
        cbn [split_dot]. now rewrite Hc.
      * rewrite split_dot_String, Hc, E2. cbn [app].
        destruct (trimEnd last) as [|d' t'] eqn:El; [|reflexivity].
        exfalso. rewrite split_dot_String in E2.
        destruct (split_dot_cons t) as (u & us & Eu). rewrite Eu in E2.
        destruct (Ascii.eqb d "."); discriminate.
    + exists (String c i :: init), last. rewrite E1. split; [reflexivity|].
      destruct (trimEnd s) as [|d t] eqn:Et.
      * cbn in E2. injection E2 as _ E2. now destruct init.
      * now rewrite split_dot_String, Hc, E2.
Qed.

Lemma trimEnd_keeps_head (c : ascii) (u : string) :
  isWhiteSpace c = false -> exists t, trimEnd (String c u) = String c t.
Proof.
  intros Hc. cbn [trimEnd]. destruct (trimEnd u); rewrite ?Hc; now eexists.
Qed.

Lemma trimEnd_decimal (u : string) : SemVer.all_decimal u = true -> trimEnd u = u.
Proof.
  induction u as [|c u IH]; [reflexivity|].
  cbn [SemVer.all_decimal]. intros H. apply andb_true_iff in H as [Hc Hu].
  cbn [trimEnd]. rewrite (IH Hu).
  destruct u; [now rewrite (digit_not_space c Hc) | reflexivity].
Qed.

(** On a plain component, with or without the white space at its end,
    [parseInt(u) || 0] is the number the specification reads. *)
Lemma component_plain_trimEnd (u : string) :
  plain_component u = true ->
  Units.component (trimEnd u) = Fin (SemVer.component u)
  /\ Units.component u = Fin (SemVer.component u).
Proof.
  destruct u as [|c u]; [now split|].
  unfold plain_component.
  destruct (SemVer.isDecimalDigit c) eqn:Ed.
  - intros H. apply andb_true_iff in H as [Hd Hv]. apply Z.ltb_lt in Hv.
    rewrite (trimEnd_decimal _ Hd). unfold SemVer.component, SemVer.numeric.
    rewrite Hd. split; apply component_decimal; (discriminate || assumption).
  - intros H. apply andb_true_iff in H as [H Hm]. apply andb_true_iff in H as [Hw Hp].
    apply negb_true_iff in Hw, Hp, Hm.
    apply Ascii.eqb_neq in Hp, Hm.
    assert (Hz : SemVer.component (String c u) = 0).
    { unfold SemVer.component, SemVer.numeric. cbn [SemVer.all_decimal].
      now rewrite Ed. }
    rewrite Hz. destruct (trimEnd_keeps_head c u Hw) as [t ->].
    split; now apply component_not_numeric.
Qed.

Lemma parse_plain (s : string) :
  plain s = true -> Units.parse s = map Fin (SemVer.parse s).
Proof.
  intros H. unfold Units.parse, SemVer.parse, trim.
  rewrite (trimStart_plain s H). unfold plain in H.
  destruct (split_dot_trimEnd s) as (init & last & E1 & E2).
  rewrite E1 in *. rewrite E2, !map_app. rewrite forallb_app in H.
  apply andb_true_iff in H as [Hi Hl]. cbn in Hl. rewrite andb_true_r in Hl.
  cbn [map]. rewrite (proj1 (component_plain_trimEnd last Hl)). f_equal.
  clear E1 E2. induction init as [|u init IH]; [reflexivity|].
  cbn [forallb] in Hi. apply andb_true_iff in Hi as [Hu Hi].
  cbn [map]. now rewrite (proj2 (component_plain_trimEnd u Hu)), IH.
Qed.

Lemma pad_Fin (n : nat) (a : list Z) :
  Units.pad n (map Fin a) = map Fin (SemVer.pad n a).
Proof.
  unfold Units.pad, SemVer.pad. rewrite map_app, length_map. f_equal.
  induction (n - length a)%nat as [|k IH]; [reflexivity|]. cbn. now rewrite IH.
Qed.

Lemma lex_compare_Fin (a : list Z) :
  forall b : list Z,
    Units.lex_compare (map Fin a) (map Fin b) = SemVer.lex_compare a b.
Proof.
  induction a as [|x a IH]; intros [|y b]; try reflexivity.
  cbn [map Units.lex_compare SemVer.lex_compare Units.num_compare].
  now rewrite IH.
Qed.

Lemma compare_plain (cur target : string) :
  plain cur = true -> plain target = true ->
  Units.compare cur target = SemVer.compare cur target.
Proof.
  intros Hc Ht. unfold Units.compare, SemVer.compare.
  rewrite (parse_plain cur Hc), (parse_plain target Ht), !length_map, !pad_Fin.
  apply lex_compare_Fin.
Qed.

Lemma isVersionAtLeast_ge (cur target : string) :
  isVersionAtLeast cur target = true <-> Units.ge cur target.
Proof.
  unfold isVersionAtLeast, versionAtLeast, Units.ge.
  rewrite versionCompare_compare.
  destruct (Units.compare cur target); cbn; split; intros H;
    congruence || reflexivity || (exfalso; apply H; reflexivity).
Qed.

End PlainVersions.

(** C1, as the claim states it, fails: the code does not count every
    non-numeric component as 0, and does not compare every numeric one as
    the integer it writes.  With the current version "6.3" the target "6.4a"
    is refused, because [parseInt] reads "4a" as 4, where the claim's reading
    (0 for "4a") accepts it; with the current version "6.-1" the target
    "6.0" is refused, because "-1" is read as -1; and the current version
    "9007199254740992" (2^53) passes the target "9007199254740993", both
    being the same double, where the integers compare the other way. *)
Lemma isVersionAtLeast_reading_counterexample :
  (VersionGate.isVersionAtLeast "6.3" "6.4a" = false
   /\ SemVer.ge "6.3" "6.4a")
  /\ (VersionGate.isVersionAtLeast "6.-1" "6.0" = false
      /\ SemVer.ge "6.-1" "6.0")
  /\ (VersionGate.isVersionAtLeast "9007199254740992" "9007199254740993" = true
      /\ ~ SemVer.ge "9007199254740992" "9007199254740993")
  /\ ~ (forall cur target : string,
          VersionGate.isVersionAtLeast cur target = true <-> SemVer.ge cur target).
Proof.
  assert (H1 : VersionGate.isVersionAtLeast "6.3" "6.4a" = false)
    by (vm_compute; reflexivity).
  assert (H2 : SemVer.ge "6.3" "6.4a") by (vm_compute; discriminate).
  split; [split; [exact H1 | exact H2]|].
  split; [split; [vm_compute; reflexivity | vm_compute; discriminate]|].
  split.
  - split; [vm_compute; reflexivity|]. intros H. apply H. vm_compute. reflexivity.
  - intros H. apply H in H2. congruence.
Qed.

(** C1, amended.  For versions all of whose components are plain (empty, a
    decimal numeral below 2^53, or starting with neither a digit, a sign nor
    white space), [isVersionAtLeast(target)] is true exactly when the current
    version is at least the target in the specification's order: components
    split at the dots, a numeral counted as the integer it writes and every
    other component as 0, the shorter sequence padded with zeros, compared
    from the left.  For all versions, it is that order on the numbers
    [parseInt(component) || 0], read from the trimmed strings: [parseInt]
    skips white space, takes a sign, reads the longest prefix of digits
    (hexadecimal after "0x") and rounds to a double.  With the current
    version "6.4" the targets "6.1" and "6.4" are accepted and "6.5" is
    refused, and "6" and "6.0.0" compare equal, in the code and in the
    specification's order alike.  The comparison is a function of the two
    strings alone. *)
Theorem isVersionAtLeast_lexicographic :
  (forall cur target : string,
     plain cur = true -> plain target = true ->
     (VersionGate.isVersionAtLeast cur target = true <-> SemVer.ge cur target))
  /\ (forall cur target : string,
        VersionGate.isVersionAtLeast cur target = true <-> Units.ge cur target)
  /\ (forall u : string,
        plain_component u = true ->
        Units.component u = JS.Fin (SemVer.component u))
  /\ (Units.component "4a" = JS.Fin 4
      /\ Units.component "-1" = JS.Fin (-1)
      /\ Units.component " 7" = JS.Fin 7
      /\ Units.component "0x1F" = JS.Fin 31
      /\ Units.component "9007199254740993" = JS.Fin 9007199254740992
      /\ Units.component "x7" = JS.Fin 0)
  /\ (VersionGate.isVersionAtLeast "6.4" "6.1" = true
      /\ VersionGate.isVersionAtLeast "6.4" "6.4" = true
      /\ VersionGate.isVersionAtLeast "6.4" "6.5" = false
      /\ VersionGate.versionCompare (Some "6") (Some "6.0.0") = 0
      /\ VersionGate.versionCompare (Some "6.x") (Some "6.0") = 0)
  /\ (SemVer.ge "6.4" "6.1" /\ SemVer.ge "6.4" "6.4" /\ ~ SemVer.ge "6.4" "6.5"
      /\ SemVer.compare "6" "6.0.0" = Eq
      /\ SemVer.compare "6.x" "6.0" = Eq).
Proof.
  split; [|split; [|split; [|split; [|split]]]].
  - intros cur target Hc Ht. rewrite isVersionAtLeast_ge. unfold Units.ge, SemVer.ge.
    now rewrite (compare_plain cur target Hc Ht).
  - exact isVersionAtLeast_ge.
  - intros u Hu. exact (proj2 (component_plain_trimEnd u Hu)).
  - repeat split; vm_compute; reflexivity.
  - repeat split; vm_compute; reflexivity.
  - split; [vm_compute; discriminate|]. split; [vm_compute; discriminate|].
    split; [intros H; apply H; vm_compute; reflexivity|].
    split; vm_compute; reflexivity.
Qed.

(** The amended claim at the versions "6.10" and "6.9", which are plain, and
    at the component "10". *)
Lemma isVersionAtLeast_lexicographic_witness :
  (plain "6.10" = true /\ plain "6.9" = true
   /\ (VersionGate.isVersionAtLeast "6.10" "6.9" = true <-> SemVer.ge "6.10" "6.9"))
  /\ (plain_component "10" = true
      /\ Units.component "10" = JS.Fin (SemVer.component "10")).
Proof.
  split.
  - split; [vm_compute; reflexivity|]. split; [vm_compute; reflexivity|].
    apply (proj1 isVersionAtLeast_lexicographic "6.10" "6.9");
      vm_compute; reflexivity.
  - split; [vm_compute; reflexivity|].
    apply (proj1 (proj2 (proj2 isVersionAtLeast_lexicographic)) "10").
    vm_compute. reflexivity.
Defined.

(** ** The popup button validator *)

Section PopupButtonFacts.
Import JS PopupButton.

Lemma truthy_false (s : string) : truthy s = false <-> s = "".
Proof.
  unfold truthy. rewrite negb_false_iff. apply String.eqb_eq.
Qed.

Lemma truthy_true (s : string) : truthy s = true <-> s <> "".
Proof.
  unfold truthy. rewrite negb_true_iff. apply String.eqb_neq.
Qed.

Lemma includes_valid (t : option string) :
  includes VALID_BUTTON_TYPES t = true <-> is_kind t.
Proof.
  unfold is_kind. destruct t as [s|]; cbn.
  - rewrite !orb_true_iff, !String.eqb_eq.
    split; intros H; decompose [or] H; subst; try discriminate; try tauto;
      match goal with E : Some _ = Some _ |- _ => injection E as -> end; tauto.
  - split; intros H; decompose [or] H; discriminate.
Qed.

Lemma includes_required (t : option string) :
  includes TYPES_WITH_REQUIRED_TEXT t = true <-> needs_text t.
Proof.
  unfold needs_text. destruct t as [s|]; cbn.
  - rewrite !orb_true_iff, !String.eqb_eq.
    split; intros H; decompose [or] H; subst; try discriminate; try tauto;
      match goal with E : Some _ = Some _ |- _ => injection E as -> end; tauto.
  - split; intros H; decompose [or] H; discriminate.
Qed.

Lemma needs_text_is_kind (t : option string) : needs_text t -> is_kind t.
Proof. unfold needs_text, is_kind. tauto. Qed.

Lemma is_kind_truthy (t : option string) : is_kind t -> truthy_opt t = true.
Proof.
  unfold is_kind. intros H. decompose [or] H; subst t; reflexivity.
Qed.

(** The constructor as one decision list, in the order of its checks. *)
Lemma WebAppPopupButton_cases (cfg : EventPopupButton) :
  let i := default "" (id cfg) in
  let x := trim (default "" (text cfg)) in
  WebAppPopupButton cfg =
    if MAX_ID_LENGTH <? len i
    then Throw (WebAppPopupParamInvalidError ButtonIdTooLong)
    else if negb (includes VALID_BUTTON_TYPES (type cfg))
    then Throw (WebAppPopupParamInvalidError ButtonTypeInvalid)
    else if negb (includes TYPES_WITH_REQUIRED_TEXT (type cfg))
    then Ok {| id := Some i; type := type cfg; text := None |}
    else if negb (truthy x)
    then Throw (WebAppPopupParamInvalidError ButtonTextRequired)
    else if MAX_TEXT_LENGTH <? len x
    then Throw (WebAppPopupParamInvalidError ButtonTextTooLong)
    else Ok {| id := Some i; type := type cfg; text := Some x |}.
Proof.
  intros i x. unfold WebAppPopupButton, setID. fold i.
  destruct (MAX_ID_LENGTH <? len i); [reflexivity|].
  cbn [bind]. unfold setType.
  destruct (includes VALID_BUTTON_TYPES (type cfg)) eqn:Hv; [|reflexivity].
  cbn [negb bind]. unfold setText. cbn [type id text empty].
  rewrite (is_kind_truthy _ (proj1 (includes_valid _) Hv)). cbn [negb].
  destruct (includes TYPES_WITH_REQUIRED_TEXT (type cfg)); [|reflexivity].
  cbn [negb]. fold x. reflexivity.
Qed.

End PopupButtonFacts.

(** C6.  Building a button throws [ParamInvalid] exactly when the id, as a
    string, is longer than 64, or the type is none of the five kinds, or the
    type is default or destructive and the trimmed text is empty or longer
    than 64.  The checks run in the order id, type, text, so the fault
    reported is the first one in that order; for ok, close and cancel a
    supplied text is dropped from the result.  An id of length 65 fails,
    type "bogus" fails, type "ok" with no text succeeds and type "default"
    with an empty text fails. *)
Theorem WebAppPopupButton_validation :
  (forall cfg : PopupButton.EventPopupButton,
     let i := default "" (PopupButton.id cfg) in
     let t := PopupButton.type cfg in
     let x := JS.trim (default "" (PopupButton.text cfg)) in
     ((exists why, PopupButton.WebAppPopupButton cfg
                   = Throw (WebAppPopupParamInvalidError why))
      <-> (64 < JS.len i \/ ~ is_kind t
           \/ (needs_text t /\ (x = "" \/ 64 < JS.len x))))
     /\ ((exists e, PopupButton.WebAppPopupButton cfg = Throw e)
         -> exists why, PopupButton.WebAppPopupButton cfg
                        = Throw (WebAppPopupParamInvalidError why))
     /\ (64 < JS.len i ->
         PopupButton.WebAppPopupButton cfg
         = Throw (WebAppPopupParamInvalidError ButtonIdTooLong))
     /\ (JS.len i <= 64 -> ~ is_kind t ->
         PopupButton.WebAppPopupButton cfg
         = Throw (WebAppPopupParamInvalidError ButtonTypeInvalid))
     /\ (JS.len i <= 64 -> needs_text t -> x = "" ->
         PopupButton.WebAppPopupButton cfg
         = Throw (WebAppPopupParamInvalidError ButtonTextRequired))
     /\ (JS.len i <= 64 -> needs_text t -> x <> "" -> 64 < JS.len x ->
         PopupButton.WebAppPopupButton cfg
         = Throw (WebAppPopupParamInvalidError ButtonTextTooLong))
     /\ (JS.len i <= 64 -> needs_text t -> x <> "" -> JS.len x <= 64 ->
         PopupButton.WebAppPopupButton cfg
         = Ok {| PopupButton.id := Some i; PopupButton.type := t;
                 PopupButton.text := Some x |})
     /\ (JS.len i <= 64 -> is_kind t -> ~ needs_text t ->
         PopupButton.WebAppPopupButton cfg
         = Ok {| PopupButton.id := Some i; PopupButton.type := t;
                 PopupButton.text := None |}))
  /\ PopupButton.WebAppPopupButton
       {| PopupButton.id :=
            Some "aaaaaaaaaaaaaaaaaaaaaaaaaaaaaaaaaaaaaaaaaaaaaaaaaaaaaaaaaaaaaaaaa";
          PopupButton.type := Some "ok"; PopupButton.text := None |}
     = Throw (WebAppPopupParamInvalidError ButtonIdTooLong)
  /\ PopupButton.WebAppPopupButton
       {| PopupButton.id := Some "b"; PopupButton.type := Some "bogus";
          PopupButton.text := Some "Go" |}
     = Throw (WebAppPopupParamInvalidError ButtonTypeInvalid)
  /\ PopupButton.WebAppPopupButton
       {| PopupButton.id := Some "b"; PopupButton.type := Some "ok";
          PopupButton.text := None |}
     = Ok {| PopupButton.id := Some "b"; PopupButton.type := Some "ok";
             PopupButton.text := None |}
  /\ PopupButton.WebAppPopupButton
       {| PopupButton.id := Some "b"; PopupButton.type := Some "cancel";
          PopupButton.text := Some "Never mind" |}
     = Ok {| PopupButton.id := Some "b"; PopupButton.type := Some "cancel";
             PopupButton.text := None |}
  /\ PopupButton.WebAppPopupButton
       {| PopupButton.id := Some "b"; PopupButton.type := Some "default";
          PopupButton.text := Some "" |}
     = Throw (WebAppPopupParamInvalidError ButtonTextRequired).
Proof.
  split; [|repeat split; vm_compute; reflexivity].
  intros cfg i t x.
  pose proof (WebAppPopupButton_cases cfg) as E. cbv zeta in E.
  fold i t x in E. unfold PopupButton.MAX_ID_LENGTH, PopupButton.MAX_TEXT_LENGTH in E.
  pose proof (includes_valid t) as Hv. pose proof (includes_required t) as Hr.
  pose proof (needs_text_is_kind t) as Hk.
  pose proof (truthy_false x) as Hx.
  rewrite E. clear E.
  (* what is left of each conjunct once the outcome is known *)
  assert (Hthrow : forall why : param_fault,
            64 < JS.len i \/ ~ is_kind t
            \/ (needs_text t /\ (x = "" \/ 64 < JS.len x)) ->
            (exists why', @Throw PopupButton.EventPopupButton
                            (WebAppPopupParamInvalidError why)
                          = Throw (WebAppPopupParamInvalidError why'))
            <-> (64 < JS.len i \/ ~ is_kind t
                 \/ (needs_text t /\ (x = "" \/ 64 < JS.len x)))).
  { intros why D. split; [intros _; exact D | intros _; now exists why]. }
  assert (Hok : forall b : PopupButton.EventPopupButton,
            ~ (64 < JS.len i \/ ~ is_kind t
               \/ (needs_text t /\ (x = "" \/ 64 < JS.len x))) ->
            (exists why', Ok b = Throw (WebAppPopupParamInvalidError why'))
            <-> (64 < JS.len i \/ ~ is_kind t
                 \/ (needs_text t /\ (x = "" \/ 64 < JS.len x)))).
  { intros b D. split; [intros [? ?]; discriminate | intros D'; now destruct D]. }
  destruct (Z.ltb_spec 64 (JS.len i)) as [Hi|Hi].
  { split; [apply Hthrow; tauto|].
    split; [intros _; eauto|].
    repeat split; intros; reflexivity || lia. }
  destruct (PopupButton.includes PopupButton.VALID_BUTTON_TYPES t) eqn:Ev; cbn [negb].
  2:{ assert (Nk : ~ is_kind t) by (intros K; apply Hv in K; discriminate).
      split; [apply Hthrow; tauto|].
      split; [intros _; eauto|].
      repeat split; intros; reflexivity || lia || tauto. }
  assert (Kt : is_kind t) by (now apply Hv).
  destruct (PopupButton.includes PopupButton.TYPES_WITH_REQUIRED_TEXT t) eqn:Er;
    cbn [negb].
  2:{ assert (Nn : ~ needs_text t) by (intros K; apply Hr in K; discriminate).
      split; [apply Hok; intros [?|[?|[? _]]]; lia || tauto|].
      split; [intros [? ?]; discriminate|].
      repeat split; intros; reflexivity || lia || tauto. }
  assert (Nt : needs_text t) by (now apply Hr).
  destruct (truthy x) eqn:Et; cbn [negb].
  2:{ assert (Ex : x = "") by (now apply Hx).
      split; [apply Hthrow; tauto|].
      split; [intros _; eauto|].
      repeat split; intros; reflexivity || lia || tauto. }
  assert (Nx : x <> "") by (now apply truthy_true).
  destruct (Z.ltb_spec 64 (JS.len x)) as [Hl|Hl].
  - split; [apply Hthrow; tauto|].
    split; [intros _; eauto|].
    repeat split; intros; reflexivity || lia || tauto.
  - split; [apply Hok; intros [?|[?|[_ [?|?]]]]; lia || tauto|].
    split; [intros [? ?]; discriminate|].
    repeat split; intros; reflexivity || lia || tauto.
Qed.

(** The text of a destructive button is kept, trimmed. *)
Lemma WebAppPopupButton_validation_witness :
  PopupButton.WebAppPopupButton
    {| PopupButton.id := Some "del"; PopupButton.type := Some "destructive";
       PopupButton.text := Some "  Delete " |}
  = Ok {| PopupButton.id := Some "del"; PopupButton.type := Some "destructive";
          PopupButton.text := Some "Delete" |}.
Proof.
  destruct (proj1 WebAppPopupButton_validation
              {| PopupButton.id := Some "del"; PopupButton.type := Some "destructive";
                 PopupButton.text := Some "  Delete " |})
    as (_ & _ & _ & _ & _ & _ & H & _).
  apply H.
  - vm_compute. discriminate.
  - right. reflexivity.
  - vm_compute. discriminate.
  - vm_compute. discriminate.
Defined.

(** ** The popup state machine *)

Section PopupFacts.
Import JS PopupButton Popup.

Lemma setCallback_params (cb : option PopupCallback) (p : Popup.t) :
  data_params (setCallback cb p) = data_params p.
Proof. now destruct cb. Qed.

Lemma setCallback_isOpened (cb : option PopupCallback) (p : Popup.t) :
  isOpened (setCallback cb p) = isOpened p.
Proof. now destruct cb. Qed.

Lemma generateId_length (n : nat) (rnd : nat -> ascii) :
  String.length (generateId n rnd) = n.
Proof.
  unfold generateId.
  assert (H : forall l : list ascii,
            String.length (string_of_list_ascii l) = length l).
  { induction l as [|c l IH]; [reflexivity|]. cbn. now rewrite IH. }
  now rewrite H, length_map, length_seq.
Qed.

Lemma WebAppPopupButton_synthesized (rnd : nat -> ascii) :
  WebAppPopupButton (synthesized rnd) = Ok (synthesized rnd).
Proof.
  rewrite WebAppPopupButton_cases. cbv zeta. cbn [synthesized id type text default].
  unfold Datatypes.id, len. rewrite generateId_length. reflexivity.
Qed.

Lemma setButtons_NoButtons (rnd : nat -> ascii) (p : Popup.t) :
  setButtons rnd NoButtons p = Ok (store_buttons [synthesized rnd] p).
Proof.
  unfold setButtons. fold (synthesized rnd).
  now rewrite WebAppPopupButton_synthesized.
Qed.

(** A setter that returns leaves [#isOpened] alone. *)
Lemma setTitle_isOpened (title : option string) (p r : Popup.t) :
  setTitle title p = Ok r -> isOpened r = isOpened p.
Proof.
  unfold setTitle. intros H.
  repeat match type of H with
         | (if ?c then _ else _) = _ => destruct c
         end; inversion H; reflexivity.
Qed.

Lemma setMessage_isOpened (message : option string) (p r : Popup.t) :
  setMessage message p = Ok r -> isOpened r = isOpened p.
Proof.
  unfold setMessage. intros H.
  repeat match type of H with
         | (if ?c then _ else _) = _ => destruct c
         end; inversion H; reflexivity.
Qed.

(** Every error of a setter is a [WebAppPopupParamInvalidError]. *)
Lemma setTitle_throws (title : option string) (p : Popup.t) (e : error) :
  setTitle title p = Throw e -> e = WebAppPopupParamInvalidError TitleTooLong.
Proof.
  unfold setTitle. intros H.
  repeat match type of H with
         | (if ?c then _ else _) = _ => destruct c
         end; inversion H; reflexivity.
Qed.

Lemma setMessage_cases (message : option string) (p : Popup.t) :
  let m := trim (default "" message) in
  setMessage message p =
    if negb (truthy m) then Throw (WebAppPopupParamInvalidError MessageRequired)
    else if MAX_MESSAGE_LENGTH <? len m
    then Throw (WebAppPopupParamInvalidError MessageTooLong)
    else Ok (set_params {| ev_title := ev_title (data_params p);
                           ev_message := Some m;
                           ev_buttons := ev_buttons (data_params p) |} p).
Proof. reflexivity. Qed.

(** [open] on a closed popup, one setter after the other. *)
Lemma open_closed (rnd : nat -> ascii) (ps : PopupParams)
    (cb : option PopupCallback) (p : Popup.t) :
  isOpened p = false ->
  Popup.open rnd (VObject ps) cb p =
    match setTitle (title ps) p with
    | Throw e => (p, Some e)
    | Ok p1 =>
        match setMessage (message ps) p1 with
        | Throw e => (p1, Some e)
        | Ok p2 =>
            match setButtons rnd (buttons ps) p2 with
            | Throw e => (p2, Some e)
            | Ok p3 =>
                ({| isOpened := true;
                    data_params := data_params (setCallback cb p3);
                    data_callback := data_callback (setCallback cb p3) |}, None)
            end
        end
    end.
Proof.
  intros Hc. unfold Popup.open, open_with, andThen, threw, done_.
  cbn [destructure]. rewrite Hc.
  destruct (setTitle (title ps) p) as [p1|e]; [|reflexivity].
  destruct (setMessage (message ps) p1) as [p2|e]; [|reflexivity].
  destruct (setButtons rnd (buttons ps) p2) as [p3|e]; reflexivity.
Qed.

Lemma open_opened (rnd : nat -> ascii) (ps : PopupParams)
    (cb : option PopupCallback) (p : Popup.t) :
  isOpened p = true -> Popup.open rnd (VObject ps) cb p = (p, None).
Proof.
  intros Ho. unfold Popup.open, open_with, done_. cbn [destructure].
  now rewrite Ho.
Qed.

End PopupFacts.

(** C5.  What [Popup.open] leaves behind.  With the buttons omitted, a
    closed popup that opens holds exactly one button, of type close, whose
    id is the 5-character token generated during the call; this is what
    [open({message: "hi"})] does.  On a closed popup a message that trims
    to nothing or to more than 256 characters makes [open] throw
    [ParamInvalid], as a message of 257 "x" does, and so does a button array
    with no entry or with more than 3; the popup stays closed.  On an open
    popup [open] changes neither the state, nor the parameters, nor the
    stored callback, and does not throw. *)
Theorem Popup_open_postconditions :
  (forall (rnd : nat -> ascii) (title message : option string)
          (cb : option PopupCallback) (p p' : Popup.t),
     Popup.isOpened p = false ->
     Popup.open rnd
       (JS.VObject {| Popup.title := title; Popup.message := message;
                      Popup.buttons := Popup.NoButtons |}) cb p = (p', None) ->
     Popup.isOpened p' = true
     /\ Popup.ev_buttons (Popup.data_params p')
        = Some [ {| PopupButton.id := Some (generateId 5 rnd);
                    PopupButton.type := Some "close";
                    PopupButton.text := None |} ]
     /\ String.length (generateId 5 rnd) = 5%nat)
  /\ (forall (rnd : nat -> ascii) (cb : option PopupCallback),
        Popup.open rnd
          (JS.VObject {| Popup.title := None; Popup.message := Some "hi";
                         Popup.buttons := Popup.NoButtons |}) cb Popup.initial
        = ({| Popup.isOpened := true;
              Popup.data_params :=
                {| Popup.ev_title := None; Popup.ev_message := Some "hi";
                   Popup.ev_buttons :=
                     Some [ {| PopupButton.id := Some (generateId 5 rnd);
                               PopupButton.type := Some "close";
                               PopupButton.text := None |} ] |};
              Popup.data_callback := cb |}, None))
  /\ (forall (rnd : nat -> ascii) (title message : option string)
             (buttons : Popup.ButtonsArg) (cb : option PopupCallback) (p : Popup.t),
        Popup.isOpened p = false ->
        JS.trim (default "" message) = ""
        \/ 256 < JS.len (JS.trim (default "" message)) ->
        let r := Popup.open rnd
                   (JS.VObject {| Popup.title := title; Popup.message := message;
                                  Popup.buttons := buttons |}) cb p in
        Popup.isOpened (fst r) = false
        /\ (snd r = Some (WebAppPopupParamInvalidError TitleTooLong)
            \/ snd r = Some (WebAppPopupParamInvalidError MessageRequired)
            \/ snd r = Some (WebAppPopupParamInvalidError MessageTooLong)))
  /\ (forall (rnd : nat -> ascii) (cb : option PopupCallback),
        Popup.open rnd
          (JS.VObject {| Popup.title := None;
                         Popup.message := Some (JS.repeat_ "x" 257);
                         Popup.buttons := Popup.NoButtons |}) cb Popup.initial
        = (Popup.initial, Some (WebAppPopupParamInvalidError MessageTooLong)))
  /\ (forall (rnd : nat -> ascii) (ps : Popup.PopupParams)
             (cb : option PopupCallback) (p : Popup.t),
        Popup.isOpened p = true ->
        Popup.open rnd (JS.VObject ps) cb p = (p, None))
  /\ (forall (rnd : nat -> ascii) (title message : option string)
             (l : list PopupButton.EventPopupButton)
             (cb : option PopupCallback) (p : Popup.t),
        Popup.isOpened p = false ->
        length l = 0%nat \/ (3 < length l)%nat ->
        let r := Popup.open rnd
                   (JS.VObject {| Popup.title := title; Popup.message := message;
                                  Popup.buttons := Popup.ButtonArray l |}) cb p in
        Popup.isOpened (fst r) = false
        /\ exists why, snd r = Some (WebAppPopupParamInvalidError why))
  /\ (forall (rnd : nat -> ascii) (cb : option PopupCallback),
        snd (Popup.open rnd
               (JS.VObject {| Popup.title := None; Popup.message := Some "hi";
                              Popup.buttons := Popup.ButtonArray [] |}) cb
               Popup.initial)
        = Some (WebAppPopupParamInvalidError TooFewButtons)).
Proof.
  repeat apply conj.
  - intros rnd title message cb p p' Hc H.
    rewrite open_closed in H by exact Hc. cbn [Popup.title Popup.message Popup.buttons] in H.
    destruct (Popup.setTitle title p) as [p1|e]; [|discriminate].
    destruct (Popup.setMessage message p1) as [p2|e]; [|discriminate].
    rewrite setButtons_NoButtons in H. injection H as <-.
    cbn [Popup.isOpened Popup.data_params]. rewrite setCallback_params.
    split; [reflexivity|]. split; [reflexivity|]. apply generateId_length.
  - intros rnd cb. destruct cb; vm_compute; reflexivity.
  - intros rnd title message buttons cb p Hc Hm r. subst r.
    rewrite open_closed by exact Hc.
    cbn [Popup.title Popup.message Popup.buttons].
    destruct (Popup.setTitle title p) as [p1|e] eqn:Et.
    2:{ apply setTitle_throws in Et. subst e. cbn. tauto. }
    apply setTitle_isOpened in Et.
    rewrite setMessage_cases. cbv zeta.
    destruct (truthy (JS.trim (default "" message))) eqn:Em; cbn [negb].
    2:{ cbn. split; [congruence | tauto]. }
    destruct Hm as [Hm|Hm].
    { apply truthy_true in Em. contradiction. }
    unfold Popup.MAX_MESSAGE_LENGTH.
    destruct (Z.ltb_spec 256 (JS.len (JS.trim (default "" message)))); [|lia].
    cbn. split; [congruence | tauto].
  - intros rnd cb. vm_compute. reflexivity.
  - intros rnd ps cb p Ho. now apply open_opened.
  - intros rnd title message l cb p Hc Hl r. subst r.
    rewrite open_closed by exact Hc.
    cbn [Popup.title Popup.message Popup.buttons].
    destruct (Popup.setTitle title p) as [p1|e] eqn:Et.
    2:{ apply setTitle_throws in Et. subst e. cbn. eauto. }
    apply setTitle_isOpened in Et.
    rewrite setMessage_cases. cbv zeta.
    destruct (negb (truthy (JS.trim (default "" message)))).
    { cbn. split; [congruence | eauto]. }
    destruct (Popup.MAX_MESSAGE_LENGTH <? JS.len (JS.trim (default "" message))).
    { cbn. split; [congruence | eauto]. }
    unfold Popup.setButtons, Popup.MIN_BUTTONS, Popup.MAX_BUTTONS.
    destruct (Z.ltb_spec (Z.of_nat (length l)) 1).
    { cbn. split; [congruence | eauto]. }
    destruct (Z.ltb_spec 3 (Z.of_nat (length l))); [|lia].
    cbn. split; [congruence | eauto].
  - intros rnd cb. vm_compute. reflexivity.
Qed.

(** Re-opening an open popup, at a concrete popup. *)
Lemma Popup_open_postconditions_witness :
  let p := {| Popup.isOpened := true;
              Popup.data_params :=
                {| Popup.ev_title := None; Popup.ev_message := Some "first";
                   Popup.ev_buttons := None |};
              Popup.data_callback := Some (UserCallback "cb") |} in
  Popup.open (fun _ => "a"%char)
    (JS.VObject {| Popup.title := Some "T"; Popup.message := Some "second";
                   Popup.buttons := Popup.NoButtons |}) None p
  = (p, None).
Proof.
  intros p.
  destruct Popup_open_postconditions as (_ & _ & _ & _ & H & _).
  apply H. reflexivity.
Defined.

Section PopupFaults.
Import JS PopupButton Popup.

Lemma len_zero (s : string) : (len s =? 0) = negb (truthy s).
Proof. destruct s; reflexivity. Qed.

(** [#setTitle] as one decision list: the bound is tested on the title as
    given, not on the trimmed one. *)
Lemma setTitle_cases (title : string) (p : Popup.t) :
  setTitle (Some title) p =
    if negb (truthy (trim title)) then Ok p
    else if MAX_TITLE_LENGTH <? len title
    then Throw (WebAppPopupParamInvalidError TitleTooLong)
    else Ok (set_params {| ev_title := Some (trim title);
                           ev_message := ev_message (data_params p);
                           ev_buttons := ev_buttons (data_params p) |} p).
Proof.
  unfold setTitle. cbn [truthy_opt default]. unfold Datatypes.id.
  destruct (truthy title) eqn:Et; cbn [negb].
  - now rewrite len_zero.
  - apply truthy_false in Et. subst title. reflexivity.
Qed.

End PopupFaults.

(** C4.  The title bound of [#setTitle] is tested on the title as it was
    passed, before trimming.  The title made of "a" and 64 spaces trims to
    "a", which is not empty and shorter than 64, and yet [open] throws
    [ParamInvalid] for it; in general a title that does not trim to nothing
    is refused exactly when its untrimmed length exceeds 64, and is stored
    trimmed otherwise. *)
Theorem setTitle_bound_on_untrimmed_title :
  let title := "a" ++ JS.repeat_ " " 64 in
  JS.trim title = "a"
  /\ JS.len title = 65
  /\ (forall (rnd : nat -> ascii) (cb : option PopupCallback),
        Popup.open rnd
          (JS.VObject {| Popup.title := Some title; Popup.message := Some "hi";
                         Popup.buttons := Popup.NoButtons |}) cb Popup.initial
        = (Popup.initial, Some (WebAppPopupParamInvalidError TitleTooLong)))
  /\ (forall (t : string) (p : Popup.t),
        Popup.setTitle (Some t) p =
          if negb (truthy (JS.trim t)) then Ok p
          else if 64 <? JS.len t
          then Throw (WebAppPopupParamInvalidError TitleTooLong)
          else Ok (Popup.set_params
                     {| Popup.ev_title := Some (JS.trim t);
                        Popup.ev_message := Popup.ev_message (Popup.data_params p);
                        Popup.ev_buttons := Popup.ev_buttons (Popup.data_params p) |}
                     p)).
Proof.
  intros title. repeat apply conj.
  - vm_compute. reflexivity.
  - vm_compute. reflexivity.
  - intros rnd cb. vm_compute. reflexivity.
  - intros t p. apply setTitle_cases.
Qed.

(** C3.  A closed popup can hold parameters.  [open] with the title "T" and
    an empty message throws [ParamInvalid] after the title was stored: the
    popup is closed and its [params] getter returns the title instead of
    null, and the next [open], which passes no title, shows "T".  The same
    happens from the initial popup for every acceptable title combined with
    a message that is refused.  [close] itself resets every field to the
    initial state, whatever the popup held, and a second [close] changes
    nothing. *)
Theorem Popup_failed_open_keeps_params :
  (forall (rnd : nat -> ascii) (cb : option PopupCallback),
     let r := Popup.open rnd
                (JS.VObject {| Popup.title := Some "T"; Popup.message := Some "";
                               Popup.buttons := Popup.NoButtons |}) cb Popup.initial in
     snd r = Some (WebAppPopupParamInvalidError MessageRequired)
     /\ Popup.isOpened (fst r) = false
     /\ Popup.params (fst r)
        = Some {| Popup.ev_title := Some "T"; Popup.ev_message := None;
                  Popup.ev_buttons := None |}
     /\ Popup.params
          (fst (Popup.open rnd
                  (JS.VObject {| Popup.title := None; Popup.message := Some "hi";
                                 Popup.buttons := Popup.NoButtons |}) cb (fst r)))
        = Some {| Popup.ev_title := Some "T"; Popup.ev_message := Some "hi";
                  Popup.ev_buttons :=
                    Some [ {| PopupButton.id := Some (generateId 5 rnd);
                              PopupButton.type := Some "close";
                              PopupButton.text := None |} ] |})
  /\ (forall (rnd : nat -> ascii) (t : string) (m : option string)
             (b : Popup.ButtonsArg) (cb : option PopupCallback),
        JS.trim t <> "" -> JS.len t <= 64 ->
        JS.trim (default "" m) = "" \/ 256 < JS.len (JS.trim (default "" m)) ->
        let r := Popup.open rnd
                   (JS.VObject {| Popup.title := Some t; Popup.message := m;
                                  Popup.buttons := b |}) cb Popup.initial in
        (exists why, snd r = Some (WebAppPopupParamInvalidError why))
        /\ Popup.isOpened (fst r) = false
        /\ Popup.params (fst r)
           = Some {| Popup.ev_title := Some (JS.trim t); Popup.ev_message := None;
                     Popup.ev_buttons := None |})
  /\ (forall p : Popup.t,
        Popup.close p = Popup.initial
        /\ Popup.isOpened (Popup.close p) = false
        /\ Popup.params (Popup.close p) = None
        /\ Popup.callback (Popup.close p) = None
        /\ Popup.close (Popup.close p) = Popup.close p).
Proof.
  split; [|split].
  - intros rnd cb r. subst r. repeat apply conj; destruct cb; vm_compute; reflexivity.
  - intros rnd t m b cb Ht Hl Hm r. subst r.
    rewrite open_closed by reflexivity.
    cbn [Popup.title Popup.message Popup.buttons].
    rewrite setTitle_cases. apply truthy_true in Ht. rewrite Ht. cbn [negb].
    unfold Popup.MAX_TITLE_LENGTH.
    destruct (Z.ltb_spec 64 (JS.len t)); [lia|].
    rewrite setMessage_cases. cbv zeta.
    destruct (truthy (JS.trim (default "" m))) eqn:Em; cbn [negb].
    + destruct Hm as [Hm|Hm]; [apply truthy_true in Em; contradiction|].
      unfold Popup.MAX_MESSAGE_LENGTH.
      destruct (Z.ltb_spec 256 (JS.len (JS.trim (default "" m)))); [|lia].
      cbn. eauto.
    + cbn. eauto.
  - intros p. repeat apply conj; reflexivity.
Qed.

(** A title with blanks around it, and a message of blanks. *)
Lemma Popup_failed_open_keeps_params_witness :
  let r := Popup.open (fun _ => "a"%char)
             (JS.VObject {| Popup.title := Some " Sale "; Popup.message := Some "  ";
                            Popup.buttons := Popup.NoButtons |}) None Popup.initial in
  (exists why, snd r = Some (WebAppPopupParamInvalidError why))
  /\ Popup.isOpened (fst r) = false
  /\ Popup.params (fst r)
     = Some {| Popup.ev_title := Some (JS.trim " Sale "); Popup.ev_message := None;
               Popup.ev_buttons := None |}.
Proof.
  destruct Popup_failed_open_keeps_params as (_ & H & _).
  apply (H (fun _ => "a"%char) " Sale " (Some "  ") Popup.NoButtons None).
  - vm_compute. discriminate.
  - vm_compute. discriminate.
  - left. vm_compute. reflexivity.
Defined.

Section PopupInvariant.
Import JS PopupButton Popup.

Lemma open_with_returns (rnd : nat -> ascii) (ps : PopupParams)
    (cb : option PopupCallback) (p p' : Popup.t) :
  open_with rnd ps cb p = (p', None) ->
  (isOpened p = true /\ p' = p) \/ (isOpened p = false /\ isOpened p' = true).
Proof.
  unfold open_with, andThen, threw, done_.
  destruct (isOpened p) eqn:Ho.
  - intros [= <-]. now left.
  - destruct (setTitle (title ps) p) as [p1|e]; [|discriminate].
    destruct (setMessage (message ps) p1) as [p2|e]; [|discriminate].
    destruct (setButtons rnd (buttons ps) p2) as [p3|e]; [|discriminate].
    intros [= <-]. now right.
Qed.

Lemma open_returns (rnd : nat -> ascii) (v : jsvalue PopupParams)
    (cb : option PopupCallback) (p p' : Popup.t) :
  Popup.open rnd v cb p = (p', None) ->
  (isOpened p = true /\ p' = p) \/ (isOpened p = false /\ isOpened p' = true).
Proof.
  unfold Popup.open.
  destruct (destructure v) as [ps|e]; [apply open_with_returns | discriminate].
Qed.

(** As long as no [open] throws, a closed popup has no parameters. *)
Lemma clean_run_closed_params (p : Popup.t) :
  clean_run p -> isOpened p = false -> Popup.params p = None.
Proof.
  induction 1 as [|p _ _|p p' rnd v cb _ IH Hopen]; intros Hc.
  - reflexivity.
  - reflexivity.
  - destruct (open_returns _ _ _ _ _ Hopen) as [[_ ->]|[_ Ho]].
    + now apply IH.
    + congruence.
Qed.

End PopupInvariant.

(** ** The orchestrator *)

Section ShowConfirmFacts.
Import JS PopupButton Popup TelegramWebApp.

Lemma with_popup_same (w : TelegramWebApp.t) : with_popup (popup w) w = w.
Proof. now destruct w. Qed.

(** [showConfirm] on a closed popup with an acceptable message. *)
Lemma showConfirm_opens (rnd : nat -> ascii) (message : string)
    (cb : option handle) (w : TelegramWebApp.t) :
  isSuitableTo (version w) "6.2" = true ->
  isOpened (popup w) = false ->
  trim message <> "" ->
  len (trim message) <= 256 ->
  let d := {| ev_title := ev_title (data_params (popup w));
              ev_message := Some (trim message);
              ev_buttons := Some [okButton; cancelButton] |} in
  showConfirm rnd message cb w =
    (log (Post "web_app_open_popup" (PopupData d))
       (with_popup {| isOpened := true; data_params := d;
                      data_callback := Some (ConfirmCallback cb) |} w), None).
Proof.
  intros Hv Hc Hm Hl d.
  unfold showConfirm.
  change (WebAppPopupButton {| id := Some OK_BTN_ID; type := Some TYPES.OK; text := None |})
    with (Ok okButton).
  change (WebAppPopupButton {| id := Some ""; type := Some TYPES.CANCEL; text := None |})
    with (Ok cancelButton).
  cbn [bind]. unfold showPopup. rewrite Hv, Hc. cbn [negb].
  change (paramsGuard _) with false. cbv iota.
  rewrite open_closed by exact Hc.
  cbn [Popup.title Popup.message Popup.buttons].
  change (setTitle None (popup w)) with (Ok (popup w)). cbv iota.
  rewrite setMessage_cases. cbv zeta. cbn [default]. unfold Datatypes.id.
  apply truthy_true in Hm. rewrite Hm. cbn [negb].
  unfold MAX_MESSAGE_LENGTH.
  destruct (Z.ltb_spec 256 (len (trim message))); [lia|].
  unfold setButtons.
  change (mapButtons [okButton; cancelButton]) with (Ok [okButton; cancelButton]).
  cbn [length Z.of_nat Z.ltb Z.compare Pos.compare Pos.compare_cont MIN_BUTTONS
       MAX_BUTTONS Pos.of_succ_nat Pos.succ bind].
  unfold Popup.params, store_buttons, set_params, setCallback.
  cbn [data_params ev_title ev_message ev_buttons data_callback isOpened has_key].
  subst d. destruct (ev_title (data_params (popup w))); reflexivity.
Qed.

End ShowConfirmFacts.

(** C2.  After [showConfirm(message, cb)] has opened the popup (current
    version at least 6.2, popup closed, message not blank and at most 256
    long after trimming), its two buttons are ok with id "ok" and cancel with
    the empty id.  A [popup_closed] event with button id "" then closes the
    popup, calls no consumer function and still emits [popupClosed] with
    button id "".  With button id "ok" it closes the popup and calls
    [cb(true)]; when [cb] returns, [popupClosed] is emitted with "ok", and
    when [cb] throws, its error leaves the handler and nothing is emitted.
    This holds whatever the consumer functions do. *)
Theorem showConfirm_cancel_skips_callback :
  forall (consumer : handle -> list jsarg -> TelegramWebApp.t -> ran TelegramWebApp.t)
         (rnd : nat -> ascii) (message : string) (cb : handle)
         (w : TelegramWebApp.t),
    TelegramWebApp.isSuitableTo (TelegramWebApp.version w) "6.2" = true ->
    Popup.isOpened (TelegramWebApp.popup w) = false ->
    JS.trim message <> "" ->
    JS.len (JS.trim message) <= 256 ->
    exists w1 : TelegramWebApp.t,
      TelegramWebApp.showConfirm rnd message (Some cb) w = (w1, None)
      /\ Popup.isOpened (TelegramWebApp.popup w1) = true
      /\ Popup.ev_buttons (Popup.data_params (TelegramWebApp.popup w1))
         = Some [ {| PopupButton.id := Some "ok"; PopupButton.type := Some "ok";
                     PopupButton.text := None |};
                  {| PopupButton.id := Some ""; PopupButton.type := Some "cancel";
                     PopupButton.text := None |} ]
      /\ (exists w2 : TelegramWebApp.t,
            TelegramWebApp.onPopupClosed consumer (Some "") w1 = (w2, None)
            /\ Popup.isOpened (TelegramWebApp.popup w2) = false
            /\ TelegramWebApp.trace w2
               = (TelegramWebApp.trace w1
                  ++ [TelegramWebApp.Emit "popupClosed"
                        (TelegramWebApp.PopupClosedData (Some ""))])%list)
      /\ (exists wc : TelegramWebApp.t,
            Popup.isOpened (TelegramWebApp.popup wc) = false
            /\ TelegramWebApp.trace wc
               = (TelegramWebApp.trace w1
                  ++ [TelegramWebApp.Call cb [ABool true]])%list
            /\ match consumer cb [ABool true] wc with
               | (w3, None) =>
                   TelegramWebApp.onPopupClosed consumer (Some "ok") w1
                   = (TelegramWebApp.receiveWebViewEvent "popupClosed"
                        (TelegramWebApp.PopupClosedData (Some "ok")) w3, None)
               | (w3, Some e) =>
                   TelegramWebApp.onPopupClosed consumer (Some "ok") w1
                   = (w3, Some e)
               end).
Proof.
  intros consumer rnd message cb w Hv Hc Hm Hl.
  eexists. split; [apply showConfirm_opens; assumption|].
  split; [reflexivity|]. split; [reflexivity|].
  split.
  - eexists. split; [reflexivity|]. split; [reflexivity|].
    cbn. reflexivity.
  - match goal with
    | |- context [TelegramWebApp.onPopupClosed consumer (Some "ok") ?x] =>
        exists (TelegramWebApp.log (TelegramWebApp.Call cb [ABool true])
                  (TelegramWebApp.with_popup Popup.initial x))
    end.
    split; [reflexivity|]. split; [reflexivity|].
    + unfold TelegramWebApp.onPopupClosed.
      cbn [TelegramWebApp.popup TelegramWebApp.log TelegramWebApp.with_popup
           Popup.isOpened negb truthy_opt truthy String.eqb Ascii.eqb Bool.eqb
           default Popup.callback Popup.data_callback
           TelegramWebApp.callPopupCallback TelegramWebApp.callOptional].
      unfold TelegramWebApp.callConsumer, TelegramWebApp.afterCall.
      change (String.eqb (Datatypes.id "ok") TelegramWebApp.OK_BTN_ID) with true.
      destruct (consumer cb [ABool true] _) as [w3 [e|]]; reflexivity.
Qed.

(** The opened popup of C2, from a fresh orchestrator at version 6.4.  With
    a consumer function that returns at once, "ok" calls it and then emits
    the event; with one that throws, "ok" calls it and emits nothing. *)
Lemma showConfirm_cancel_skips_callback_witness :
  let w := {| TelegramWebApp.version := "6.4";
              TelegramWebApp.tgWebAppBotInline := false;
              TelegramWebApp.popup := Popup.initial;
              TelegramWebApp.invoices := ∅;
              TelegramWebApp.clipboard := ∅;
              TelegramWebApp.trace := [] |} in
  (exists w1 : TelegramWebApp.t,
     TelegramWebApp.showConfirm (fun _ => "a"%char) "Proceed?" (Some "cb") w = (w1, None)
     /\ Popup.isOpened (TelegramWebApp.popup w1) = true
     /\ Popup.ev_buttons (Popup.data_params (TelegramWebApp.popup w1))
        = Some [ {| PopupButton.id := Some "ok"; PopupButton.type := Some "ok";
                    PopupButton.text := None |};
                 {| PopupButton.id := Some ""; PopupButton.type := Some "cancel";
                    PopupButton.text := None |} ]
     /\ (exists w2 : TelegramWebApp.t,
           TelegramWebApp.onPopupClosed sample_consumer (Some "") w1 = (w2, None)
           /\ Popup.isOpened (TelegramWebApp.popup w2) = false
           /\ TelegramWebApp.trace w2
              = (TelegramWebApp.trace w1
                 ++ [TelegramWebApp.Emit "popupClosed"
                       (TelegramWebApp.PopupClosedData (Some ""))])%list)
     /\ (exists w3 : TelegramWebApp.t,
           TelegramWebApp.onPopupClosed sample_consumer (Some "ok") w1 = (w3, None)
           /\ Popup.isOpened (TelegramWebApp.popup w3) = false
           /\ TelegramWebApp.trace w3
              = (TelegramWebApp.trace w1
                 ++ [TelegramWebApp.Call "cb" [ABool true];
                     TelegramWebApp.Emit "popupClosed"
                       (TelegramWebApp.PopupClosedData (Some "ok"))])%list))
  /\ (exists w1 w3 : TelegramWebApp.t,
        TelegramWebApp.showConfirm (fun _ => "a"%char) "Proceed?" (Some "boom") w
        = (w1, None)
        /\ TelegramWebApp.onPopupClosed sample_consumer (Some "ok") w1
           = (w3, Some (Error "boom"))
        /\ Popup.isOpened (TelegramWebApp.popup w3) = false
        /\ TelegramWebApp.trace w3
           = (TelegramWebApp.trace w1
              ++ [TelegramWebApp.Call "boom" [ABool true]])%list).
Proof.
  intros w. split.
  - destruct (showConfirm_cancel_skips_callback sample_consumer (fun _ => "a"%char)
                "Proceed?" "cb" w) as (w1 & E & Ho & Hb & C & (wc & Hc & Tc & K)).
    + vm_compute. reflexivity.
    + reflexivity.
    + vm_compute. discriminate.
    + vm_compute. discriminate.
    + exists w1. split; [exact E|]. split; [exact Ho|]. split; [exact Hb|].
      split; [exact C|].
      cbn [sample_consumer String.eqb Ascii.eqb Bool.eqb] in K.
      eexists. split; [exact K|].
      split; [exact Hc|]. cbn [TelegramWebApp.receiveWebViewEvent TelegramWebApp.log
                               TelegramWebApp.trace].
      rewrite Tc, <- app_assoc. reflexivity.
  - destruct (showConfirm_cancel_skips_callback sample_consumer (fun _ => "a"%char)
                "Proceed?" "boom" w) as (w1 & E & _ & _ & _ & (wc & Hc & Tc & K)).
    + vm_compute. reflexivity.
    + reflexivity.
    + vm_compute. discriminate.
    + vm_compute. discriminate.
    + exists w1, wc. split; [exact E|].
      cbn [sample_consumer String.eqb Ascii.eqb Bool.eqb] in K.
      split; [exact K|]. split; [exact Hc | exact Tc].
Defined.

Section ShowPopupFacts.
Import JS PopupButton Popup TelegramWebApp.

Lemma WebAppPopupButton_fault (cfg : EventPopupButton) (e : error) :
  WebAppPopupButton cfg = Throw e -> e <> params_fault.
Proof.
  rewrite WebAppPopupButton_cases. cbv zeta. intros H.
  repeat match type of H with
         | (if ?c then _ else _) = _ => destruct c
         end; inversion H; discriminate.
Qed.

Lemma mapButtons_fault (l : list EventPopupButton) (e : error) :
  mapButtons l = Throw e -> e <> params_fault.
Proof.
  induction l as [|b l IH]; [discriminate|].
  cbn [mapButtons]. destruct (WebAppPopupButton b) as [d|e'] eqn:Eb; cbn [bind].
  - destruct (mapButtons l) as [ds|e'']; cbn [bind]; [discriminate|].
    intros [= <-]. now apply IH.
  - intros [= <-]. now apply WebAppPopupButton_fault in Eb.
Qed.

Lemma setButtons_fault (rnd : nat -> ascii) (b : ButtonsArg) (p : Popup.t) (e : error) :
  setButtons rnd b p = Throw e -> e <> params_fault.
Proof.
  destruct b as [| |l].
  - now rewrite setButtons_NoButtons.
  - intros [= <-]. discriminate.
  - unfold setButtons.
    destruct (Z.of_nat (length l) <? MIN_BUTTONS); [intros [= <-]; discriminate|].
    destruct (MAX_BUTTONS <? Z.of_nat (length l)); [intros [= <-]; discriminate|].
    destruct (mapButtons l) as [ds|e'] eqn:Em; cbn [bind]; [discriminate|].
    intros [= <-]. now apply mapButtons_fault in Em.
Qed.

Lemma setMessage_fault (m : option string) (p : Popup.t) (e : error) :
  setMessage m p = Throw e -> e <> params_fault.
Proof.
  rewrite setMessage_cases. cbv zeta. intros H.
  repeat match type of H with
         | (if ?c then _ else _) = _ => destruct c
         end; inversion H; discriminate.
Qed.

Lemma open_fault (rnd : nat -> ascii) (v : jsvalue PopupParams)
    (cb : option PopupCallback) (p p' : Popup.t) (e : error) :
  Popup.open rnd v cb p = (p', Some e) -> e <> params_fault.
Proof.
  unfold Popup.open, threw.
  destruct (destructure v) as [ps|e'] eqn:Ed.
  - unfold open_with, andThen, threw, done_.
    destruct (isOpened p); [discriminate|].
    destruct (setTitle (title ps) p) as [p1|e1] eqn:E1.
    2:{ intros [= _ <-]. apply setTitle_throws in E1. subst e1. discriminate. }
    destruct (setMessage (message ps) p1) as [p2|e2] eqn:E2.
    2:{ intros [= _ <-]. now apply setMessage_fault in E2. }
    destruct (setButtons rnd (buttons ps) p2) as [p3|e3] eqn:E3.
    2:{ intros [= _ <-]. now apply setButtons_fault in E3. }
    discriminate.
  - intros [= _ <-]. destruct v; try discriminate; injection Ed as <-; discriminate.
Qed.

(** [showPopup] never touches the registries of pending requests. *)
Lemma showPopup_registries (rnd : nat -> ascii) (v : jsvalue PopupParams)
    (cb : option PopupCallback) (w : TelegramWebApp.t) :
  invoices (fst (showPopup rnd v cb w)) = invoices w
  /\ clipboard (fst (showPopup rnd v cb w)) = clipboard w.
Proof.
  unfold showPopup, threw, done_.
  destruct (negb _); [now split|].
  destruct (isOpened (popup w)); [now split|].
  destruct (paramsGuard v); [now split|].
  destruct (Popup.open rnd v cb (popup w)) as [p [e|]]; now split.
Qed.

End ShowPopupFacts.

(** C9.  The test [typeof params !== 'object' && params === null] of
    [showPopup] is false for every value, so no call of [showPopup] ever
    throws "params must be an object"; with [null], a supported version and a
    closed popup, the call goes on to [Popup.open], where destructuring
    [null] throws a [TypeError], and nothing is posted. *)
Theorem showPopup_params_guard_unreachable :
  (forall v : JS.jsvalue Popup.PopupParams, TelegramWebApp.paramsGuard v = false)
  /\ (forall (rnd : nat -> ascii) (v : JS.jsvalue Popup.PopupParams)
             (cb : option PopupCallback) (w : TelegramWebApp.t),
        snd (TelegramWebApp.showPopup rnd v cb w)
        <> Some (WebAppPopupParamInvalidError ParamsNotObject))
  /\ (forall (rnd : nat -> ascii) (cb : option PopupCallback)
             (w : TelegramWebApp.t),
        TelegramWebApp.isSuitableTo (TelegramWebApp.version w) "6.2" = true ->
        Popup.isOpened (TelegramWebApp.popup w) = false ->
        Popup.open rnd JS.VNull cb (TelegramWebApp.popup w)
        = (TelegramWebApp.popup w, Some TypeError)
        /\ TelegramWebApp.showPopup rnd JS.VNull cb w = (w, Some TypeError)).
Proof.
  assert (G : forall v : JS.jsvalue Popup.PopupParams,
            TelegramWebApp.paramsGuard v = false) by (intros []; reflexivity).
  repeat apply conj.
  - exact G.
  - intros rnd v cb w. unfold TelegramWebApp.showPopup. rewrite G.
    destruct (negb _); [discriminate|].
    destruct (Popup.isOpened _); [discriminate|].
    destruct (Popup.open rnd v cb (TelegramWebApp.popup w)) as [p [e|]] eqn:Eo;
      [|discriminate].
    apply open_fault in Eo. cbn. unfold params_fault in Eo. congruence.
  - intros rnd cb w Hv Hc. split; [reflexivity|].
    unfold TelegramWebApp.showPopup. rewrite Hv, Hc, G. cbn.
    unfold threw. now rewrite with_popup_same.
Qed.

(** [showPopup(null)] on a fresh orchestrator at version 6.4. *)
Lemma showPopup_params_guard_unreachable_witness :
  let w := {| TelegramWebApp.version := "6.4";
              TelegramWebApp.tgWebAppBotInline := false;
              TelegramWebApp.popup := Popup.initial;
              TelegramWebApp.invoices := ∅;
              TelegramWebApp.clipboard := ∅;
              TelegramWebApp.trace := [] |} in
  Popup.open (fun _ => "a"%char) JS.VNull None (TelegramWebApp.popup w)
  = (TelegramWebApp.popup w, Some TypeError)
  /\ TelegramWebApp.showPopup (fun _ => "a"%char) JS.VNull None w = (w, Some TypeError).
Proof.
  intros w.
  destruct showPopup_params_guard_unreachable as (_ & _ & H).
  apply H.
  - vm_compute. reflexivity.
  - reflexivity.
Defined.

Section PendingFacts.
Import JS TelegramWebApp.

Variable consumer : handle -> list jsarg -> TelegramWebApp.t -> ran TelegramWebApp.t.

Lemma clipboard_unknown (id data : option string) (w : TelegramWebApp.t) :
  truthy_opt id = false \/ clipboard w !! default "" id = None ->
  onClipboardTextReceived consumer id data w = (w, None).
Proof.
  intros [H|H]; unfold onClipboardTextReceived, Clipboard.hasRequest.
  - now rewrite H.
  - rewrite H. cbn [has_key negb]. now rewrite orb_true_r.
Qed.

Lemma clipboard_known (id : string) (data : option string) (cb : option handle)
    (w : TelegramWebApp.t) :
  id <> "" -> clipboard w !! id = Some cb ->
  onClipboardTextReceived consumer (Some id) data w =
    afterCall (callOptional consumer cb [arg_of_data data] (clipboard_taken id w))
      (fun w2 =>
         done_ (receiveWebViewEvent "clipboardTextReceived" (ClipboardData data) w2)).
Proof.
  intros Hid Hm. unfold onClipboardTextReceived, Clipboard.hasRequest,
    Clipboard.getRequest, clipboard_taken.
  cbn [truthy_opt default]. unfold Datatypes.id.
  apply truthy_true in Hid. rewrite Hid, Hm. reflexivity.
Qed.

Lemma invoice_unknown (slug : option string) (status : string) (w : TelegramWebApp.t) :
  truthy_opt slug = false \/ invoices w !! default "" slug = None ->
  onInvoiceClosed consumer slug status w = (w, None).
Proof.
  intros [H|H]; unfold onInvoiceClosed, Invoices.has.
  - now rewrite H.
  - rewrite H. cbn [has_key negb]. now destruct (negb (truthy_opt slug)).
Qed.

Lemma invoice_known (slug status : string) (e : InvoiceEntry) (w : TelegramWebApp.t) :
  slug <> "" -> invoices w !! slug = Some e ->
  onInvoiceClosed consumer (Some slug) status w =
    afterCall (callOptional consumer (inv_callback e) [AString status]
                 (invoice_taken slug w))
      (fun w2 =>
         done_ (receiveWebViewEvent "invoiceClosed"
                  (InvoiceClosedData (inv_url e) status) w2)).
Proof.
  intros Hs Hm. unfold onInvoiceClosed, Invoices.has, Invoices.remove, invoice_taken.
  cbn [truthy_opt default snd]. unfold Datatypes.id.
  apply truthy_true in Hs. rewrite Hs, Hm. reflexivity.
Qed.

(** A call of an optional consumer function followed by the emission of an
    event, case by case. *)
Lemma call_then_emit (cb : option handle) (args : list jsarg) (eventType : string)
    (params : event_params) (w : TelegramWebApp.t) :
  afterCall (callOptional consumer cb args w)
    (fun w2 => done_ (receiveWebViewEvent eventType params w2))
  = match cb with
    | None => (receiveWebViewEvent eventType params w, None)
    | Some f =>
        match consumer f args (log (Call f args) w) with
        | (w', None) => (receiveWebViewEvent eventType params w', None)
        | (w', Some e) => (w', Some e)
        end
    end.
Proof.
  destruct cb as [f|]; [|reflexivity].
  unfold callOptional, callConsumer, afterCall.
  now destruct (consumer f args _) as [w' [e|]].
Qed.

End PendingFacts.

(** C7.  A [clipboard_text_received] event whose request id is missing,
    empty or not in the registry, and an [invoice_closed] event whose slug is
    missing, empty or not in the registry, change nothing and throw nothing,
    whatever the consumer functions do.  A response that matches an entry
    first removes the entry and then calls the stored consumer function: the
    orchestrator the function is handed no longer has the id.  When the
    function returns, the application event is emitted; when it throws, its
    error leaves the handler and nothing is emitted; either way the entry is
    gone.  So, unless a consumer function has registered the same id again,
    the same response delivered a second time finds no entry and is ignored,
    and the stored function was called once. *)
Theorem pending_response_exactly_once :
  forall consumer : handle -> list jsarg -> TelegramWebApp.t -> ran TelegramWebApp.t,
  (forall (id data : option string) (w : TelegramWebApp.t),
     truthy_opt id = false \/ TelegramWebApp.clipboard w !! default "" id = None ->
     TelegramWebApp.onClipboardTextReceived consumer id data w = (w, None))
  /\ (forall (slug : option string) (status : string) (w : TelegramWebApp.t),
        truthy_opt slug = false \/ TelegramWebApp.invoices w !! default "" slug = None ->
        TelegramWebApp.onInvoiceClosed consumer slug status w = (w, None))
  /\ (forall (id : string) (data : option string) (cb : option handle)
             (w : TelegramWebApp.t),
        id <> "" -> TelegramWebApp.clipboard w !! id = Some cb ->
        TelegramWebApp.clipboard (clipboard_taken id w) !! id = None
        /\ TelegramWebApp.trace (clipboard_taken id w) = TelegramWebApp.trace w
        /\ TelegramWebApp.onClipboardTextReceived consumer (Some id) data w
           = match cb with
             | None =>
                 (TelegramWebApp.receiveWebViewEvent "clipboardTextReceived"
                    (TelegramWebApp.ClipboardData data) (clipboard_taken id w), None)
             | Some f =>
                 match consumer f [TelegramWebApp.arg_of_data data]
                         (TelegramWebApp.log
                            (TelegramWebApp.Call f [TelegramWebApp.arg_of_data data])
                            (clipboard_taken id w)) with
                 | (w', None) =>
                     (TelegramWebApp.receiveWebViewEvent "clipboardTextReceived"
                        (TelegramWebApp.ClipboardData data) w', None)
                 | (w', Some e) => (w', Some e)
                 end
             end
        /\ ((forall (f : handle) (args : list jsarg) (w' : TelegramWebApp.t),
               TelegramWebApp.clipboard w' !! id = None ->
               TelegramWebApp.clipboard (fst (consumer f args w')) !! id = None) ->
            exists (w1 : TelegramWebApp.t) (r : option error),
              TelegramWebApp.onClipboardTextReceived consumer (Some id) data w = (w1, r)
              /\ TelegramWebApp.clipboard w1 !! id = None
              /\ forall data' : option string,
                   TelegramWebApp.onClipboardTextReceived consumer (Some id) data' w1
                   = (w1, None)))
  /\ (forall (slug status : string) (e : TelegramWebApp.InvoiceEntry)
             (w : TelegramWebApp.t),
        slug <> "" -> TelegramWebApp.invoices w !! slug = Some e ->
        TelegramWebApp.invoices (invoice_taken slug w) !! slug = None
        /\ TelegramWebApp.trace (invoice_taken slug w) = TelegramWebApp.trace w
        /\ TelegramWebApp.onInvoiceClosed consumer (Some slug) status w
           = match TelegramWebApp.inv_callback e with
             | None =>
                 (TelegramWebApp.receiveWebViewEvent "invoiceClosed"
                    (TelegramWebApp.InvoiceClosedData (TelegramWebApp.inv_url e) status)
                    (invoice_taken slug w), None)
             | Some f =>
                 match consumer f [AString status]
                         (TelegramWebApp.log (TelegramWebApp.Call f [AString status])
                            (invoice_taken slug w)) with
                 | (w', None) =>
                     (TelegramWebApp.receiveWebViewEvent "invoiceClosed"
                        (TelegramWebApp.InvoiceClosedData (TelegramWebApp.inv_url e)
                           status) w', None)
                 | (w', Some err) => (w', Some err)
                 end
             end
        /\ ((forall (f : handle) (args : list jsarg) (w' : TelegramWebApp.t),
               TelegramWebApp.invoices w' !! slug = None ->
               TelegramWebApp.invoices (fst (consumer f args w')) !! slug = None) ->
            exists (w1 : TelegramWebApp.t) (r : option error),
              TelegramWebApp.onInvoiceClosed consumer (Some slug) status w = (w1, r)
              /\ TelegramWebApp.invoices w1 !! slug = None
              /\ forall status' : string,
                   TelegramWebApp.onInvoiceClosed consumer (Some slug) status' w1
                   = (w1, None))).
Proof.
  intros consumer. repeat apply conj.
  - apply clipboard_unknown.
  - apply invoice_unknown.
  - intros id data cb w Hid Hm.
    assert (Hgone : TelegramWebApp.clipboard (clipboard_taken id w) !! id = None).
    { cbn. unfold TelegramWebApp.Clipboard.removeRequest. apply lookup_delete_eq. }
    split; [exact Hgone|]. split; [reflexivity|].
    rewrite (clipboard_known consumer id data cb w Hid Hm), call_then_emit.
    split; [reflexivity|].
    intros Hkeep.
    assert (K : forall w1 r,
              match cb with
              | None =>
                  (TelegramWebApp.receiveWebViewEvent "clipboardTextReceived"
                     (TelegramWebApp.ClipboardData data) (clipboard_taken id w), None)
              | Some f =>
                  match consumer f [TelegramWebApp.arg_of_data data]
                          (TelegramWebApp.log
                             (TelegramWebApp.Call f [TelegramWebApp.arg_of_data data])
                             (clipboard_taken id w)) with
                  | (w', None) =>
                      (TelegramWebApp.receiveWebViewEvent "clipboardTextReceived"
                         (TelegramWebApp.ClipboardData data) w', None)
                  | (w', Some e) => (w', Some e)
                  end
              end = (w1, r) ->
              TelegramWebApp.clipboard w1 !! id = None).
    { intros w1 r. destruct cb as [f|].
      - pose proof (Hkeep f [TelegramWebApp.arg_of_data data]
                      (TelegramWebApp.log
                         (TelegramWebApp.Call f [TelegramWebApp.arg_of_data data])
                         (clipboard_taken id w)) Hgone) as Hk.
        destruct (consumer f _ _) as [w' [e|]]; cbn [fst] in Hk;
          intros [= <- _]; exact Hk.
      - intros [= <- _]. exact Hgone. }
    match goal with |- exists w1 r, ?x = _ /\ _ => destruct x as [w1 r] eqn:E end.
    exists w1, r. split; [reflexivity|]. split; [now apply (K w1 r)|].
    intros data'. apply clipboard_unknown. right. now apply (K w1 r).
  - intros slug status e w Hs Hm.
    assert (Hgone : TelegramWebApp.invoices (invoice_taken slug w) !! slug = None).
    { cbn. apply lookup_delete_eq. }
    split; [exact Hgone|]. split; [reflexivity|].
    rewrite (invoice_known consumer slug status e w Hs Hm), call_then_emit.
    split; [reflexivity|].
    intros Hkeep.
    assert (K : forall w1 r,
              match TelegramWebApp.inv_callback e with
              | None =>
                  (TelegramWebApp.receiveWebViewEvent "invoiceClosed"
                     (TelegramWebApp.InvoiceClosedData (TelegramWebApp.inv_url e) status)
                     (invoice_taken slug w), None)
              | Some f =>
                  match consumer f [AString status]
                          (TelegramWebApp.log (TelegramWebApp.Call f [AString status])
                             (invoice_taken slug w)) with
                  | (w', None) =>
                      (TelegramWebApp.receiveWebViewEvent "invoiceClosed"
                         (TelegramWebApp.InvoiceClosedData (TelegramWebApp.inv_url e)
                            status) w', None)
                  | (w', Some err) => (w', Some err)
                  end
              end = (w1, r) ->
              TelegramWebApp.invoices w1 !! slug = None).
    { intros w1 r. destruct (TelegramWebApp.inv_callback e) as [f|].
      - pose proof (Hkeep f [AString status]
                      (TelegramWebApp.log (TelegramWebApp.Call f [AString status])
                         (invoice_taken slug w)) Hgone) as Hk.
        destruct (consumer f _ _) as [w' [err|]]; cbn [fst] in Hk;
          intros [= <- _]; exact Hk.
      - intros [= <- _]. exact Hgone. }
    match goal with |- exists w1 r, ?x = _ /\ _ => destruct x as [w1 r] eqn:E end.
    exists w1, r. split; [reflexivity|]. split; [now apply (K w1 r)|].
    intros status'. apply invoice_unknown. right. now apply (K w1 r).
Qed.

(** One pending clipboard request whose function throws, answered twice: the
    function is called once, its error leaves the handler, nothing is
    emitted, and the second response is ignored. *)
Lemma pending_response_exactly_once_witness :
  let w := {| TelegramWebApp.version := "6.4";
              TelegramWebApp.tgWebAppBotInline := false;
              TelegramWebApp.popup := Popup.initial;
              TelegramWebApp.invoices := ∅;
              TelegramWebApp.clipboard := {[ "req1" := Some "boom" ]};
              TelegramWebApp.trace := [] |} in
  exists (w1 : TelegramWebApp.t) (r : option error),
    TelegramWebApp.onClipboardTextReceived sample_consumer (Some "req1") (Some "text") w
    = (w1, r)
    /\ r = Some (Error "boom")
    /\ TelegramWebApp.trace w1 = [TelegramWebApp.Call "boom" [AString "text"]]
    /\ TelegramWebApp.clipboard w1 !! "req1" = None
    /\ TelegramWebApp.onClipboardTextReceived sample_consumer (Some "req1")
         (Some "again") w1
       = (w1, None).
Proof.
  intros w.
  destruct (pending_response_exactly_once sample_consumer) as (_ & _ & H & _).
  destruct (H "req1" (Some "text") (Some "boom") w) as (_ & _ & E & K).
  - discriminate.
  - apply lookup_singleton_eq.
  - destruct K as (w1 & r & E1 & G & R).
    + intros f args w' Hw'. unfold sample_consumer.
      destruct (String.eqb f "boom"); [exact Hw'|].
      destruct (String.eqb f "again"); [|exact Hw'].
      unfold TelegramWebApp.showAlert.
      now rewrite (proj2 (showPopup_registries _ _ _ _)).
    + exists w1, r. split; [exact E1|].
      rewrite E in E1. injection E1 as <- <-.
      split; [reflexivity|]. split; [reflexivity|]. split; [exact G | apply R].
Defined.

Section OpenInvoiceFacts.
Import JS TelegramWebApp.

(** The legacy [WebApp.openInvoice] does check the version: below 6.1 it
    throws and neither stores an entry nor posts, and once the url is an
    invoice url the error is the unsupported-method one. *)
Lemma legacy_openInvoice_version_gate (parseURL : string -> option WebApp.URL)
    (url : string) (cb : option handle) (w : WebApp.t) :
  VersionGate.versionAtLeast (WebApp.webAppVersion w) "6.1" = false ->
  (exists e, WebApp.openInvoice parseURL url cb w = (w, Some e))
  /\ (forall (u : WebApp.URL) (slug : string),
        parseURL url = Some u ->
        WebApp.protocol u = "http:" \/ WebApp.protocol u = "https:" ->
        WebApp.hostname u = "t.me" ->
        WebApp.matchInvoicePath (WebApp.pathname u) = Some slug ->
        WebApp.openInvoice parseURL url cb w
        = (w, Some (Error "WebAppMethodUnsupported"))).
Proof.
  intros Hv. unfold WebApp.openInvoice, threw. split.
  - destruct (parseURL url) as [u|]; [|eauto].
    destruct (_ || _); [eauto|]. rewrite Hv. cbn [negb]. eauto.
  - intros u slug -> Hp Hh Hm. rewrite Hh, Hm.
    assert (Hs : truthy_opt (Some slug) = true).
    { unfold WebApp.matchInvoicePath in Hm.
      destruct (WebApp.stripPrefix "/" (WebApp.pathname u)); [|discriminate].
      destruct (match WebApp.stripPrefix "$" s with
                | Some r => Some r
                | None => WebApp.stripPrefix "invoice/" s
                end) as [t|]; [|discriminate].
      destruct (truthy t) eqn:Et; [|discriminate].
      destruct (WebApp.allSlugChars t); [|discriminate].
      cbn in Hm. injection Hm as <-. exact Et. }
    rewrite Hs. cbn [has_key negb orb String.eqb Ascii.eqb].
    destruct Hp as [-> | ->]; cbn; now rewrite Hv.
Qed.

End OpenInvoiceFacts.

(** C8.  [TelegramWebApp.openInvoice], which carries the comment
    "TODO: version 6.1+", does not consult the version: whenever
    [Invoices.create] yields a slug for the url, the entry is stored and
    [web_app_open_invoice] is posted, also when the current version is below
    6.1, and no error is thrown. *)
Theorem openInvoice_ignores_version_gate :
  forall (create : gmap string TelegramWebApp.InvoiceEntry -> string -> result string)
         (url slug : string) (cb : option handle) (w : TelegramWebApp.t),
    TelegramWebApp.isSuitableTo (TelegramWebApp.version w) "6.1" = false ->
    create (TelegramWebApp.invoices w) url = Ok slug ->
    exists w1 : TelegramWebApp.t,
      TelegramWebApp.openInvoice create url cb w = (w1, None)
      /\ TelegramWebApp.trace w1
         = (TelegramWebApp.trace w
            ++ [TelegramWebApp.Post "web_app_open_invoice"
                  (TelegramWebApp.SlugData slug)])%list
      /\ TelegramWebApp.invoices w1 !! slug
         = Some {| TelegramWebApp.inv_url := url; TelegramWebApp.inv_callback := cb |}.
Proof.
  intros create url slug cb w _ Hc.
  unfold TelegramWebApp.openInvoice. rewrite Hc.
  eexists. split; [reflexivity|]. split; [reflexivity|].
  cbn. unfold TelegramWebApp.Invoices.save. apply lookup_insert_eq.
Qed.

(** Version 6.0, the url of an invoice, and a registry that names it "abc". *)
Lemma openInvoice_ignores_version_gate_witness :
  let w := {| TelegramWebApp.version := "6.0";
              TelegramWebApp.tgWebAppBotInline := false;
              TelegramWebApp.popup := Popup.initial;
              TelegramWebApp.invoices := ∅;
              TelegramWebApp.clipboard := ∅;
              TelegramWebApp.trace := [] |} in
  TelegramWebApp.isSuitableTo (TelegramWebApp.version w) "6.1" = false
  /\ exists w1 : TelegramWebApp.t,
       TelegramWebApp.openInvoice (fun _ _ => Ok "abc") "https://t.me/$abc" None w
       = (w1, None)
       /\ TelegramWebApp.trace w1
          = [TelegramWebApp.Post "web_app_open_invoice" (TelegramWebApp.SlugData "abc")]
       /\ TelegramWebApp.invoices w1 !! "abc"
          = Some {| TelegramWebApp.inv_url := "https://t.me/$abc";
                    TelegramWebApp.inv_callback := None |}.
Proof.
  intros w. split; [vm_compute; reflexivity|].
  apply (openInvoice_ignores_version_gate (fun _ _ => Ok "abc")
           "https://t.me/$abc" "abc" None w).
  - vm_compute. reflexivity.
  - reflexivity.
Defined.

Section InlineQueryFacts.
Import JS TelegramWebApp.

Lemma existsb_eqb_elem_of (x : string) (l : list string) :
  existsb (String.eqb x) l = true <-> x ∈ l.
Proof.
  rewrite existsb_exists. split.
  - intros (y & Hy & E). apply String.eqb_eq in E. subst y.
    now apply list_elem_of_In.
  - intros H. exists x. split; [now apply list_elem_of_In | apply String.eqb_refl].
Qed.

(** [uniq_from seen l] keeps, in order, the first occurrence of every
    element of [l] that is not in [seen]. *)
Lemma uniq_from_spec (l : list string) :
  forall seen : list string,
    NoDup (uniq_from seen l)
    /\ (forall x, x ∈ uniq_from seen l <-> x ∈ l /\ x ∉ seen)
    /\ sublist (uniq_from seen l) l.
Proof.
  induction l as [|a l IH]; intros seen.
  - cbn. split; [constructor|]. split; [|constructor].
    intros x. rewrite elem_of_nil. tauto.
  - cbn [uniq_from].
    destruct (existsb (String.eqb a) seen) eqn:Ea.
    + apply existsb_eqb_elem_of in Ea.
      destruct (IH seen) as (Hn & He & Hs).
      split; [exact Hn|]. split; [|now apply sublist_cons].
      intros x. rewrite He, elem_of_cons. split; [tauto|].
      intros [[->|Hx] Hns]; [contradiction | tauto].
    + assert (Hna : a ∉ seen).
      { intros H. apply existsb_eqb_elem_of in H. congruence. }
      destruct (IH (a :: seen)) as (Hn & He & Hs).
      split; [|split; [|now apply sublist_skip]].
      * apply NoDup_cons. split; [|exact Hn].
        rewrite He, elem_of_cons. tauto.
      * intros x. rewrite !elem_of_cons, He, elem_of_cons.
        destruct (decide (x = a)) as [->|Hne]; tauto.
Qed.

Lemma uniq_spec (l : list string) :
  NoDup (uniq l) /\ (forall x, x ∈ uniq l <-> x ∈ l) /\ sublist (uniq l) l.
Proof.
  destruct (uniq_from_spec l []) as (Hn & He & Hs).
  split; [exact Hn|]. split; [|exact Hs].
  intros x. rewrite (He x), elem_of_nil. tauto.
Qed.

Lemma checkChats_valid (chats : list string) :
  Forall (fun chat => chat ∈ VALID_CHAT_TYPES) chats -> checkChats chats = Ok tt.
Proof.
  induction 1 as [|chat chats Hc _ IH]; [reflexivity|].
  cbn [checkChats]. apply existsb_eqb_elem_of in Hc. now rewrite Hc.
Qed.

End InlineQueryFacts.

(** C10, as the claim states it, fails: with version 6.7, inline mode on and
    no chat types, a query of 257 characters is refused as an invalid query
    before the chat types are looked at. *)
Lemma switchInlineQuery_long_query_counterexample :
  let w := {| TelegramWebApp.version := "6.7";
              TelegramWebApp.tgWebAppBotInline := true;
              TelegramWebApp.popup := Popup.initial;
              TelegramWebApp.invoices := ∅;
              TelegramWebApp.clipboard := ∅;
              TelegramWebApp.trace := [] |} in
  TelegramWebApp.isSuitableTo (TelegramWebApp.version w) "6.7" = true
  /\ TelegramWebApp.tgWebAppBotInline w = true
  /\ TelegramWebApp.switchInlineQuery (JS.repeat_ "q" 257)
       TelegramWebApp.ChatTypesNull w
     = (w, Some (Error "WebAppInlineQueryInvalid"))
  /\ snd (TelegramWebApp.switchInlineQuery (JS.repeat_ "q" 257)
            TelegramWebApp.ChatTypesNull w)
     <> Some (Error "WebAppInlineChooseChatTypesInvalid").
Proof.
  intros w. repeat apply conj.
  - vm_compute. reflexivity.
  - reflexivity.
  - vm_compute. reflexivity.
  - vm_compute. discriminate.
Qed.

(** C10, amended.  With a version of at least 6.7 and inline mode on,
    [switchInlineQuery] called without chat types (omitted, [undefined] or
    [null]) always throws and posts nothing: the invalid-chat-types error
    when the trimmed query has at most 256 characters, the invalid-query
    error when it is longer.  When an array of valid chat types is supplied
    with such a query, the event is posted with the trimmed query and the
    chat types without duplicates, each kept at its first occurrence. *)
Theorem switchInlineQuery_chat_types_mandatory :
  forall (query : string) (w : TelegramWebApp.t),
    TelegramWebApp.isSuitableTo (TelegramWebApp.version w) "6.7" = true ->
    TelegramWebApp.tgWebAppBotInline w = true ->
    (forall ct : TelegramWebApp.ChatTypesArg,
       ct = TelegramWebApp.ChatTypesUndefined \/ ct = TelegramWebApp.ChatTypesNull ->
       TelegramWebApp.switchInlineQuery query ct w
       = (w, Some (Error (if 256 <? JS.len (JS.trim query)
                          then "WebAppInlineQueryInvalid"
                          else "WebAppInlineChooseChatTypesInvalid"))))
    /\ (forall l : list string,
          JS.len (JS.trim query) <= 256 ->
          Forall (fun chat => chat ∈ TelegramWebApp.VALID_CHAT_TYPES) l ->
          TelegramWebApp.switchInlineQuery query (TelegramWebApp.ChatTypesArray l) w
          = (TelegramWebApp.log
               (TelegramWebApp.Post "web_app_switch_inline_query"
                  (TelegramWebApp.InlineQueryData (JS.trim query)
                     (TelegramWebApp.uniq l))) w, None)
          /\ NoDup (TelegramWebApp.uniq l)
          /\ (forall x, x ∈ TelegramWebApp.uniq l <-> x ∈ l)
          /\ sublist (TelegramWebApp.uniq l) l).
Proof.
  intros query w Hv Hi. split.
  - intros ct Hct. unfold TelegramWebApp.switchInlineQuery.
    rewrite Hv, Hi. cbn [negb]. unfold TelegramWebApp.MAX_INLINE_QUERY_LENGTH.
    destruct (256 <? JS.len (JS.trim query)); [reflexivity|].
    now destruct Hct as [-> | ->].
  - intros l Hl Hvalid.
    destruct (uniq_spec l) as (Hn & He & Hs).
    split; [|split; [exact Hn | split; [exact He | exact Hs]]].
    unfold TelegramWebApp.switchInlineQuery.
    rewrite Hv, Hi. cbn [negb]. unfold TelegramWebApp.MAX_INLINE_QUERY_LENGTH.
    destruct (Z.ltb_spec 256 (JS.len (JS.trim query))); [lia|].
    rewrite checkChats_valid; [reflexivity|].
    apply Forall_forall. intros x Hx. apply He in Hx.
    rewrite Forall_forall in Hvalid. now apply Hvalid.
Qed.

(** No chat types, and then a list with a repeated chat type. *)
Lemma switchInlineQuery_chat_types_mandatory_witness :
  let w := {| TelegramWebApp.version := "6.7";
              TelegramWebApp.tgWebAppBotInline := true;
              TelegramWebApp.popup := Popup.initial;
              TelegramWebApp.invoices := ∅;
              TelegramWebApp.clipboard := ∅;
              TelegramWebApp.trace := [] |} in
  TelegramWebApp.switchInlineQuery " cats " TelegramWebApp.ChatTypesUndefined w
  = (w, Some (Error "WebAppInlineChooseChatTypesInvalid"))
  /\ TelegramWebApp.switchInlineQuery " cats "
       (TelegramWebApp.ChatTypesArray ["users"; "bots"; "users"]) w
     = (TelegramWebApp.log
          (TelegramWebApp.Post "web_app_switch_inline_query"
             (TelegramWebApp.InlineQueryData "cats" ["users"; "bots"])) w, None).
Proof.
  intros w.
  destruct (switchInlineQuery_chat_types_mandatory " cats " w) as [H1 H2].
  - vm_compute. reflexivity.
  - reflexivity.
  - split.
    + apply (H1 TelegramWebApp.ChatTypesUndefined). left. reflexivity.
    + apply (H2 ["users"; "bots"; "users"]).
      * vm_compute. discriminate.
      * repeat constructor.
Defined.

(* ===================================================================== *)
(** * Further properties                                                  *)
(* ===================================================================== *)

(** ** The version gate as an order *)

Section VersionOrder.
Import JS VersionGate.

Lemma num_compare_refl (a : number) : Units.num_compare a a = Eq.
Proof. destruct a; cbn; try reflexivity. apply Z.compare_refl. Qed.

Lemma num_compare_antisym (a b : number) :
  a <> NaN -> b <> NaN ->
  Units.num_compare b a = CompOpp (Units.num_compare a b).
Proof.
  intros Ha Hb. destruct a, b; try congruence; try reflexivity.
  cbn. apply Z.compare_antisym.
Qed.

Lemma num_compare_eq (a b : number) :
  a <> NaN -> b <> NaN -> Units.num_compare a b = Eq -> a = b.
Proof.
  intros Ha Hb. destruct a, b; try congruence; cbn; try discriminate.
  intros H. apply Z.compare_eq in H. now subst.
Qed.

Lemma num_compare_gt_trans (a b c : number) :
  a <> NaN -> b <> NaN -> c <> NaN ->
  Units.num_compare a b = Gt -> Units.num_compare b c = Gt ->
  Units.num_compare a c = Gt.
Proof.
  intros Ha Hb Hc. destruct a, b, c; try congruence; cbn; try discriminate;
    try reflexivity.
  rewrite !Z.compare_gt_iff. lia.
Qed.

(** Lists of numbers without [NaN]. *)
Lemma parse_no_NaN (s : string) : Forall (fun n => n <> NaN) (Units.parse s).
Proof.
  unfold Units.parse. apply Forall_forall. intros n Hn.
  apply list_elem_of_In, in_map_iff in Hn as (u & <- & _).
  unfold Units.component. destruct (parseInt u); discriminate.
Qed.

Lemma pad_no_NaN (n : nat) (l : list number) :
  Forall (fun x => x <> NaN) l -> Forall (fun x => x <> NaN) (Units.pad n l).
Proof.
  intros H. unfold Units.pad. apply Forall_app. split; [exact H|].
  apply Forall_replicate. discriminate.
Qed.

Lemma length_pad (n : nat) (l : list number) :
  (length l <= n)%nat -> length (Units.pad n l) = n.
Proof.
  intros H. unfold Units.pad. rewrite length_app, length_replicate. lia.
Qed.

Lemma lex_compare_refl (a : list number) : Units.lex_compare a a = Eq.
Proof.
  induction a as [|x a IH]; [reflexivity|].
  cbn. now rewrite num_compare_refl.
Qed.

Lemma lex_compare_antisym (a : list number) :
  forall b : list number,
    Forall (fun x => x <> NaN) a -> Forall (fun x => x <> NaN) b ->
    Units.lex_compare b a = CompOpp (Units.lex_compare a b).
Proof.
  induction a as [|x a IH]; intros [|y b] Ha Hb; try reflexivity.
  apply Forall_cons in Ha as [Hx Ha]. apply Forall_cons in Hb as [Hy Hb].
  cbn. rewrite (num_compare_antisym x y Hx Hy).
  destruct (Units.num_compare x y); cbn; try reflexivity. now apply IH.
Qed.

Lemma lex_compare_ge_trans (a : list number) :
  forall b c : list number,
    length a = length b -> length b = length c ->
    Forall (fun x => x <> NaN) a -> Forall (fun x => x <> NaN) b ->
    Forall (fun x => x <> NaN) c ->
    Units.lex_compare a b <> Lt -> Units.lex_compare b c <> Lt ->
    Units.lex_compare a c <> Lt.
Proof.
  induction a as [|x a IH]; intros [|y b] [|z c] L1 L2 Ha Hb Hc H1 H2;
    try discriminate; try (cbn; congruence).
  apply Forall_cons in Ha as [Hx Ha]. apply Forall_cons in Hb as [Hy Hb].
  apply Forall_cons in Hc as [Hz Hc].
  cbn in H1, H2 |- *.
  destruct (Units.num_compare x y) eqn:Exy; [| congruence |].
  - apply num_compare_eq in Exy; [|assumption|assumption]. subst y.
    destruct (Units.num_compare x z) eqn:Exz; [| congruence | discriminate].
    apply (IH b c); auto.
  - destruct (Units.num_compare y z) eqn:Eyz; [| congruence |].
    + apply num_compare_eq in Eyz; [|assumption|assumption]. subst z.
      rewrite Exy. discriminate.
    + rewrite (num_compare_gt_trans x y z Hx Hy Hz Exy Eyz). discriminate.
Qed.

(** Padding further on both sides does not change the comparison. *)
Lemma lex_compare_app_zero (a : list number) :
  forall (b : list number) (k : nat),
    length a = length b ->
    Units.lex_compare (a ++ replicate k (Fin 0))%list (b ++ replicate k (Fin 0))%list
    = Units.lex_compare a b.
Proof.
  induction a as [|x a IH]; intros [|y b] k L; try discriminate.
  - cbn [app]. apply lex_compare_refl.
  - cbn. destruct (Units.num_compare x y); try reflexivity.
    apply IH. cbn in L. lia.
Qed.

Lemma pad_more (n m : nat) (l : list number) :
  (length l <= m)%nat -> (m <= n)%nat ->
  Units.pad n l = (Units.pad m l ++ replicate (n - m) (Fin 0))%list.
Proof.
  intros H1 H2. unfold Units.pad. rewrite <- app_assoc. f_equal.
  rewrite <- replicate_add. f_equal. lia.
Qed.

Lemma compare_at (n : nat) (cur target : string) :
  (length (Units.parse cur) <= n)%nat -> (length (Units.parse target) <= n)%nat ->
  Units.lex_compare (Units.pad n (Units.parse cur)) (Units.pad n (Units.parse target))
  = Units.compare cur target.
Proof.
  intros H1 H2. unfold Units.compare. cbv zeta.
  set (m := Nat.max _ _).
  rewrite (pad_more n m (Units.parse cur)) by lia.
  rewrite (pad_more n m (Units.parse target)) by lia.
  apply lex_compare_app_zero. rewrite !length_pad; lia.
Qed.

Lemma versionCompare_any (v1 v2 : option string) :
  versionCompare v1 v2 =
  Z_of_comparison (Units.compare (default "" v1) (default "" v2)).
Proof. apply (versionCompare_compare (default "" v1) (default "" v2)). Qed.

End VersionOrder.

(** X1.  [#versionCompare] returns -1, 0 or 1, swapping its arguments
    negates the result, and a version compares equal to itself; an argument
    that is missing or not a string behaves as the empty string. *)
Theorem versionCompare_antisymmetric :
  forall v1 v2 : option string,
    (VersionGate.versionCompare v1 v2 = -1 \/ VersionGate.versionCompare v1 v2 = 0
     \/ VersionGate.versionCompare v1 v2 = 1)
    /\ VersionGate.versionCompare v2 v1 = - VersionGate.versionCompare v1 v2
    /\ VersionGate.versionCompare v1 v1 = 0
    /\ VersionGate.versionCompare None v2 = VersionGate.versionCompare (Some "") v2.
Proof.
  intros v1 v2. rewrite !versionCompare_any.
  split; [destruct (Units.compare _ _); cbn; tauto|].
  split; [|split; [|reflexivity]].
  - unfold Units.compare. cbv zeta. rewrite (Nat.max_comm (length (Units.parse (default "" v2)))).
    rewrite lex_compare_antisym by (apply pad_no_NaN, parse_no_NaN).
    now destruct (Units.lex_compare _ _).
  - unfold Units.compare. cbv zeta. now rewrite lex_compare_refl.
Qed.

(** X2.  The version gate is a total preorder: [#versionAtLeast] is
    reflexive, any two versions are comparable, and it is transitive, so a
    version that passes the gate of "6.7" also passes every gate that "6.7"
    passes ("6.4", "6.2", "6.1"). *)
Theorem versionAtLeast_total_preorder :
  (forall a : string, VersionGate.versionAtLeast a a = true)
  /\ (forall a b : string,
        VersionGate.versionAtLeast a b = true \/ VersionGate.versionAtLeast b a = true)
  /\ (forall a b c : string,
        VersionGate.versionAtLeast a b = true ->
        VersionGate.versionAtLeast b c = true ->
        VersionGate.versionAtLeast a c = true)
  /\ (forall v : string,
        VersionGate.versionAtLeast v "6.7" = true ->
        VersionGate.versionAtLeast v "6.4" = true
        /\ VersionGate.versionAtLeast v "6.2" = true
        /\ VersionGate.versionAtLeast v "6.1" = true).
Proof.
  assert (Hge : forall a b, VersionGate.versionAtLeast a b = true
                            <-> Units.compare a b <> Lt).
  { intros a b. unfold VersionGate.versionAtLeast. rewrite versionCompare_compare.
    destruct (Units.compare a b); cbn; split; congruence. }
  assert (Htrans : forall a b c : string,
            VersionGate.versionAtLeast a b = true ->
            VersionGate.versionAtLeast b c = true ->
            VersionGate.versionAtLeast a c = true).
  { intros a b c H1 H2. apply Hge in H1, H2. apply Hge.
    set (n := Nat.max (length (Units.parse a))
                (Nat.max (length (Units.parse b)) (length (Units.parse c)))).
    rewrite <- (compare_at n) in H1, H2 |- * by lia.
    apply (lex_compare_ge_trans _ (Units.pad n (Units.parse b)));
      try (apply pad_no_NaN, parse_no_NaN); try assumption;
      rewrite !length_pad; lia. }
  split; [|split; [|split]].
  - intros a. apply Hge. unfold Units.compare. cbv zeta.
    now rewrite lex_compare_refl.
  - intros a b. rewrite !Hge.
    assert (E : Units.compare b a = CompOpp (Units.compare a b)).
    { unfold Units.compare. cbv zeta.
      rewrite (Nat.max_comm (length (Units.parse b))).
      apply lex_compare_antisym; apply pad_no_NaN, parse_no_NaN. }
    rewrite E. destruct (Units.compare a b); cbn; [left|right|left]; congruence.
  - exact Htrans.
  - intros v Hv. repeat split; apply (Htrans v "6.7"); try exact Hv;
      vm_compute; reflexivity.
Qed.

(** A version with three components against the gates. *)
Lemma versionAtLeast_total_preorder_witness :
  VersionGate.versionAtLeast "7.0.1" "6.4" = true
  /\ VersionGate.versionAtLeast "7.0.1" "6.2" = true
  /\ VersionGate.versionAtLeast "7.0.1" "6.1" = true.
Proof.
  destruct versionAtLeast_total_preorder as (_ & _ & _ & H).
  apply (H "7.0.1"). vm_compute. reflexivity.
Defined.

(** ** #byteLength and sendData of the legacy class *)

Section ByteLengthFacts.
Import WebAppData.

Lemma byteLength_loop_done (data : list Z) (fuel : nat) (i size : Z) :
  i < 0 -> byteLength_loop data fuel i size = size.
Proof.
  intros Hi. destruct fuel; [reflexivity|]. cbn [byteLength_loop].
  destruct (Z.ltb_spec i 0); [reflexivity | lia].
Qed.

Lemma size_step (code size : Z) :
  (if (127 <? code) && (code <=? 2047) then size + 1
   else if (2047 <? code) && (code <=? 65535) then size + 2 else size)
  = size + unit_extra code.
Proof.
  unfold unit_extra.
  destruct ((127 <? code) && (code <=? 2047)); [reflexivity|].
  destruct ((2047 <? code) && (code <=? 65535)); lia.
Qed.

(** The loop, started below index [k], adds what [extra_rev] computes on the
    first [k] units read backwards. *)
Lemma byteLength_loop_extra (data : list Z) (fuel : nat) :
  forall (k : nat) (size : Z),
    (k <= length data)%nat -> (k <= fuel)%nat ->
    byteLength_loop data fuel (Z.of_nat k - 1) size
    = size + extra_rev (rev (take k data)).
Proof.
  induction fuel as [|fuel IH]; intros k size Hk Hf.
  - assert (k = 0%nat) as -> by lia. rewrite take_0. cbn [byteLength_loop rev extra_rev]. lia.
  - destruct k as [|k].
    + rewrite byteLength_loop_done by lia. rewrite take_0. cbn [rev extra_rev]. lia.
    + cbn [byteLength_loop].
      destruct (Z.ltb_spec (Z.of_nat (S k) - 1) 0); [lia|].
      replace (Z.of_nat (S k) - 1) with (Z.of_nat k) by lia.
      destruct (lookup_lt_is_Some_2 data k ltac:(lia)) as [code Hcode].
      assert (Hnth : charCodeAt data (Z.of_nat k) = code).
      { unfold charCodeAt. rewrite Nat2Z.id. rewrite nth_lookup, Hcode. reflexivity. }
      rewrite Hnth, size_step, (take_S_r data k code Hcode), rev_app_distr.
      cbn [rev app extra_rev]. fold (isTrail code).
      destruct (isTrail code).
      * destruct k as [|k'].
        -- rewrite byteLength_loop_done by lia. rewrite take_0. cbn [rev]. lia.
        -- replace (Z.of_nat (S k') - 1 - 1) with (Z.of_nat k' - 1) by lia.
           rewrite IH by lia.
           destruct (lookup_lt_is_Some_2 data k' ltac:(lia)) as [c' Hc'].
           rewrite (take_S_r data k' c' Hc'), rev_app_distr. cbn [rev app]. lia.
      * rewrite IH by lia. lia.
Qed.

Lemma byteLength_extra (data : list Z) :
  byteLength None data = Z.of_nat (length data) + extra_rev (rev data).
Proof.
  unfold byteLength. cbv zeta.
  rewrite byteLength_loop_extra by lia. now rewrite firstn_all.
Qed.

Lemma unit_extra_range (c : Z) : 0 <= unit_extra c <= 2.
Proof.
  unfold unit_extra.
  destruct ((127 <? c) && (c <=? 2047)); [lia|].
  destruct ((2047 <? c) && (c <=? 65535)); lia.
Qed.

Lemma extra_rev_range (n : nat) :
  forall r : list Z, (length r <= n)%nat ->
  0 <= extra_rev r <= 2 * Z.of_nat (length r).
Proof.
  induction n as [|n IH]; intros [|c rest] Hl; cbn [extra_rev length] in *; try lia.
  pose proof (unit_extra_range c) as Hc.
  destruct (isTrail c).
  - destruct rest as [|c' rest']; [lia|].
    cbn [length] in *. pose proof (IH rest' ltac:(lia)). lia.
  - pose proof (IH rest ltac:(lia)). lia.
Qed.

Lemma extra_rev_ascii (r : list Z) :
  Forall (fun c => c <= 127) r -> extra_rev r = 0.
Proof.
  induction 1 as [|c r Hc _ IH]; [reflexivity|].
  cbn [extra_rev]. unfold unit_extra, isTrail.
  destruct (Z.ltb_spec 127 c); [lia|]. cbn [andb].
  destruct (Z.ltb_spec 2047 c); [lia|]. cbn [andb].
  destruct (Z.leb_spec 56320 c); [lia|]. cbn [andb]. lia.
Qed.

End ByteLengthFacts.

(** The fallback loop counts between one and three bytes for every code
    unit. *)
Lemma byteLength_range (data : list Z) :
  Z.of_nat (length data) <= WebAppData.byteLength None data
                         <= 3 * Z.of_nat (length data)
  /\ (Forall (fun c => c <= 127) data ->
      WebAppData.byteLength None data = Z.of_nat (length data)).
Proof.
  rewrite byteLength_extra.
  pose proof (extra_rev_range (length (rev data)) (rev data) (Nat.le_refl _)) as H.
  rewrite length_rev in H. split; [lia|].
  intros Ha. rewrite extra_rev_ascii; [lia|].
  apply Forall_forall. intros c Hc. rewrite Forall_forall in Ha.
  apply Ha. apply list_elem_of_In. apply list_elem_of_In, in_rev in Hc.
  exact Hc.
Qed.

(** X3.  Without [Blob], [#byteLength] is at least the number of code units
    of the string and at most three times that number, and for a string
    whose code units are all at most 0x7f it is exactly that number. *)
Theorem byteLength_bounds :
  forall data : list Z,
    Z.of_nat (length data) <= WebAppData.byteLength None data
                           <= 3 * Z.of_nat (length data)
    /\ (Forall (fun c => c <= 127) data ->
        WebAppData.byteLength None data = Z.of_nat (length data)).
Proof.
  intros data. rewrite byteLength_extra.
  pose proof (extra_rev_range (length (rev data)) (rev data) (Nat.le_refl _)) as H.
  rewrite length_rev in H. split; [lia|].
  intros Ha. rewrite extra_rev_ascii; [lia|].
  apply Forall_forall. intros c Hc. rewrite Forall_forall in Ha.
  apply Ha. apply list_elem_of_In. apply list_elem_of_In, in_rev in Hc.
  exact Hc.
Qed.

(** The bytes of "hi!". *)
Lemma byteLength_bounds_witness :
  WebAppData.byteLength None [104; 105; 33] = 3.
Proof.
  apply (proj2 (byteLength_bounds [104; 105; 33])).
  repeat constructor; lia.
Defined.

Section Utf8Facts.
Import WebAppData.

Lemma extra_rev_app (n : nat) :
  forall r x : list Z, (length r <= n)%nat ->
  well_formed_rev r = true ->
  extra_rev (r ++ x) = extra_rev r + extra_rev x.
Proof.
  induction n as [|n IH]; intros [|c rest] x Hl Hw; cbn [length] in Hl;
    try (cbn; lia).
  cbn [app extra_rev well_formed_rev] in *.
  destruct (isTrail c).
  - destruct rest as [|h rest']; [discriminate|].
    apply andb_true_iff in Hw as [_ Hw]. cbn [app length] in *.
    rewrite (IH rest' x) by (lia || assumption). lia.
  - rewrite !andb_true_iff in Hw. destruct Hw as [_ Hw].
    rewrite (IH rest x) by (lia || assumption). lia.
Qed.

Lemma well_formed_rev_app (n : nat) :
  forall r x : list Z, (length r <= n)%nat ->
  well_formed_rev r = true -> well_formed_rev x = true ->
  well_formed_rev (r ++ x) = true.
Proof.
  induction n as [|n IH]; intros [|c rest] x Hl Hr Hx; cbn [length] in Hl;
    try assumption; try lia.
  cbn [app well_formed_rev] in *.
  destruct (isTrail c).
  - destruct rest as [|h rest']; [discriminate|].
    apply andb_true_iff in Hr as [Hh Hr]. cbn [app length] in *.
    rewrite Hh. cbn [andb]. apply IH; (lia || assumption).
  - rewrite !andb_true_iff in Hr. destruct Hr as [[[H1 H2] H3] Hr].
    rewrite H1, H2, H3. cbn [andb]. apply IH; (lia || assumption).
Qed.

Lemma lead_not_trail (c : Z) : isLead c = true -> isTrail c = false.
Proof.
  unfold isLead, isTrail. rewrite andb_true_iff, andb_false_iff.
  rewrite !Z.leb_le, Z.leb_gt. lia.
Qed.

Lemma trail_not_lead (c : Z) : isTrail c = true -> isLead c = false.
Proof.
  unfold isLead, isTrail. rewrite andb_true_iff, andb_false_iff.
  rewrite !Z.leb_le, !Z.leb_gt. lia.
Qed.

Lemma unit_extra_trail (c : Z) : isTrail c = true -> unit_extra c = 2.
Proof.
  unfold isTrail, unit_extra. rewrite andb_true_iff, !Z.leb_le. intros [H1 H2].
  destruct (Z.ltb_spec 127 c); [|lia]. destruct (Z.leb_spec c 2047); [lia|].
  cbn [andb]. destruct (Z.ltb_spec 2047 c); [|lia].
  destruct (Z.leb_spec c 65535); [reflexivity | lia].
Qed.

Lemma utf8_bytes_unit (c : Z) :
  0 <= c <= 65535 -> utf8_bytes c = 1 + unit_extra c.
Proof.
  intros [H0 H1]. unfold utf8_bytes, unit_extra.
  destruct (Z.leb_spec c 127); destruct (Z.ltb_spec 127 c); try lia; cbn [andb].
  - destruct (Z.ltb_spec 2047 c); [lia | reflexivity].
  - destruct (Z.leb_spec c 2047); [reflexivity|]. cbn [andb].
    destruct (Z.ltb_spec 2047 c); [|lia].
    destruct (Z.leb_spec c 65535); [reflexivity | lia].
Qed.

(** On a well-formed string the backward loop and the forward decoding
    agree. *)
Lemma well_formed_extra (n : nat) :
  forall s : list Z, (length s <= n)%nat -> well_formed s = true ->
  well_formed_rev (rev s) = true
  /\ Z.of_nat (length s) + extra_rev (rev s) = utf8_length s.
Proof.
  induction n as [|n IH]; intros [|c rest] Hl Hw; cbn [length] in Hl;
    try (split; reflexivity); try lia.
  unfold utf8_length. cbn [well_formed codePoints rev] in *.
  destruct (isLead c) eqn:Elead.
  - destruct rest as [|t rest']; [discriminate|].
    apply andb_true_iff in Hw as [Ht Hw]. rewrite Ht.
    cbn [length rev] in *.
    destruct (IH rest' ltac:(lia) Hw) as [Hr He].
    rewrite <- app_assoc. cbn [app].
    assert (Hpair : well_formed_rev [t; c] = true).
    { cbn. now rewrite Ht, Elead. }
    split.
    + apply (well_formed_rev_app (length (rev rest'))); auto.
    + rewrite (extra_rev_app (length (rev rest'))) by auto.
      cbn [extra_rev fold_right]. rewrite Ht, (unit_extra_trail t Ht).
      fold (utf8_length rest'). rewrite <- He.
      assert (utf8_bytes (65536 + (c - 55296) * 1024 + (t - 56320)) = 4).
      { unfold isLead in Elead. unfold isTrail in Ht.
        rewrite andb_true_iff, !Z.leb_le in Elead, Ht.
        unfold utf8_bytes.
        destruct (Z.leb_spec (65536 + (c - 55296) * 1024 + (t - 56320)) 127); [lia|].
        destruct (Z.leb_spec (65536 + (c - 55296) * 1024 + (t - 56320)) 2047); [lia|].
        destruct (Z.leb_spec (65536 + (c - 55296) * 1024 + (t - 56320)) 65535);
          [lia | reflexivity]. }
      cbn [length]. lia.
  - rewrite !andb_true_iff in Hw. destruct Hw as [[[Htr H0] H1] Hw].
    apply negb_true_iff in Htr. rewrite Htr.
    apply Z.leb_le in H0, H1.
    destruct (IH rest ltac:(lia) Hw) as [Hr He].
    assert (Hone : well_formed_rev [c] = true).
    { cbn. rewrite Htr, Elead. cbn.
      destruct (Z.leb_spec 0 c); [|lia]. destruct (Z.leb_spec c 65535); [reflexivity|lia]. }
    split.
    + apply (well_formed_rev_app (length (rev rest))); auto.
    + rewrite (extra_rev_app (length (rev rest))) by auto.
      cbn [extra_rev fold_right]. rewrite Htr.
      fold (utf8_length rest). rewrite <- He, utf8_bytes_unit by lia.
      cbn [length]. lia.
Qed.

End Utf8Facts.

(** X4.  Without [Blob], [#byteLength] of a well-formed UTF-16 string (code
    units in range, surrogates in pairs) is the length of its UTF-8
    encoding: one to three bytes for a code point of the basic plane, four
    for a surrogate pair. *)
Theorem byteLength_utf8 :
  forall data : list Z,
    well_formed data = true ->
    WebAppData.byteLength None data = utf8_length data.
Proof.
  intros data Hw. rewrite byteLength_extra.
  now destruct (well_formed_extra (length data) data (Nat.le_refl _) Hw).
Qed.

(** "é", the euro sign and U+1F600: 2 + 3 + 4 bytes. *)
Lemma byteLength_utf8_witness :
  WebAppData.byteLength None [233; 8364; 55357; 56832] = 9.
Proof.
  rewrite (byteLength_utf8 [233; 8364; 55357; 56832]); reflexivity.
Defined.

(** X5.  How [#byteLength] grows with the string: a last code unit that is
    no trailing surrogate adds its own one to three bytes, and a last
    trailing surrogate adds four bytes for itself and the unit before it,
    whatever that unit is, because the loop skips it unseen; after "é"
    (two bytes) a lone trailing surrogate gives 4, not 5. *)
Theorem byteLength_snoc :
  (forall (s : list Z) (c : Z),
     isTrail c = false ->
     WebAppData.byteLength None (s ++ [c])
     = WebAppData.byteLength None s + 1 + unit_extra c)
  /\ (forall (s : list Z) (c t : Z),
        isTrail t = true ->
        WebAppData.byteLength None (s ++ [c; t]) = WebAppData.byteLength None s + 4)
  /\ WebAppData.byteLength None [233] = 2
  /\ WebAppData.byteLength None [233; 56320] = 4.
Proof.
  split; [|split; [|split; reflexivity]].
  - intros s c Hc. rewrite !byteLength_extra, rev_app_distr, length_app.
    cbn [rev app extra_rev length]. rewrite Hc. lia.
  - intros s c t Ht. rewrite !byteLength_extra, rev_app_distr, length_app.
    cbn [rev app extra_rev length]. rewrite Ht, (unit_extra_trail t Ht). lia.
Qed.

(** A surrogate pair appended to "a". *)
Lemma byteLength_snoc_witness :
  WebAppData.byteLength None ([97] ++ [55357; 56832])
  = WebAppData.byteLength None [97] + 4.
Proof.
  apply (proj1 (proj2 byteLength_snoc) [97] 55357 56832). reflexivity.
Defined.

(** X6.  What the legacy [sendData] lets through without [Blob]: missing or
    empty data is refused; data of more than 4096 code units is always
    refused and data of 1 to 1365 code units is always accepted; data of
    code units up to 0x7f is accepted exactly up to 4096 units; and whatever
    is accepted is posted unchanged, is not empty and measures at most 4096
    bytes. *)
Theorem sendData_thresholds :
  WebAppData.sendData None None = Throw (Error "WebAppDataInvalid")
  /\ WebAppData.sendData None (Some []) = Throw (Error "WebAppDataInvalid")
  /\ (forall d : list Z,
        (4096 < length d)%nat ->
        WebAppData.sendData None (Some d) = Throw (Error "WebAppDataInvalid"))
  /\ (forall d : list Z,
        (1 <= length d <= 1365)%nat -> WebAppData.sendData None (Some d) = Ok d)
  /\ (forall d : list Z,
        Forall (fun c => c <= 127) d -> (1 <= length d <= 4096)%nat ->
        WebAppData.sendData None (Some d) = Ok d)
  /\ (forall (blobSize : option Z) (data : option (list Z)) (d : list Z),
        WebAppData.sendData blobSize data = Ok d ->
        data = Some d /\ d <> []
        /\ WebAppData.byteLength blobSize d <= 4096).
Proof.
  split; [reflexivity|]. split; [reflexivity|].
  unfold WebAppData.sendData, WebAppData.MAXIMUM_BYTES_TO_SEND.
  split; [|split; [|split]].
  - intros d Hl. pose proof (proj1 (byteLength_range d)) as Hb.
    destruct (Z.eqb_spec (Z.of_nat (length d)) 0); [reflexivity|].
    destruct (Z.ltb_spec 4096 (WebAppData.byteLength None d)); [reflexivity | lia].
  - intros d Hl. pose proof (proj1 (byteLength_range d)) as Hb.
    destruct (Z.eqb_spec (Z.of_nat (length d)) 0); [lia|].
    destruct (Z.ltb_spec 4096 (WebAppData.byteLength None d)); [lia | reflexivity].
  - intros d Ha Hl. rewrite (proj2 (byteLength_range d) Ha).
    destruct (Z.eqb_spec (Z.of_nat (length d)) 0); [lia|].
    destruct (Z.ltb_spec 4096 (Z.of_nat (length d))); [lia | reflexivity].
  - intros blobSize [d'|] d; [|discriminate].
    destruct (Z.eqb_spec (Z.of_nat (length d')) 0) as [|Hn]; [discriminate|].
    destruct (Z.ltb_spec 4096 (WebAppData.byteLength blobSize d')); [discriminate|].
    intros [= <-]. split; [reflexivity|]. split; [|assumption].
    intros ->. now apply Hn.
Qed.

(** "hi!" goes through. *)
Lemma sendData_thresholds_witness :
  WebAppData.sendData None (Some [104; 105; 33]) = Ok [104; 105; 33].
Proof.
  destruct sendData_thresholds as (_ & _ & _ & H & _).
  apply (H [104; 105; 33]). cbn. lia.
Defined.

(** ** Trimming *)

Section TrimFacts.
Import JS.

Lemma trimEnd_cons (c : ascii) (s : string) :
  trimEnd (String c s) =
  match trimEnd s with
  | EmptyString => if isWhiteSpace c then EmptyString else String c EmptyString
  | t => String c t
  end.
Proof. reflexivity. Qed.

Lemma trimEnd_idempotent (s : string) : trimEnd (trimEnd s) = trimEnd s.
Proof.
  induction s as [|c s IH]; [reflexivity|].
  rewrite trimEnd_cons. destruct (trimEnd s) as [|d r] eqn:E.
  - destruct (isWhiteSpace c) eqn:W; [reflexivity|].
    rewrite trimEnd_cons. cbn [trimEnd]. now rewrite W.
  - rewrite trimEnd_cons, IH. reflexivity.
Qed.

Lemma trimEnd_head (c : ascii) (s : string) :
  isWhiteSpace c = false -> exists r, trimEnd (String c s) = String c r.
Proof.
  intros W. rewrite trimEnd_cons. destruct (trimEnd s); [rewrite W|]; eauto.
Qed.

Lemma trimStart_shape (s : string) :
  trimStart s = "" \/
  exists c r, trimStart s = String c r /\ isWhiteSpace c = false.
Proof.
  induction s as [|c s IH]; [now left|].
  cbn [trimStart]. destruct (isWhiteSpace c) eqn:W; [exact IH|].
  right. eauto.
Qed.

Lemma trim_idempotent (s : string) : trim (trim s) = trim s.
Proof.
  unfold trim. destruct (trimStart_shape s) as [E|(c & r & E & W)]; rewrite E.
  - reflexivity.
  - destruct (trimEnd_head c r W) as [r' Er]. rewrite Er.
    cbn [trimStart]. rewrite W, <- Er. apply trimEnd_idempotent.
Qed.

Lemma len_trimStart (s : string) : len (trimStart s) <= len s.
Proof.
  unfold len. induction s as [|c s IH]; [reflexivity|].
  cbn [trimStart]. destruct (isWhiteSpace c); cbn [String.length] in *; lia.
Qed.

Lemma len_trimEnd (s : string) : len (trimEnd s) <= len s.
Proof.
  unfold len. induction s as [|c s IH]; [reflexivity|].
  rewrite trimEnd_cons. destruct (trimEnd s).
  - destruct (isWhiteSpace c); cbn [String.length] in *; lia.
  - cbn [String.length] in *. lia.
Qed.

Lemma len_trim (s : string) : len (trim s) <= len s.
Proof.
  unfold trim. pose proof (len_trimEnd (trimStart s)). pose proof (len_trimStart s).
  lia.
Qed.

End TrimFacts.

(** ** Validated buttons and popups *)

Section ValidatedFacts.
Import JS PopupButton Popup.

(** What the validator returns passes the validator unchanged. *)
Lemma WebAppPopupButton_idempotent (cfg b : EventPopupButton) :
  WebAppPopupButton cfg = Ok b -> WebAppPopupButton b = Ok b.
Proof.
  rewrite !WebAppPopupButton_cases. cbv zeta.
  destruct (MAX_ID_LENGTH <? len (default "" (id cfg))) eqn:Ei; [discriminate|].
  destruct (includes VALID_BUTTON_TYPES (type cfg)) eqn:Ev; [|discriminate].
  cbn [negb].
  destruct (includes TYPES_WITH_REQUIRED_TEXT (type cfg)) eqn:Er; cbn [negb].
  - destruct (truthy (trim (default "" (text cfg)))) eqn:Et; [|discriminate].
    cbn [negb].
    destruct (MAX_TEXT_LENGTH <? len (trim (default "" (text cfg)))) eqn:El;
      [discriminate|].
    intros [= <-]. cbn [id type text].
    change (default "" (Some (default "" (id cfg)))) with (default "" (id cfg)).
    change (default "" (Some (trim (default "" (text cfg)))))
      with (trim (default "" (text cfg))).
    rewrite Ei, Ev, Er. cbn [negb]. rewrite trim_idempotent, Et, El. reflexivity.
  - intros [= <-]. cbn [id type text].
    change (default "" (Some (default "" (id cfg)))) with (default "" (id cfg)).
    rewrite Ei, Ev, Er. reflexivity.
Qed.

Lemma mapButtons_valid (l : list EventPopupButton) :
  forall ds : list EventPopupButton,
    mapButtons l = Ok ds ->
    length ds = length l /\ Forall valid_button ds
    /\ Forall2 (fun b d => WebAppPopupButton b = Ok d) l ds.
Proof.
  induction l as [|b l IH]; intros ds.
  - intros [= <-]. repeat split; constructor.
  - cbn [mapButtons]. destruct (WebAppPopupButton b) as [d|e] eqn:Eb; [|discriminate].
    cbn [bind]. destruct (mapButtons l) as [ds'|e]; [|discriminate].
    cbn [bind]. intros [= <-]. destruct (IH ds' eq_refl) as (Hl & Hv & H2).
    split; [cbn; lia|]. split; constructor; auto.
    now apply (WebAppPopupButton_idempotent b).
Qed.

Lemma fits_trim (bound : Z) (s : string) :
  trim s <> "" -> len (trim s) <= bound -> fits bound (Some (trim s)).
Proof. intros H1 H2. cbn. split; [exact H1|]. split; [apply trim_idempotent | exact H2]. Qed.

Lemma setTitle_validated (title : option string) (p r : Popup.t) :
  setTitle title p = Ok r -> validated (data_params p) ->
  validated (data_params r)
  /\ isOpened r = isOpened p /\ data_callback r = data_callback p
  /\ ev_message (data_params r) = ev_message (data_params p)
  /\ ev_buttons (data_params r) = ev_buttons (data_params p).
Proof.
  intros H (Vt & Vm & Vb). destruct title as [t|]; [|injection H as <-; repeat split; auto].
  rewrite setTitle_cases in H.
  destruct (truthy (trim t)) eqn:Et; cbn [negb] in H;
    [|injection H as <-; repeat split; auto].
  unfold MAX_TITLE_LENGTH in H.
  destruct (Z.ltb_spec 64 (len t)); [discriminate|].
  injection H as <-. cbn. repeat split; auto.
  - now apply truthy_true.
  - apply trim_idempotent.
  - pose proof (len_trim t). lia.
Qed.

Lemma setMessage_validated (message : option string) (p r : Popup.t) :
  setMessage message p = Ok r -> validated (data_params p) ->
  validated (data_params r)
  /\ isOpened r = isOpened p /\ data_callback r = data_callback p
  /\ is_Some (ev_message (data_params r))
  /\ ev_buttons (data_params r) = ev_buttons (data_params p).
Proof.
  intros H (Vt & Vm & Vb). rewrite setMessage_cases in H. cbv zeta in H.
  destruct (truthy (trim (default "" message))) eqn:Et; cbn [negb] in H;
    [|discriminate].
  unfold MAX_MESSAGE_LENGTH in H.
  destruct (Z.ltb_spec 256 (len (trim (default "" message)))); [discriminate|].
  injection H as <-. cbn.
  repeat split; eauto using trim_idempotent; now apply truthy_true.
Qed.

Lemma valid_synthesized (rnd : nat -> ascii) : valid_button (synthesized rnd).
Proof. apply WebAppPopupButton_synthesized. Qed.

Lemma setButtons_validated (rnd : nat -> ascii) (b : ButtonsArg) (p r : Popup.t) :
  setButtons rnd b p = Ok r -> validated (data_params p) ->
  validated (data_params r)
  /\ isOpened r = isOpened p /\ data_callback r = data_callback p
  /\ ev_message (data_params r) = ev_message (data_params p)
  /\ is_Some (ev_buttons (data_params r)).
Proof.
  intros H (Vt & Vm & Vb). destruct b as [| |l].
  - rewrite setButtons_NoButtons in H. injection H as <-. cbn.
    repeat split; auto; try lia; eauto.
    constructor; [apply valid_synthesized | constructor].
  - discriminate.
  - unfold setButtons, MIN_BUTTONS, MAX_BUTTONS in H.
    destruct (Z.ltb_spec (Z.of_nat (length l)) 1); [discriminate|].
    destruct (Z.ltb_spec 3 (Z.of_nat (length l))); [discriminate|].
    destruct (mapButtons l) as [ds|e] eqn:Em; [|discriminate].
    cbn [bind] in H. injection H as <-.
    destruct (mapButtons_valid l ds Em) as (Hl & Hv & _). cbn.
    repeat split; auto; try lia; eauto.
Qed.

(** One call of [open] keeps the invariant, whatever its outcome. *)
Lemma open_keeps_inv (rnd : nat -> ascii) (v : jsvalue PopupParams)
    (cb : option PopupCallback) (p p' : Popup.t) (o : option error) :
  popup_inv p -> Popup.open rnd v cb p = (p', o) -> popup_inv p'.
Proof.
  intros I. pose proof I as (V & Ho & Hc). unfold Popup.open, threw.
  destruct (destructure v) as [ps|e]; [|intros [= <- _]; exact I].
  unfold open_with, andThen, threw, done_.
  destruct (isOpened p) eqn:Eo; [intros [= <- _]; exact I|].
  destruct (Hc eq_refl) as [Hb Hcb].
  destruct (setTitle (title ps) p) as [p1|e1] eqn:E1;
    [|intros [= <- _]; exact I].
  destruct (setTitle_validated _ _ _ E1 V) as (V1 & O1 & C1 & M1 & B1).
  destruct (setMessage (message ps) p1) as [p2|e2] eqn:E2.
  2:{ intros [= <- _]. split; [exact V1|]. split; [congruence|].
      intros _. split; congruence. }
  destruct (setMessage_validated _ _ _ E2 V1) as (V2 & O2 & C2 & M2 & B2).
  destruct (setButtons rnd (buttons ps) p2) as [p3|e3] eqn:E3.
  2:{ intros [= <- _]. split; [exact V2|]. split; [congruence|].
      intros _. split; congruence. }
  destruct (setButtons_validated _ _ _ _ E3 V2) as (V3 & O3 & C3 & M3 & B3).
  intros [= <- _]. unfold popup_inv. cbn [isOpened data_params data_callback].
  rewrite !setCallback_params. split; [exact V3|]. split; [|discriminate].
  intros _. split; [|exact B3]. rewrite M3. exact M2.
Qed.

Lemma any_run_inv (p : Popup.t) : any_run p -> popup_inv p.
Proof.
  assert (I0 : popup_inv Popup.initial).
  { repeat split; cbn; auto; discriminate. }
  induction 1 as [|p _ _|p p' rnd v cb o _ IH Hopen].
  - exact I0.
  - exact I0.
  - exact (open_keeps_inv rnd v cb p p' o IH Hopen).
Qed.

End ValidatedFacts.

(** X7.  The button validator is idempotent: a button it returned is
    returned unchanged when validated again (as [Popup.#setButtons] does
    with the buttons [showConfirm] built), because the text it stores is
    already trimmed. *)
Theorem WebAppPopupButton_fixpoint :
  forall cfg b : PopupButton.EventPopupButton,
    PopupButton.WebAppPopupButton cfg = Ok b ->
    PopupButton.WebAppPopupButton b = Ok b
    /\ (forall x, PopupButton.text b = Some x -> JS.trim x = x /\ x <> "").
Proof.
  intros cfg b H. split; [now apply (WebAppPopupButton_idempotent cfg)|].
  intros x Hx. revert H. rewrite WebAppPopupButton_cases. cbv zeta.
  destruct (_ <? _); [discriminate|].
  destruct (negb (PopupButton.includes PopupButton.VALID_BUTTON_TYPES _));
    [discriminate|].
  destruct (negb (PopupButton.includes PopupButton.TYPES_WITH_REQUIRED_TEXT _)).
  { intros [= <-]. discriminate. }
  destruct (truthy _) eqn:Et; [|discriminate]. cbn [negb].
  destruct (_ <? _); [discriminate|].
  intros [= <-]. cbn in Hx. injection Hx as <-.
  split; [apply trim_idempotent | now apply truthy_true].
Qed.

(** A destructive button with blanks around its text. *)
Lemma WebAppPopupButton_fixpoint_witness :
  PopupButton.WebAppPopupButton
    {| PopupButton.id := Some "del"; PopupButton.type := Some "destructive";
       PopupButton.text := Some "Delete" |}
  = Ok {| PopupButton.id := Some "del"; PopupButton.type := Some "destructive";
          PopupButton.text := Some "Delete" |}.
Proof.
  apply (WebAppPopupButton_fixpoint
           {| PopupButton.id := Some "del"; PopupButton.type := Some "destructive";
              PopupButton.text := Some "  Delete " |}).
  vm_compute. reflexivity.
Defined.

(** X8.  Whatever calls of [open] and [close] a popup went through, failed
    ones included: a title it holds is trimmed, not empty and at most 64
    long, a message it holds is trimmed, not empty and at most 256 long, and
    buttons it holds are 1 to 3 buttons that pass the validator; an open
    popup has a message and buttons; a closed popup has neither buttons nor
    a callback. *)
Theorem Popup_holds_validated_data :
  forall p : Popup.t,
    any_run p ->
    validated (Popup.data_params p)
    /\ (Popup.isOpened p = true ->
        is_Some (Popup.ev_message (Popup.data_params p))
        /\ is_Some (Popup.ev_buttons (Popup.data_params p)))
    /\ (Popup.isOpened p = false ->
        Popup.ev_buttons (Popup.data_params p) = None
        /\ Popup.callback p = None).
Proof. intros p H. exact (any_run_inv p H). Qed.

(** The popup left by a refused [open] after an accepted title. *)
Lemma Popup_holds_validated_data_witness :
  let p := fst (Popup.open (fun _ => "a"%char)
                  (JS.VObject {| Popup.title := Some " Sale ";
                                 Popup.message := Some "  ";
                                 Popup.buttons := Popup.NoButtons |})
                  (Some (UserCallback "cb")) Popup.initial) in
  validated (Popup.data_params p)
  /\ (Popup.isOpened p = true ->
      is_Some (Popup.ev_message (Popup.data_params p))
      /\ is_Some (Popup.ev_buttons (Popup.data_params p)))
  /\ (Popup.isOpened p = false ->
      Popup.ev_buttons (Popup.data_params p) = None
      /\ Popup.callback p = None).
Proof.
  intros p. apply Popup_holds_validated_data.
  eapply any_open; [apply any_initial|].
  apply surjective_pairing.
Defined.

(** ** showPopup and the events that answer it *)

Section ShowPopupMore.
Import JS PopupButton Popup TelegramWebApp.

Lemma setButtons_isOpened (rnd : nat -> ascii) (b : ButtonsArg) (p r : Popup.t) :
  setButtons rnd b p = Ok r -> isOpened r = isOpened p.
Proof.
  destruct b as [| |l].
  - rewrite setButtons_NoButtons. now intros [= <-].
  - discriminate.
  - unfold setButtons.
    destruct (_ <? _); [discriminate|]. destruct (_ <? _); [discriminate|].
    destruct (mapButtons l); [|discriminate]. cbn [bind]. now intros [= <-].
Qed.

(** A call of [open] that throws leaves the popup closed or open as it
    was. *)
Lemma open_throw_isOpened (rnd : nat -> ascii) (v : jsvalue PopupParams)
    (cb : option PopupCallback) (p p' : Popup.t) (e : error) :
  Popup.open rnd v cb p = (p', Some e) -> isOpened p' = isOpened p.
Proof.
  unfold Popup.open, threw.
  destruct (destructure v) as [ps|e']; [|now intros [= <- _]].
  unfold open_with, andThen, threw, done_.
  destruct (isOpened p) eqn:Eo; [discriminate|].
  destruct (setTitle (title ps) p) as [p1|e1] eqn:E1; [|now intros [= <- _]].
  apply setTitle_isOpened in E1.
  destruct (setMessage (message ps) p1) as [p2|e2] eqn:E2;
    [|intros [= <- _]; congruence].
  apply setMessage_isOpened in E2.
  destruct (setButtons rnd (buttons ps) p2) as [p3|e3] eqn:E3;
    [discriminate | intros [= <- _]; congruence].
Qed.

Lemma params_of_open (p : Popup.t) :
  is_Some (ev_message (data_params p)) -> Popup.params p = Some (data_params p).
Proof.
  intros [m Hm]. unfold Popup.params. rewrite Hm. cbn [has_key].
  now rewrite orb_true_r.
Qed.

Lemma onPopupClosed_open
    (consumer : handle -> list jsarg -> TelegramWebApp.t -> ran TelegramWebApp.t)
    (button_id : option string) (w : TelegramWebApp.t) :
  isOpened (popup w) = true ->
  onPopupClosed consumer button_id w =
    afterCall
      (if truthy_opt button_id
       then callPopupCallback consumer (Popup.callback (popup w)) (default "" button_id)
              (with_popup Popup.initial w)
       else done_ (with_popup Popup.initial w))
      (fun w2 =>
         done_ (receiveWebViewEvent "popupClosed" (PopupClosedData button_id) w2)).
Proof. intros Ho. unfold onPopupClosed. now rewrite Ho. Qed.

(** The call of a consumer function followed by the emission of an event,
    case by case. *)
Lemma callConsumer_then_emit
    (consumer : handle -> list jsarg -> TelegramWebApp.t -> ran TelegramWebApp.t)
    (f : handle) (args : list jsarg) (eventType : string)
    (params : event_params) (w : TelegramWebApp.t) :
  afterCall (callConsumer consumer f args w)
    (fun w2 => done_ (receiveWebViewEvent eventType params w2))
  = match consumer f args (log (Call f args) w) with
    | (w', None) => (receiveWebViewEvent eventType params w', None)
    | (w', Some e) => (w', Some e)
    end.
Proof.
  unfold callConsumer, afterCall. now destruct (consumer f args _) as [w' [e|]].
Qed.

Lemma showAlert_opens (rnd : nat -> ascii) (message : string)
    (cb : option handle) (w : TelegramWebApp.t) :
  isSuitableTo (version w) "6.2" = true ->
  isOpened (popup w) = false ->
  trim message <> "" ->
  len (trim message) <= 256 ->
  let d := {| ev_title := ev_title (data_params (popup w));
              ev_message := Some (trim message);
              ev_buttons := Some [synthesized rnd] |} in
  showAlert rnd message cb w =
    (log (Post "web_app_open_popup" (PopupData d))
       (with_popup {| isOpened := true; data_params := d;
                      data_callback := Some (CallbackWithoutID cb) |} w), None).
Proof.
  intros Hv Hc Hm Hl d.
  unfold showAlert, showPopup. rewrite Hv, Hc. cbn [negb].
  change (paramsGuard _) with false. cbv iota.
  rewrite open_closed by exact Hc.
  cbn [Popup.title Popup.message Popup.buttons].
  change (setTitle None (popup w)) with (Ok (popup w)). cbv iota.
  rewrite setMessage_cases. cbv zeta.
  change (default "" (Some message)) with message.
  apply truthy_true in Hm. rewrite Hm. cbn [negb].
  unfold MAX_MESSAGE_LENGTH.
  destruct (Z.ltb_spec 256 (len (trim message))); [lia|].
  rewrite setButtons_NoButtons.
  unfold Popup.params, store_buttons, set_params, setCallback.
  cbn [data_params ev_title ev_message ev_buttons data_callback isOpened has_key].
  subst d. destruct (ev_title (data_params (popup w))); reflexivity.
Qed.

End ShowPopupMore.

(** X9.  [showPopup] posts only what was validated.  From a popup that
    holds validated data, a call that throws posts nothing and leaves the
    popup closed or open as it was; a call that returns started from a closed
    popup, leaves it open, and has posted exactly one [web_app_open_popup],
    carrying the parameters the popup now holds: a message and 1 to 3 valid
    buttons, every text within its bound.  The registries of pending
    requests are never touched. *)
Theorem showPopup_posts_validated :
  forall (rnd : nat -> ascii) (v : JS.jsvalue Popup.PopupParams)
         (cb : option PopupCallback) (w w' : TelegramWebApp.t) (o : option error),
    popup_inv (TelegramWebApp.popup w) ->
    TelegramWebApp.showPopup rnd v cb w = (w', o) ->
    popup_inv (TelegramWebApp.popup w')
    /\ TelegramWebApp.invoices w' = TelegramWebApp.invoices w
    /\ TelegramWebApp.clipboard w' = TelegramWebApp.clipboard w
    /\ match o with
       | Some _ =>
           TelegramWebApp.trace w' = TelegramWebApp.trace w
           /\ Popup.isOpened (TelegramWebApp.popup w')
              = Popup.isOpened (TelegramWebApp.popup w)
       | None =>
           Popup.isOpened (TelegramWebApp.popup w) = false
           /\ Popup.isOpened (TelegramWebApp.popup w') = true
           /\ TelegramWebApp.trace w'
              = (TelegramWebApp.trace w
                 ++ [TelegramWebApp.Post "web_app_open_popup"
                       (TelegramWebApp.PopupData
                          (Popup.data_params (TelegramWebApp.popup w')))])%list
           /\ validated (Popup.data_params (TelegramWebApp.popup w'))
           /\ is_Some (Popup.ev_message (Popup.data_params (TelegramWebApp.popup w')))
           /\ is_Some (Popup.ev_buttons (Popup.data_params (TelegramWebApp.popup w')))
       end.
Proof.
  intros rnd v cb w w' o I. unfold TelegramWebApp.showPopup, threw, done_.
  destruct (negb _);
    [intros [= <- <-]; split; [exact I | repeat split]|].
  destruct (Popup.isOpened (TelegramWebApp.popup w)) eqn:Eo;
    [intros [= <- <-]; split; [exact I | repeat split; assumption]|].
  destruct (TelegramWebApp.paramsGuard v);
    [intros [= <- <-]; split; [exact I | repeat split; assumption]|].
  destruct (Popup.open rnd v cb (TelegramWebApp.popup w)) as [p [e|]] eqn:Eopen.
  - intros [= <- <-]. cbn.
    pose proof (open_keeps_inv _ _ _ _ _ _ I Eopen) as I'.
    apply open_throw_isOpened in Eopen.
    split; [exact I'|]. repeat split. congruence.
  - intros [= <- <-].
    pose proof (open_keeps_inv _ _ _ _ _ _ I Eopen) as I'.
    destruct (open_returns _ _ _ _ _ Eopen) as [[Ht _]|[_ Ho]]; [congruence|].
    pose proof I' as (V & Hopen & Hclosed). destruct (Hopen Ho) as [Hm Hb].
    rewrite (params_of_open p Hm). cbn.
    split; [exact I'|]. split; [reflexivity|]. split; [reflexivity|].
    split; [reflexivity|]. split; [exact Ho|]. split; [reflexivity|].
    split; [exact V|]. split; [exact Hm | exact Hb].
Qed.

(** A popup with a title, shown by a fresh orchestrator. *)
Lemma showPopup_posts_validated_witness :
  let w := {| TelegramWebApp.version := "6.4";
              TelegramWebApp.tgWebAppBotInline := false;
              TelegramWebApp.popup := Popup.initial;
              TelegramWebApp.invoices := ∅;
              TelegramWebApp.clipboard := ∅;
              TelegramWebApp.trace := [] |} in
  let r := TelegramWebApp.showPopup (fun _ => "a"%char)
             (JS.VObject {| Popup.title := Some " Sale ";
                            Popup.message := Some "Half price";
                            Popup.buttons := Popup.NoButtons |}) None w in
  popup_inv (TelegramWebApp.popup (fst r))
  /\ TelegramWebApp.invoices (fst r) = TelegramWebApp.invoices w
  /\ TelegramWebApp.clipboard (fst r) = TelegramWebApp.clipboard w
  /\ match snd r with
     | Some _ =>
         TelegramWebApp.trace (fst r) = TelegramWebApp.trace w
         /\ Popup.isOpened (TelegramWebApp.popup (fst r))
            = Popup.isOpened (TelegramWebApp.popup w)
     | None =>
         Popup.isOpened (TelegramWebApp.popup w) = false
         /\ Popup.isOpened (TelegramWebApp.popup (fst r)) = true
         /\ TelegramWebApp.trace (fst r)
            = (TelegramWebApp.trace w
               ++ [TelegramWebApp.Post "web_app_open_popup"
                     (TelegramWebApp.PopupData
                        (Popup.data_params (TelegramWebApp.popup (fst r))))])%list
         /\ validated (Popup.data_params (TelegramWebApp.popup (fst r)))
         /\ is_Some (Popup.ev_message
                       (Popup.data_params (TelegramWebApp.popup (fst r))))
         /\ is_Some (Popup.ev_buttons
                       (Popup.data_params (TelegramWebApp.popup (fst r))))
     end.
Proof.
  intros w r.
  apply (showPopup_posts_validated (fun _ => "a"%char)
           (JS.VObject {| Popup.title := Some " Sale ";
                          Popup.message := Some "Half price";
                          Popup.buttons := Popup.NoButtons |}) None w).
  - apply any_run_inv, any_initial.
  - apply surjective_pairing.
Defined.

(** X10.  The life of a popup in the orchestrator.  While a popup is open
    (and the version supports popups) [showPopup] throws
    [WebAppPopupOpenedError] and changes nothing.  A [popup_closed] event
    that finds no open popup is dropped without emitting anything.  One that
    finds an open popup first resets it to the initial state.  Without a
    button id, or with the empty one, or when the popup holds no callback,
    it then emits [popupClosed] with the id as received and calls no
    consumer function.  With a non-empty id and the consumer's own callback
    [f], it calls [f(id)] on the orchestrator whose popup is already reset;
    when [f] returns, [popupClosed] is emitted; when [f] throws, its error
    leaves the handler and no [popupClosed] is emitted. *)
Theorem popup_closed_lifecycle :
  (forall (rnd : nat -> ascii) (v : JS.jsvalue Popup.PopupParams)
          (cb : option PopupCallback) (w : TelegramWebApp.t),
     TelegramWebApp.isSuitableTo (TelegramWebApp.version w) "6.2" = true ->
     Popup.isOpened (TelegramWebApp.popup w) = true ->
     TelegramWebApp.showPopup rnd v cb w = (w, Some WebAppPopupOpenedError))
  /\ (forall (consumer : handle -> list jsarg -> TelegramWebApp.t -> ran TelegramWebApp.t)
             (button_id : option string) (w : TelegramWebApp.t),
        Popup.isOpened (TelegramWebApp.popup w) = false ->
        TelegramWebApp.onPopupClosed consumer button_id w = (w, None))
  /\ (forall (consumer : handle -> list jsarg -> TelegramWebApp.t -> ran TelegramWebApp.t)
             (button_id : option string) (w : TelegramWebApp.t),
        Popup.isOpened (TelegramWebApp.popup w) = true ->
        truthy_opt button_id = false \/ Popup.callback (TelegramWebApp.popup w) = None ->
        TelegramWebApp.onPopupClosed consumer button_id w
        = (TelegramWebApp.receiveWebViewEvent "popupClosed"
             (TelegramWebApp.PopupClosedData button_id)
             (TelegramWebApp.with_popup Popup.initial w), None))
  /\ (forall (consumer : handle -> list jsarg -> TelegramWebApp.t -> ran TelegramWebApp.t)
             (f : handle) (id : string) (w : TelegramWebApp.t),
        Popup.isOpened (TelegramWebApp.popup w) = true ->
        id <> "" ->
        Popup.callback (TelegramWebApp.popup w) = Some (UserCallback f) ->
        TelegramWebApp.onPopupClosed consumer (Some id) w
        = match consumer f [AString id]
                  (TelegramWebApp.log (TelegramWebApp.Call f [AString id])
                     (TelegramWebApp.with_popup Popup.initial w)) with
          | (w', None) =>
              (TelegramWebApp.receiveWebViewEvent "popupClosed"
                 (TelegramWebApp.PopupClosedData (Some id)) w', None)
          | (w', Some e) => (w', Some e)
          end).
Proof.
  split; [|split; [|split]].
  - intros rnd v cb w Hv Ho. unfold TelegramWebApp.showPopup. now rewrite Hv, Ho.
  - intros consumer button_id w Hc. unfold TelegramWebApp.onPopupClosed. now rewrite Hc.
  - intros consumer button_id w Ho H. rewrite onPopupClosed_open by exact Ho.
    destruct (truthy_opt button_id) eqn:Et; [|reflexivity].
    destruct H as [H|H]; [discriminate|]. now rewrite H.
  - intros consumer f id w Ho Hid Hcb. rewrite onPopupClosed_open by exact Ho.
    apply truthy_true in Hid. cbn [truthy_opt]. rewrite Hid, Hcb.
    apply callConsumer_then_emit.
Qed.

(** An open popup with the consumer's callback, closed by the button "yes":
    with a callback that returns, and with one that throws. *)
Lemma popup_closed_lifecycle_witness :
  let w := fun f : handle =>
           {| TelegramWebApp.version := "6.4";
              TelegramWebApp.tgWebAppBotInline := false;
              TelegramWebApp.popup :=
                {| Popup.isOpened := true;
                   Popup.data_params :=
                     {| Popup.ev_title := None; Popup.ev_message := Some "Go on?";
                        Popup.ev_buttons := None |};
                   Popup.data_callback := Some (UserCallback f) |};
              TelegramWebApp.invoices := ∅;
              TelegramWebApp.clipboard := ∅;
              TelegramWebApp.trace := [] |} in
  TelegramWebApp.showPopup (fun _ => "a"%char) JS.VNull None (w "cb")
  = (w "cb", Some WebAppPopupOpenedError)
  /\ (exists w' : TelegramWebApp.t,
        TelegramWebApp.onPopupClosed sample_consumer (Some "yes") (w "cb") = (w', None)
        /\ TelegramWebApp.popup w' = Popup.initial
        /\ TelegramWebApp.trace w'
           = [TelegramWebApp.Call "cb" [AString "yes"];
              TelegramWebApp.Emit "popupClosed"
                (TelegramWebApp.PopupClosedData (Some "yes"))])
  /\ (exists w' : TelegramWebApp.t,
        TelegramWebApp.onPopupClosed sample_consumer (Some "yes") (w "boom")
        = (w', Some (Error "boom"))
        /\ TelegramWebApp.popup w' = Popup.initial
        /\ TelegramWebApp.trace w' = [TelegramWebApp.Call "boom" [AString "yes"]]).
Proof.
  intros w. destruct popup_closed_lifecycle as (H1 & _ & _ & H4). split; [|split].
  - apply H1; [vm_compute; reflexivity | reflexivity].
  - eexists. split; [|split].
    + rewrite (H4 sample_consumer "cb" "yes" (w "cb") eq_refl);
        [reflexivity | discriminate | reflexivity].
    + reflexivity.
    + reflexivity.
  - eexists. split; [|split].
    + rewrite (H4 sample_consumer "boom" "yes" (w "boom") eq_refl);
        [reflexivity | discriminate | reflexivity].
    + reflexivity.
    + reflexivity.
Defined.

(** X11.  [showAlert(message, cb)] on a closed popup with an acceptable
    message opens it and posts one [web_app_open_popup] with the trimmed
    message and, as its only button, the generated close button, whose id
    has 5 characters.  When that popup is closed with a non-empty button id,
    that button's included, [cb] is called with no argument on the
    orchestrator whose popup is already reset; when [cb] returns,
    [popupClosed] is emitted, and when it throws, its error leaves the
    handler and nothing is emitted.  When the popup is closed without a
    button id, [cb] is not called and [popupClosed] is emitted. *)
Theorem showAlert_callback :
  forall (consumer : handle -> list jsarg -> TelegramWebApp.t -> ran TelegramWebApp.t)
         (rnd : nat -> ascii) (message : string) (cb : handle)
         (w : TelegramWebApp.t),
    TelegramWebApp.isSuitableTo (TelegramWebApp.version w) "6.2" = true ->
    Popup.isOpened (TelegramWebApp.popup w) = false ->
    JS.trim message <> "" ->
    JS.len (JS.trim message) <= 256 ->
    exists (w1 : TelegramWebApp.t) (d : Popup.OpenPopupEventData),
      TelegramWebApp.showAlert rnd message (Some cb) w = (w1, None)
      /\ Popup.isOpened (TelegramWebApp.popup w1) = true
      /\ TelegramWebApp.trace w1
         = (TelegramWebApp.trace w
            ++ [TelegramWebApp.Post "web_app_open_popup"
                  (TelegramWebApp.PopupData d)])%list
      /\ Popup.ev_message d = Some (JS.trim message)
      /\ Popup.ev_buttons d
         = Some [ {| PopupButton.id := Some (generateId 5 rnd);
                     PopupButton.type := Some "close";
                     PopupButton.text := None |} ]
      /\ String.length (generateId 5 rnd) = 5%nat
      /\ (forall id : string,
            id <> "" ->
            TelegramWebApp.onPopupClosed consumer (Some id) w1
            = match consumer cb []
                      (TelegramWebApp.log (TelegramWebApp.Call cb [])
                         (TelegramWebApp.with_popup Popup.initial w1)) with
              | (w', None) =>
                  (TelegramWebApp.receiveWebViewEvent "popupClosed"
                     (TelegramWebApp.PopupClosedData (Some id)) w', None)
              | (w', Some e) => (w', Some e)
              end)
      /\ TelegramWebApp.onPopupClosed consumer None w1
         = (TelegramWebApp.receiveWebViewEvent "popupClosed"
              (TelegramWebApp.PopupClosedData None)
              (TelegramWebApp.with_popup Popup.initial w1), None).
Proof.
  intros consumer rnd message cb w Hv Hc Hm Hl.
  eexists. eexists. split; [apply showAlert_opens; assumption|].
  split; [reflexivity|]. split; [reflexivity|]. split; [reflexivity|].
  split; [reflexivity|]. split; [apply generateId_length|].
  split.
  - intros id Hid. rewrite onPopupClosed_open by reflexivity.
    apply truthy_true in Hid. cbn [truthy_opt]. rewrite Hid.
    apply (callConsumer_then_emit consumer cb []).
  - reflexivity.
Qed.

(** An alert on a fresh orchestrator, closed by its button: with a function
    that returns and with one that throws. *)
Lemma showAlert_callback_witness :
  let w := {| TelegramWebApp.version := "6.2";
              TelegramWebApp.tgWebAppBotInline := false;
              TelegramWebApp.popup := Popup.initial;
              TelegramWebApp.invoices := ∅;
              TelegramWebApp.clipboard := ∅;
              TelegramWebApp.trace := [] |} in
  (exists w1 w2 : TelegramWebApp.t,
     TelegramWebApp.showAlert (fun _ => "k"%char) "Saved" (Some "cb") w = (w1, None)
     /\ TelegramWebApp.onPopupClosed sample_consumer (Some "kkkkk") w1 = (w2, None)
     /\ TelegramWebApp.trace w2
        = (TelegramWebApp.trace w1
           ++ [TelegramWebApp.Call "cb" [];
               TelegramWebApp.Emit "popupClosed"
                 (TelegramWebApp.PopupClosedData (Some "kkkkk"))])%list)
  /\ (exists w1 w2 : TelegramWebApp.t,
        TelegramWebApp.showAlert (fun _ => "k"%char) "Saved" (Some "boom") w = (w1, None)
        /\ TelegramWebApp.onPopupClosed sample_consumer (Some "kkkkk") w1
           = (w2, Some (Error "boom"))
        /\ TelegramWebApp.trace w2
           = (TelegramWebApp.trace w1 ++ [TelegramWebApp.Call "boom" []])%list).
Proof.
  intros w. split.
  - destruct (showAlert_callback sample_consumer (fun _ => "k"%char) "Saved" "cb" w)
      as (w1 & d & E & _ & _ & _ & _ & _ & T & _).
    + vm_compute. reflexivity.
    + reflexivity.
    + vm_compute. discriminate.
    + vm_compute. discriminate.
    + exists w1. eexists. split; [exact E|]. split.
      * rewrite (T "kkkkk") by discriminate. reflexivity.
      * cbn. now rewrite <- app_assoc.
  - destruct (showAlert_callback sample_consumer (fun _ => "k"%char) "Saved" "boom" w)
      as (w1 & d & E & _ & _ & _ & _ & _ & T & _).
    + vm_compute. reflexivity.
    + reflexivity.
    + vm_compute. discriminate.
    + vm_compute. discriminate.
    + exists w1. eexists. split; [exact E|]. split.
      * rewrite (T "kkkkk") by discriminate. reflexivity.
      * reflexivity.
Defined.

(** ** Requests and their responses *)

Section RoundTrips.
Import JS TelegramWebApp.

Lemma generateId_truthy (n : nat) (rnd : nat -> ascii) :
  (0 < n)%nat -> generateId n rnd <> "".
Proof.
  intros Hn E. pose proof (generateId_length n rnd) as L. rewrite E in L.
  cbn in L. lia.
Qed.

End RoundTrips.

(** X12.  [readTextFromClipboard] and its response.  Below version 6.4 the
    call throws [WebAppMethodUnsupportedError] and changes nothing.  From
    6.4 on it stores the callback under a generated id of 16 characters,
    whatever was waiting under that id before, and posts
    [web_app_read_text_from_clipboard] with the id.  The
    [clipboard_text_received] event with the same id then removes the entry
    and calls the callback with the text (or null) on an orchestrator whose
    registry is the one before the call, the id apart; when the callback
    returns, [clipboardTextReceived] is emitted, and when it throws, its
    error leaves the handler and nothing is emitted. *)
Theorem readTextFromClipboard_round_trip :
  (forall (rnd : nat -> ascii) (cb : option handle) (w : TelegramWebApp.t),
     TelegramWebApp.isSuitableTo (TelegramWebApp.version w) "6.4" = false ->
     TelegramWebApp.readTextFromClipboard rnd cb w
     = (w, Some (WebAppMethodUnsupportedError "readTextFromClipboard")))
  /\ (forall (consumer : handle -> list jsarg -> TelegramWebApp.t -> ran TelegramWebApp.t)
             (rnd : nat -> ascii) (cb : handle) (data : option string)
             (w : TelegramWebApp.t),
        TelegramWebApp.isSuitableTo (TelegramWebApp.version w) "6.4" = true ->
        exists w1 wc : TelegramWebApp.t,
          TelegramWebApp.readTextFromClipboard rnd (Some cb) w = (w1, None)
          /\ String.length (generateId 16 rnd) = 16%nat
          /\ TelegramWebApp.clipboard w1 !! generateId 16 rnd = Some (Some cb)
          /\ TelegramWebApp.trace w1
             = (TelegramWebApp.trace w
                ++ [TelegramWebApp.Post "web_app_read_text_from_clipboard"
                      (TelegramWebApp.ReqIdData (generateId 16 rnd))])%list
          /\ TelegramWebApp.clipboard wc
             = delete (generateId 16 rnd) (TelegramWebApp.clipboard w)
          /\ TelegramWebApp.popup wc = TelegramWebApp.popup w
          /\ TelegramWebApp.invoices wc = TelegramWebApp.invoices w
          /\ TelegramWebApp.trace wc
             = (TelegramWebApp.trace w1
                ++ [TelegramWebApp.Call cb [TelegramWebApp.arg_of_data data]])%list
          /\ TelegramWebApp.onClipboardTextReceived consumer
               (Some (generateId 16 rnd)) data w1
             = match consumer cb [TelegramWebApp.arg_of_data data] wc with
               | (w2, None) =>
                   (TelegramWebApp.receiveWebViewEvent "clipboardTextReceived"
                      (TelegramWebApp.ClipboardData data) w2, None)
               | (w2, Some e) => (w2, Some e)
               end).
Proof.
  split.
  - intros rnd cb w Hv. unfold TelegramWebApp.readTextFromClipboard. now rewrite Hv.
  - intros consumer rnd cb data w Hv.
    unfold TelegramWebApp.readTextFromClipboard. rewrite Hv. cbn [negb].
    set (id := generateId 16 rnd).
    assert (Hid : id <> "") by (apply generateId_truthy; lia).
    set (w1 := TelegramWebApp.log _ _).
    exists w1, (TelegramWebApp.log
                  (TelegramWebApp.Call cb [TelegramWebApp.arg_of_data data])
                  (clipboard_taken id w1)).
    assert (Hl : TelegramWebApp.clipboard w1 !! id = Some (Some cb)).
    { cbn. unfold TelegramWebApp.Clipboard.setRequest. apply lookup_insert_eq. }
    split; [reflexivity|]. split; [apply generateId_length|].
    split; [exact Hl|]. split; [reflexivity|].
    split.
    { cbn. unfold TelegramWebApp.Clipboard.removeRequest,
        TelegramWebApp.Clipboard.setRequest. apply delete_insert_eq. }
    split; [reflexivity|]. split; [reflexivity|]. split; [reflexivity|].
    rewrite (clipboard_known consumer id data (Some cb) w1 Hid Hl).
    apply (call_then_emit consumer (Some cb)).
Qed.

(** A clipboard read at version 6.4, answered with "text": by a function
    that returns, and by one that throws. *)
Lemma readTextFromClipboard_round_trip_witness :
  let w := {| TelegramWebApp.version := "6.4";
              TelegramWebApp.tgWebAppBotInline := false;
              TelegramWebApp.popup := Popup.initial;
              TelegramWebApp.invoices := ∅;
              TelegramWebApp.clipboard := ∅;
              TelegramWebApp.trace := [] |} in
  (exists w1 w2 : TelegramWebApp.t,
     TelegramWebApp.readTextFromClipboard (fun _ => "r"%char) (Some "cb") w = (w1, None)
     /\ TelegramWebApp.onClipboardTextReceived sample_consumer
          (Some "rrrrrrrrrrrrrrrr") (Some "text") w1
        = (w2, None)
     /\ TelegramWebApp.clipboard w2 = ∅
     /\ TelegramWebApp.trace w2
        = (TelegramWebApp.trace w1
           ++ [TelegramWebApp.Call "cb" [AString "text"];
               TelegramWebApp.Emit "clipboardTextReceived"
                 (TelegramWebApp.ClipboardData (Some "text"))])%list)
  /\ (exists w1 w2 : TelegramWebApp.t,
        TelegramWebApp.readTextFromClipboard (fun _ => "r"%char) (Some "boom") w
        = (w1, None)
        /\ TelegramWebApp.onClipboardTextReceived sample_consumer
             (Some "rrrrrrrrrrrrrrrr") (Some "text") w1
           = (w2, Some (Error "boom"))
        /\ TelegramWebApp.clipboard w2 = ∅
        /\ TelegramWebApp.trace w2
           = (TelegramWebApp.trace w1
              ++ [TelegramWebApp.Call "boom" [AString "text"]])%list).
Proof.
  intros w. split.
  - destruct (proj2 readTextFromClipboard_round_trip sample_consumer
                (fun _ => "r"%char) "cb" (Some "text") w)
      as (w1 & wc & E1 & _ & _ & _ & Hc & _ & _ & Tc & E2).
    + vm_compute. reflexivity.
    + exists w1. eexists. split; [exact E1|]. split; [exact E2|].
      cbn [sample_consumer String.eqb Ascii.eqb Bool.eqb
           TelegramWebApp.receiveWebViewEvent TelegramWebApp.log
           TelegramWebApp.clipboard TelegramWebApp.trace].
      rewrite Hc, Tc, <- app_assoc. split; [|reflexivity].
      apply delete_empty.
  - destruct (proj2 readTextFromClipboard_round_trip sample_consumer
                (fun _ => "r"%char) "boom" (Some "text") w)
      as (w1 & wc & E1 & _ & _ & _ & Hc & _ & _ & Tc & E2).
    + vm_compute. reflexivity.
    + exists w1. eexists. split; [exact E1|]. split; [exact E2|].
      rewrite Hc, Tc. split; [apply delete_empty | reflexivity].
Defined.

(** X13.  [openInvoice] and its response.  When [Invoices.create] yields a
    non-empty slug, [openInvoice] stores the url and the callback under it
    and posts [web_app_open_invoice]; the [invoice_closed] event with that
    slug then removes the entry and calls the callback with the status on an
    orchestrator whose registry is the one before the call, the slug apart;
    when the callback returns, [invoiceClosed] is emitted with the url the
    invoice was opened with, and when it throws, its error leaves the
    handler and nothing is emitted.  When [Invoices.create] throws, nothing
    is stored or posted. *)
Theorem openInvoice_round_trip :
  forall (create : gmap string TelegramWebApp.InvoiceEntry -> string -> result string)
         (consumer : handle -> list jsarg -> TelegramWebApp.t -> ran TelegramWebApp.t)
         (url : string) (cb : handle) (w : TelegramWebApp.t),
    (forall e, create (TelegramWebApp.invoices w) url = Throw e ->
               TelegramWebApp.openInvoice create url (Some cb) w = (w, Some e))
    /\ (forall slug status : string,
          create (TelegramWebApp.invoices w) url = Ok slug -> slug <> "" ->
          exists w1 wc : TelegramWebApp.t,
            TelegramWebApp.openInvoice create url (Some cb) w = (w1, None)
            /\ TelegramWebApp.invoices w1 !! slug
               = Some {| TelegramWebApp.inv_url := url;
                         TelegramWebApp.inv_callback := Some cb |}
            /\ TelegramWebApp.trace w1
               = (TelegramWebApp.trace w
                  ++ [TelegramWebApp.Post "web_app_open_invoice"
                        (TelegramWebApp.SlugData slug)])%list
            /\ TelegramWebApp.invoices wc = delete slug (TelegramWebApp.invoices w)
            /\ TelegramWebApp.popup wc = TelegramWebApp.popup w
            /\ TelegramWebApp.clipboard wc = TelegramWebApp.clipboard w
            /\ TelegramWebApp.trace wc
               = (TelegramWebApp.trace w1
                  ++ [TelegramWebApp.Call cb [AString status]])%list
            /\ TelegramWebApp.onInvoiceClosed consumer (Some slug) status w1
               = match consumer cb [AString status] wc with
                 | (w2, None) =>
                     (TelegramWebApp.receiveWebViewEvent "invoiceClosed"
                        (TelegramWebApp.InvoiceClosedData url status) w2, None)
                 | (w2, Some e) => (w2, Some e)
                 end).
Proof.
  intros create consumer url cb w. split.
  - intros e He. unfold TelegramWebApp.openInvoice. now rewrite He.
  - intros slug status Hc Hs.
    unfold TelegramWebApp.openInvoice. rewrite Hc.
    set (w1 := TelegramWebApp.log _ _).
    exists w1, (TelegramWebApp.log (TelegramWebApp.Call cb [AString status])
                  (invoice_taken slug w1)).
    assert (Hl : TelegramWebApp.invoices w1 !! slug
                 = Some {| TelegramWebApp.inv_url := url;
                           TelegramWebApp.inv_callback := Some cb |}).
    { cbn. unfold TelegramWebApp.Invoices.save. apply lookup_insert_eq. }
    split; [reflexivity|]. split; [exact Hl|]. split; [reflexivity|].
    split.
    { cbn. unfold TelegramWebApp.Invoices.save. apply delete_insert_eq. }
    split; [reflexivity|]. split; [reflexivity|]. split; [reflexivity|].
    rewrite (invoice_known consumer slug status _ w1 Hs Hl).
    apply (call_then_emit consumer (Some cb)).
Qed.

(** An invoice named "abc", paid: with a function that returns, and with
    one that throws. *)
Lemma openInvoice_round_trip_witness :
  let w := {| TelegramWebApp.version := "6.4";
              TelegramWebApp.tgWebAppBotInline := false;
              TelegramWebApp.popup := Popup.initial;
              TelegramWebApp.invoices := ∅;
              TelegramWebApp.clipboard := ∅;
              TelegramWebApp.trace := [] |} in
  (exists w1 w2 : TelegramWebApp.t,
     TelegramWebApp.openInvoice (fun _ _ => Ok "abc") "https://t.me/$abc" (Some "cb") w
     = (w1, None)
     /\ TelegramWebApp.onInvoiceClosed sample_consumer (Some "abc") "paid" w1
        = (w2, None)
     /\ TelegramWebApp.invoices w2 = ∅
     /\ TelegramWebApp.trace w2
        = [TelegramWebApp.Post "web_app_open_invoice" (TelegramWebApp.SlugData "abc");
           TelegramWebApp.Call "cb" [AString "paid"];
           TelegramWebApp.Emit "invoiceClosed"
             (TelegramWebApp.InvoiceClosedData "https://t.me/$abc" "paid")])
  /\ (exists w1 w2 : TelegramWebApp.t,
        TelegramWebApp.openInvoice (fun _ _ => Ok "abc") "https://t.me/$abc"
          (Some "boom") w
        = (w1, None)
        /\ TelegramWebApp.onInvoiceClosed sample_consumer (Some "abc") "paid" w1
           = (w2, Some (Error "boom"))
        /\ TelegramWebApp.invoices w2 = ∅
        /\ TelegramWebApp.trace w2
           = [TelegramWebApp.Post "web_app_open_invoice"
                (TelegramWebApp.SlugData "abc");
              TelegramWebApp.Call "boom" [AString "paid"]]).
Proof.
  intros w. split.
  - destruct (proj2 (openInvoice_round_trip (fun _ _ => Ok "abc") sample_consumer
                       "https://t.me/$abc" "cb" w) "abc" "paid")
      as (w1 & wc & E1 & _ & T1 & Hc & _ & _ & Tc & E2).
    + reflexivity.
    + discriminate.
    + exists w1. eexists. split; [exact E1|]. split; [exact E2|].
      cbn [sample_consumer String.eqb Ascii.eqb Bool.eqb
           TelegramWebApp.receiveWebViewEvent TelegramWebApp.log
           TelegramWebApp.invoices TelegramWebApp.trace].
      rewrite Hc, Tc, T1. split; [apply delete_empty | reflexivity].
  - destruct (proj2 (openInvoice_round_trip (fun _ _ => Ok "abc") sample_consumer
                       "https://t.me/$abc" "boom" w) "abc" "paid")
      as (w1 & wc & E1 & _ & T1 & Hc & _ & _ & Tc & E2).
    + reflexivity.
    + discriminate.
    + exists w1. eexists. split; [exact E1|]. split; [exact E2|].
      rewrite Hc, Tc, T1. split; [apply delete_empty | reflexivity].
Defined.

(** ** switchInlineQuery with a list of chat types *)

Section ChatTypesFacts.
Import JS TelegramWebApp.

(** Whether every chat type of the list is one of the four valid ones. *)
Lemma checkChats_decides (chats : list string) :
  checkChats chats =
    if forallb (fun chat => existsb (String.eqb chat) VALID_CHAT_TYPES) chats
    then Ok tt
    else Throw (Error "WebAppInlineChooseChatTypeInvalid").
Proof.
  induction chats as [|chat chats IH]; [reflexivity|].
  cbn [checkChats forallb].
  destruct (existsb (String.eqb chat) VALID_CHAT_TYPES); cbn [negb andb];
    [exact IH | reflexivity].
Qed.

Lemma forallb_uniq (f : string -> bool) (l : list string) :
  forallb f (uniq l) = forallb f l.
Proof.
  destruct (uniq_spec l) as (_ & He & _).
  apply eq_true_iff_eq. rewrite !forallb_forall. split; intros H x Hx; apply H.
  - apply list_elem_of_In. apply He. now apply list_elem_of_In.
  - apply list_elem_of_In. apply He. now apply list_elem_of_In.
Qed.

End ChatTypesFacts.

(** X14.  [switchInlineQuery] with an array of chat types, a version of at
    least 6.7, inline mode on and a query of at most 256 characters after
    trimming: when every chat type is one of users, bots, groups and
    channels the event is posted, and otherwise the call throws the
    invalid-chat-type error and posts nothing.  The chat types posted are
    valid, without repetition and therefore at most four.  Below 6.7 the
    call throws [WebAppMethodUnsupportedError], and with inline mode off the
    inline-mode error, whatever the arguments. *)
Theorem switchInlineQuery_array :
  (forall (query : string) (l : list string) (w : TelegramWebApp.t),
     TelegramWebApp.isSuitableTo (TelegramWebApp.version w) "6.7" = true ->
     TelegramWebApp.tgWebAppBotInline w = true ->
     JS.len (JS.trim query) <= 256 ->
     TelegramWebApp.switchInlineQuery query (TelegramWebApp.ChatTypesArray l) w
     = (if forallb (fun chat =>
                      existsb (String.eqb chat) TelegramWebApp.VALID_CHAT_TYPES) l
        then (TelegramWebApp.log
                (TelegramWebApp.Post "web_app_switch_inline_query"
                   (TelegramWebApp.InlineQueryData (JS.trim query)
                      (TelegramWebApp.uniq l))) w, None)
        else (w, Some (Error "WebAppInlineChooseChatTypeInvalid"))))
  /\ (forall (query : string) (ct : TelegramWebApp.ChatTypesArg)
             (w w' : TelegramWebApp.t) (q : string) (chats : list string),
        TelegramWebApp.switchInlineQuery query ct w = (w', None) ->
        TelegramWebApp.trace w'
        = (TelegramWebApp.trace w
           ++ [TelegramWebApp.Post "web_app_switch_inline_query"
                 (TelegramWebApp.InlineQueryData q chats)])%list ->
        q = JS.trim query /\ JS.len q <= 256 /\ NoDup chats
        /\ (forall c, c ∈ chats -> c ∈ TelegramWebApp.VALID_CHAT_TYPES)
        /\ (length chats <= 4)%nat)
  /\ (forall (query : string) (ct : TelegramWebApp.ChatTypesArg) (w : TelegramWebApp.t),
        TelegramWebApp.isSuitableTo (TelegramWebApp.version w) "6.7" = false ->
        TelegramWebApp.switchInlineQuery query ct w
        = (w, Some (WebAppMethodUnsupportedError "switchInlineQuery")))
  /\ (forall (query : string) (ct : TelegramWebApp.ChatTypesArg) (w : TelegramWebApp.t),
        TelegramWebApp.isSuitableTo (TelegramWebApp.version w) "6.7" = true ->
        TelegramWebApp.tgWebAppBotInline w = false ->
        TelegramWebApp.switchInlineQuery query ct w
        = (w, Some (Error "WebAppInlineModeDisabled"))).
Proof.
  split; [|split; [|split]].
  - intros query l w Hv Hi Hl. unfold TelegramWebApp.switchInlineQuery.
    rewrite Hv, Hi. cbn [negb]. unfold TelegramWebApp.MAX_INLINE_QUERY_LENGTH.
    destruct (Z.ltb_spec 256 (JS.len (JS.trim query))); [lia|].
    rewrite checkChats_decides, forallb_uniq.
    now destruct (forallb _ l).
  - intros query ct w w' q chats. unfold TelegramWebApp.switchInlineQuery, threw, done_.
    destruct (negb _); [discriminate|]. destruct (negb _); [discriminate|].
    unfold TelegramWebApp.MAX_INLINE_QUERY_LENGTH.
    destruct (Z.ltb_spec 256 (JS.len (JS.trim query))); [discriminate|].
    destruct ct as [| |l]; [discriminate | discriminate |].
    rewrite checkChats_decides.
    destruct (forallb _ (TelegramWebApp.uniq l)) eqn:Ef; [|discriminate].
    intros [= <-]. cbn. intros E. apply app_inv_head in E. injection E as <- <-.
    destruct (uniq_spec l) as (Hn & He & _).
    assert (Hsub : forall c, c ∈ TelegramWebApp.uniq l ->
                             c ∈ TelegramWebApp.VALID_CHAT_TYPES).
    { intros c Hc. rewrite forallb_forall in Ef.
      apply existsb_eqb_elem_of. apply Ef. now apply list_elem_of_In. }
    repeat split; try assumption.
    apply (submseteq_length _ TelegramWebApp.VALID_CHAT_TYPES).
    apply NoDup_submseteq; assumption.
  - intros query ct w Hv. unfold TelegramWebApp.switchInlineQuery. now rewrite Hv.
  - intros query ct w Hv Hi. unfold TelegramWebApp.switchInlineQuery.
    now rewrite Hv, Hi.
Qed.

(** A chat type that does not exist. *)
Lemma switchInlineQuery_array_witness :
  let w := {| TelegramWebApp.version := "6.7";
              TelegramWebApp.tgWebAppBotInline := true;
              TelegramWebApp.popup := Popup.initial;
              TelegramWebApp.invoices := ∅;
              TelegramWebApp.clipboard := ∅;
              TelegramWebApp.trace := [] |} in
  TelegramWebApp.switchInlineQuery "cats"
    (TelegramWebApp.ChatTypesArray ["users"; "friends"]) w
  = (w, Some (Error "WebAppInlineChooseChatTypeInvalid")).
Proof.
  intros w.
  apply (proj1 switchInlineQuery_array "cats" ["users"; "friends"] w).
  - vm_compute. reflexivity.
  - reflexivity.
  - vm_compute. discriminate.
Defined.

(** ** The legacy openInvoice *)

Section LegacyInvoiceFacts.
Import JS.

Lemma stripPrefix_Some (pre : string) :
  forall s r : string, WebApp.stripPrefix pre s = Some r <-> s = pre ++ r.
Proof.
  induction pre as [|a pre IH]; intros s r.
  - cbn. split; [intros [= ->]; reflexivity | intros ->; reflexivity].
  - change (String a pre ++ r) with (String a (pre ++ r)).
    destruct s as [|b s]; cbn [WebApp.stripPrefix]; [split; discriminate|].
    destruct (Ascii.eqb_spec a b) as [->|Hne].
    + rewrite IH. split; [intros ->; reflexivity | intros [= ->]; reflexivity].
    + split; [discriminate | intros H; congruence].
Qed.

(** [openInvoice] once the url is an invoice url. *)
Lemma legacy_openInvoice_valid (parseURL : string -> option WebApp.URL)
    (url slug : string) (cb : option handle) (w : WebApp.t) (u : WebApp.URL) :
  parseURL url = Some u ->
  WebApp.protocol u = "http:" \/ WebApp.protocol u = "https:" ->
  WebApp.hostname u = "t.me" ->
  WebApp.matchInvoicePath (WebApp.pathname u) = Some slug ->
  WebApp.openInvoice parseURL url cb w =
    if negb (VersionGate.versionAtLeast (WebApp.webAppVersion w) "6.1")
    then (w, Some (Error "WebAppMethodUnsupported"))
    else if has_key (WebApp.webAppInvoices w !! slug)
    then (w, Some (Error "WebAppInvoiceOpened"))
    else ({| WebApp.webAppVersion := WebApp.webAppVersion w;
             WebApp.webAppInvoices :=
               <[slug := {| WebApp.inv_url := url; WebApp.inv_callback := cb |}]>
                 (WebApp.webAppInvoices w);
             WebApp.posted := WebApp.posted w ++ [("web_app_open_invoice", slug)] |},
          None).
Proof.
  intros Hu Hp Hh Hm. unfold WebApp.openInvoice, threw, done_. rewrite Hu, Hh, Hm.
  assert (Hs : truthy_opt (Some slug) = true).
  { unfold WebApp.matchInvoicePath in Hm.
    destruct (WebApp.stripPrefix "/" (WebApp.pathname u)); [|discriminate].
    destruct (match WebApp.stripPrefix "$" s with
              | Some r => Some r
              | None => WebApp.stripPrefix "invoice/" s
              end) as [t|]; [|discriminate].
    destruct (truthy t) eqn:Et; [|discriminate].
    destruct (WebApp.allSlugChars t); [|discriminate].
    cbn in Hm. injection Hm as <-. exact Et. }
  rewrite Hs. cbn [has_key negb orb default]. unfold Datatypes.id.
  destruct Hp as [-> | ->]; reflexivity.
Qed.

End LegacyInvoiceFacts.

(** X15.  The path of an invoice url.  The pattern of the legacy
    [openInvoice] accepts exactly the paths "/$slug" and "/invoice/slug"
    whose slug is not empty and made of letters, digits, "-", "_" and "=";
    what it returns is that slug. *)
Theorem matchInvoicePath_characterised :
  forall pathname slug : string,
    WebApp.matchInvoicePath pathname = Some slug
    <-> ((pathname = "/$" ++ slug \/ pathname = "/invoice/" ++ slug)
         /\ slug <> "" /\ WebApp.allSlugChars slug = true).
Proof.
  intros pathname slug. unfold WebApp.matchInvoicePath. split.
  - destruct (WebApp.stripPrefix "/" pathname) as [rest|] eqn:E1; [|discriminate].
    apply stripPrefix_Some in E1. subst pathname.
    destruct (WebApp.stripPrefix "$" rest) as [r|] eqn:E2.
    + apply stripPrefix_Some in E2. subst rest.
      destruct (truthy r) eqn:Et; [|discriminate].
      destruct (WebApp.allSlugChars r) eqn:Ea; [|discriminate].
      intros [= <-]. apply truthy_true in Et. repeat split; auto.
    + destruct (WebApp.stripPrefix "invoice/" rest) as [r|] eqn:E3; [|discriminate].
      apply stripPrefix_Some in E3. subst rest.
      destruct (truthy r) eqn:Et; [|discriminate].
      destruct (WebApp.allSlugChars r) eqn:Ea; [|discriminate].
      intros [= <-]. apply truthy_true in Et. repeat split; auto.
  - intros ([-> | ->] & Hs & Ha); apply truthy_true in Hs.
    + rewrite (proj2 (stripPrefix_Some "/" ("/$" ++ slug) ("$" ++ slug)) eq_refl).
      rewrite (proj2 (stripPrefix_Some "$" ("$" ++ slug) slug) eq_refl).
      now rewrite Hs, Ha.
    + rewrite (proj2 (stripPrefix_Some "/" ("/invoice/" ++ slug) ("invoice/" ++ slug))
                 eq_refl).
      assert (E : WebApp.stripPrefix "$" ("invoice/" ++ slug) = None) by reflexivity.
      rewrite E.
      rewrite (proj2 (stripPrefix_Some "invoice/" ("invoice/" ++ slug) slug) eq_refl).
      now rewrite Hs, Ha.
Qed.

(** The two shapes of an invoice path. *)
Lemma matchInvoicePath_characterised_witness :
  WebApp.matchInvoicePath "/invoice/a-b_9=" = Some "a-b_9=".
Proof.
  apply (proj2 (matchInvoicePath_characterised "/invoice/a-b_9=" "a-b_9=")).
  split; [right; reflexivity|]. split; [discriminate | reflexivity].
Defined.

(** X16.  The legacy [openInvoice].  A call that throws changes nothing.
    With an http or https url on t.me whose path names an invoice, a version
    of at least 6.1 and no pending invoice of that slug, the url and the
    callback are stored under the slug and [web_app_open_invoice] is posted
    with it; opening the same invoice again before it is closed throws
    "WebAppInvoiceOpened".  A url that parses is refused with
    "WebAppInvoiceUrlInvalid", whatever the version, exactly when its
    protocol is neither http nor https, or its host is not t.me, or its path
    names no invoice; a url that does not parse throws a [TypeError]. *)
Theorem legacy_openInvoice_behaviour :
  (forall (parseURL : string -> option WebApp.URL) (url : string)
          (cb : option handle) (w w' : WebApp.t) (e : error),
     WebApp.openInvoice parseURL url cb w = (w', Some e) -> w' = w)
  /\ (forall (parseURL : string -> option WebApp.URL) (url slug : string)
             (cb cb' : option handle) (w : WebApp.t) (u : WebApp.URL),
        parseURL url = Some u ->
        WebApp.protocol u = "http:" \/ WebApp.protocol u = "https:" ->
        WebApp.hostname u = "t.me" ->
        WebApp.matchInvoicePath (WebApp.pathname u) = Some slug ->
        VersionGate.versionAtLeast (WebApp.webAppVersion w) "6.1" = true ->
        WebApp.webAppInvoices w !! slug = None ->
        exists w1 : WebApp.t,
          WebApp.openInvoice parseURL url cb w = (w1, None)
          /\ WebApp.webAppInvoices w1 !! slug
             = Some {| WebApp.inv_url := url; WebApp.inv_callback := cb |}
          /\ (forall other, other <> slug ->
                WebApp.webAppInvoices w1 !! other = WebApp.webAppInvoices w !! other)
          /\ WebApp.posted w1
             = (WebApp.posted w ++ [("web_app_open_invoice", slug)])%list
          /\ WebApp.openInvoice parseURL url cb' w1
             = (w1, Some (Error "WebAppInvoiceOpened")))
  /\ (forall (parseURL : string -> option WebApp.URL) (url : string)
             (cb : option handle) (w : WebApp.t) (u : WebApp.URL),
        parseURL url = Some u ->
        (WebApp.openInvoice parseURL url cb w
         = (w, Some (Error "WebAppInvoiceUrlInvalid"))
         <-> (WebApp.protocol u <> "http:" /\ WebApp.protocol u <> "https:")
             \/ WebApp.hostname u <> "t.me"
             \/ WebApp.matchInvoicePath (WebApp.pathname u) = None))
  /\ (forall (parseURL : string -> option WebApp.URL) (url : string)
             (cb : option handle) (w : WebApp.t),
        parseURL url = None ->
        WebApp.openInvoice parseURL url cb w = (w, Some TypeError)).
Proof.
  split; [|split; [|split]].
  - intros parseURL url cb w w' e. unfold WebApp.openInvoice, threw, done_.
    destruct (parseURL url); [|now intros [= <- _]].
    destruct (_ || _); [now intros [= <- _]|].
    destruct (negb _); [now intros [= <- _]|].
    destruct (has_key _); [now intros [= <- _] | discriminate].
  - intros parseURL url slug cb cb' w u Hu Hp Hh Hm Hv Hfresh.
    eexists. split.
    { rewrite (legacy_openInvoice_valid parseURL url slug cb w u Hu Hp Hh Hm).
      rewrite Hv, Hfresh. reflexivity. }
    cbn [WebApp.webAppInvoices WebApp.posted].
    split; [apply lookup_insert_eq|].
    split; [intros other Ho; now apply lookup_insert_ne|].
    split; [reflexivity|].
    rewrite (legacy_openInvoice_valid parseURL url slug cb' _ u Hu Hp Hh Hm).
    cbn [WebApp.webAppVersion WebApp.webAppInvoices]. rewrite Hv.
    now rewrite lookup_insert_eq.
  - intros parseURL url cb w u Hu. split.
    + intros E.
      destruct (WebApp.matchInvoicePath (WebApp.pathname u)) as [slug|] eqn:Hm;
        [|right; now right].
      destruct (String.eqb_spec (WebApp.hostname u) "t.me") as [Hh|Hh];
        [|right; now left].
      assert (Hp : ~ (WebApp.protocol u = "http:" \/ WebApp.protocol u = "https:")).
      { intros Hp.
        rewrite (legacy_openInvoice_valid parseURL url slug cb w u Hu Hp Hh Hm) in E.
        destruct (negb _); [discriminate|].
        destruct (has_key _); discriminate. }
      left. split; intros P; apply Hp; [now left | now right].
    + intros H. unfold WebApp.openInvoice, threw. rewrite Hu.
      destruct H as [[H1 H2]|[H|H]].
      * apply String.eqb_neq in H1, H2. now rewrite H1, H2.
      * apply String.eqb_neq in H. rewrite H. cbn [negb].
        now rewrite orb_true_r.
      * rewrite H. cbn [has_key negb]. now rewrite orb_true_r.
  - intros parseURL url cb w Hu. unfold WebApp.openInvoice. now rewrite Hu.
Qed.

(** An invoice opened twice at version 6.4, and the same invoice asked for
    over ftp. *)
Lemma legacy_openInvoice_behaviour_witness :
  let parseURL := fun url : string =>
    Some {| WebApp.protocol := if String.prefix "ftp:" url then "ftp:" else "https:";
            WebApp.hostname := "t.me";
            WebApp.pathname := "/$abc" |} in
  let w := {| WebApp.webAppVersion := "6.4"; WebApp.webAppInvoices := ∅;
              WebApp.posted := [] |} in
  (exists w1 : WebApp.t,
     WebApp.openInvoice parseURL "https://t.me/$abc" (Some "cb") w = (w1, None)
     /\ WebApp.posted w1 = [("web_app_open_invoice", "abc")]
     /\ WebApp.openInvoice parseURL "https://t.me/$abc" None w1
        = (w1, Some (Error "WebAppInvoiceOpened")))
  /\ WebApp.openInvoice parseURL "ftp://t.me/$abc" (Some "cb") w
     = (w, Some (Error "WebAppInvoiceUrlInvalid")).
Proof.
  intros parseURL w. split.
  - destruct (proj1 (proj2 legacy_openInvoice_behaviour) parseURL "https://t.me/$abc"
                "abc" (Some "cb") None w
                {| WebApp.protocol := "https:"; WebApp.hostname := "t.me";
                   WebApp.pathname := "/$abc" |})
      as (w1 & E & _ & _ & P & R).
    + reflexivity.
    + right. reflexivity.
    + reflexivity.
    + reflexivity.
    + vm_compute. reflexivity.
    + reflexivity.
    + exists w1. split; [exact E|]. split; [exact P | exact R].
  - apply (proj2 (proj1 (proj2 (proj2 legacy_openInvoice_behaviour)) parseURL
                    "ftp://t.me/$abc" (Some "cb") w
                    {| WebApp.protocol := "ftp:"; WebApp.hostname := "t.me";
                       WebApp.pathname := "/$abc" |} eq_refl)).
    left. split; discriminate.
Defined.

(** ** The header colour *)

Section HeaderColorFacts.
Import HeaderColor.

Lemma same_colour (theme parsed : option string) :
  truthy_opt theme
  && match theme, parsed with
     | Some a, Some b => String.eqb a b
     | _, _ => false
     end = true ->
  exists a, theme = Some a /\ a <> "" /\ parsed = Some a.
Proof.
  destruct theme as [a|]; [|discriminate]. cbn [truthy_opt].
  destruct parsed as [b|]; [|now rewrite andb_false_r].
  rewrite andb_true_iff, String.eqb_eq. intros [Ht ->].
  exists b. split; [reflexivity|]. split; [now apply truthy_true | reflexivity].
Qed.

(** What [#getHeaderColorKey] answers when it answers with a key. *)
Lemma getHeaderColorKey_Some (parse : string -> option string) (c k : string)
    (h : HeaderColor.t) :
  getHeaderColorKey parse c h = Some k ->
  (k = "bg_color" \/ k = "secondary_bg_color")
  /\ (c = "bg_color" \/ c = "secondary_bg_color" -> k = c)
  /\ (c <> "bg_color" -> c <> "secondary_bg_color" ->
      exists a, themeParams h !! k = Some a /\ a <> "" /\ parse c = Some a).
Proof.
  unfold getHeaderColorKey, BG_COLOR, SECONDARY_BG_COLOR.
  destruct (String.eqb_spec c "bg_color") as [->|N1].
  { cbn [orb]. intros [= <-]. split; [now left|]. split; [reflexivity|].
    intros H; contradiction. }
  destruct (String.eqb_spec c "secondary_bg_color") as [->|N2].
  { cbn [orb]. intros [= <-]. split; [now right|]. split; [reflexivity|].
    intros _ H; contradiction. }
  cbn [orb]. cbv zeta beta.
  destruct (truthy_opt (themeParams h !! "bg_color") && _) eqn:E1.
  { intros [= <-]. apply same_colour in E1.
    split; [now left|]. split; [intros [H|H]; contradiction|]. intros _ _. exact E1. }
  destruct (truthy_opt (themeParams h !! "secondary_bg_color") && _) eqn:E2;
    [|discriminate].
  intros [= <-]. apply same_colour in E2.
  split; [now right|]. split; [intros [H|H]; contradiction|]. intros _ _. exact E2.
Qed.

End HeaderColorFacts.

(** X17.  [setHeaderColor].  A call never changes the version or the
    theme, and a call that throws, or is made below version 6.1, changes
    nothing at all.  A call that goes through stores one of the two keys
    "bg_color" and "secondary_bg_color" and posts it; given one of the two
    keys it stores that key, and given a colour it goes through only when
    the colour parses to the non-empty colour the theme has under the stored
    key, so that the [headerColor] getter then returns the parsed colour.
    The stored key stays one of the two keys. *)
Theorem setHeaderColor_behaviour :
  forall (parseColorToHex : string -> option string) (c : string)
         (h h' : HeaderColor.t) (o : option error),
    HeaderColor.setHeaderColor parseColorToHex c h = (h', o) ->
    HeaderColor.version h' = HeaderColor.version h
    /\ HeaderColor.themeParams h' = HeaderColor.themeParams h
    /\ (o <> None \/ TelegramWebApp.isSuitableTo (HeaderColor.version h) "6.1" = false ->
        h' = h)
    /\ (o <> None -> o = Some (Error "WebAppHeaderColorKeyInvalid"))
    /\ (o = None ->
        TelegramWebApp.isSuitableTo (HeaderColor.version h) "6.1" = true ->
        (HeaderColor.headerColorKey h' = "bg_color"
         \/ HeaderColor.headerColorKey h' = "secondary_bg_color")
        /\ HeaderColor.posted h'
           = (HeaderColor.posted h ++ [HeaderColor.headerColorKey h'])%list
        /\ (c = "bg_color" \/ c = "secondary_bg_color" ->
            HeaderColor.headerColorKey h' = c)
        /\ (c <> "bg_color" -> c <> "secondary_bg_color" ->
            parseColorToHex c = Some (HeaderColor.headerColor h')
            /\ HeaderColor.headerColor h' <> ""))
    /\ (HeaderColor.headerColorKey h = "bg_color"
        \/ HeaderColor.headerColorKey h = "secondary_bg_color" ->
        HeaderColor.headerColorKey h' = "bg_color"
        \/ HeaderColor.headerColorKey h' = "secondary_bg_color").
Proof.
  intros parse c h h' o. unfold HeaderColor.setHeaderColor, threw, done_.
  destruct (TelegramWebApp.isSuitableTo (HeaderColor.version h) "6.1") eqn:Ev;
    cbn [negb].
  2:{ intros [= <- <-]. split; [reflexivity|]. split; [reflexivity|].
      split; [reflexivity|]. split; [congruence|]. split; [discriminate|].
      intros H; exact H. }
  destruct (HeaderColor.getHeaderColorKey parse c h) as [k|] eqn:Ek.
  2:{ intros [= <- <-]. split; [reflexivity|]. split; [reflexivity|].
      split; [reflexivity|]. split; [reflexivity|]. split; [discriminate|].
      intros H; exact H. }
  destruct (getHeaderColorKey_Some parse c k h Ek) as (Hk & Hname & Hcol).
  assert (Hpass : negb (String.eqb k HeaderColor.BG_COLOR)
                  && negb (String.eqb k HeaderColor.SECONDARY_BG_COLOR) = false).
  { destruct Hk as [-> | ->]; reflexivity. }
  rewrite Hpass. intros [= <- <-].
  cbn [HeaderColor.version HeaderColor.themeParams HeaderColor.headerColorKey
       HeaderColor.posted].
  split; [reflexivity|]. split; [reflexivity|].
  split; [intros [H|H]; congruence|]. split; [congruence|].
  split; [|intros _; exact Hk].
  intros _ _. split; [exact Hk|]. split; [reflexivity|]. split; [exact Hname|].
  intros N1 N2. destruct (Hcol N1 N2) as (a & Ha & Hne & Hp).
  unfold HeaderColor.headerColor.
  cbn [HeaderColor.themeParams HeaderColor.headerColorKey]. rewrite Ha.
  split; [exact Hp | exact Hne].
Qed.

(** The theme's secondary colour, given as a colour. *)
Lemma setHeaderColor_behaviour_witness :
  let parse := fun s : string => Some s in
  let h := HeaderColor.initial "6.4"
             {[ "bg_color" := "#ffffff"; "secondary_bg_color" := "#f0f0f0" ]} in
  let h' := fst (HeaderColor.setHeaderColor parse "#f0f0f0" h) in
  HeaderColor.headerColorKey h' = "secondary_bg_color"
  /\ HeaderColor.posted h' = ["secondary_bg_color"]
  /\ HeaderColor.headerColor h' = "#f0f0f0".
Proof.
  intros parse h h'.
  destruct (setHeaderColor_behaviour parse "#f0f0f0" h h' None)
    as (_ & _ & _ & _ & H & _).
  { vm_compute. reflexivity. }
  destruct H as (_ & _ & _ & Hc); [reflexivity | vm_compute; reflexivity |].
  destruct Hc as [Hp _]; [discriminate | discriminate |].
  split; [vm_compute; reflexivity|]. split; [vm_compute; reflexivity|].
  apply (f_equal (default "")) in Hp. symmetry. exact Hp.
Defined.

(** ** Runs of the orchestrator *)

Section RunFacts.
Import JS Popup TelegramWebApp.

Variable create : gmap string InvoiceEntry -> string -> result string.
Variable consumer : handle -> list jsarg -> TelegramWebApp.t -> ran TelegramWebApp.t.

Lemma count_effects_app (f : effect -> bool) (a b : list effect) :
  count_effects f (a ++ b) = (count_effects f a + count_effects f b)%nat.
Proof. unfold count_effects. now rewrite List.filter_app, length_app. Qed.

(** An extension of the trace that has neither a popup post nor a
    [popupClosed], with the popup untouched and the registries' keys
    untouched, shrunk or posted, keeps the invariant and the balance of the
    popups. *)
Lemma webapp_inv_quiet (w w' : TelegramWebApp.t) (ext : list effect) :
  webapp_inv w ->
  popup w' = popup w ->
  trace w' = (trace w ++ ext)%list ->
  count_effects is_popup_post ext = 0%nat ->
  count_effects is_popup_closed ext = 0%nat ->
  (forall id, is_Some (clipboard w' !! id) ->
     is_Some (clipboard w !! id)
     \/ In (Post "web_app_read_text_from_clipboard" (ReqIdData id)) ext) ->
  (forall slug, is_Some (invoices w' !! slug) ->
     is_Some (invoices w !! slug)
     \/ In (Post "web_app_open_invoice" (SlugData slug)) ext) ->
  webapp_inv w' /\ popup_slack w' = popup_slack w.
Proof.
  intros (I & V & Hc & Hi) Hp Ht E1 E2 Kc Ki. split.
  - unfold webapp_inv. rewrite Hp, Ht.
    split; [exact I|]. split; [|split].
    + intros d Hd. apply in_app_or in Hd as [Hd|Hd]; [now apply V|].
      exfalso. unfold count_effects in E1.
      assert (Hin : In (Post "web_app_open_popup" d) (List.filter is_popup_post ext)).
      { apply filter_In. split; [exact Hd | reflexivity]. }
      destruct (List.filter is_popup_post ext); [contradiction | discriminate].
    + intros id Hid. apply in_or_app.
      destruct (Kc id Hid) as [H|H]; [left; now apply Hc | now right].
    + intros slug Hs. apply in_or_app.
      destruct (Ki slug Hs) as [H|H]; [left; now apply Hi | now right].
  - unfold popup_slack, open_popups.
    rewrite Hp, Ht, !count_effects_app, E1, E2. lia.
Qed.

Lemma showPopup_effect (rnd : nat -> ascii) (v : jsvalue PopupParams)
    (cb : option PopupCallback) (w w' : TelegramWebApp.t) (o : option error) :
  popup_inv (popup w) ->
  showPopup rnd v cb w = (w', o) ->
  popup_inv (popup w')
  /\ invoices w' = invoices w /\ clipboard w' = clipboard w
  /\ ((trace w' = trace w /\ isOpened (popup w') = isOpened (popup w))
      \/ (isOpened (popup w) = false /\ isOpened (popup w') = true
          /\ trace w' = (trace w ++ [Post "web_app_open_popup"
                                       (PopupData (data_params (popup w')))])%list)).
Proof.
  intros I. unfold showPopup, threw, done_.
  destruct (negb _);
    [intros [= <- <-]; split; [exact I | repeat split; now left]|].
  destruct (isOpened (popup w)) eqn:Eo;
    [intros [= <- <-]; split; [exact I | repeat split; now left]|].
  destruct (paramsGuard v);
    [intros [= <- <-]; split; [exact I | repeat split; now left]|].
  destruct (Popup.open rnd v cb (popup w)) as [p [e|]] eqn:Eopen.
  - intros [= <- <-]. cbn.
    pose proof (open_keeps_inv _ _ _ _ _ _ I Eopen) as I'.
    apply open_throw_isOpened in Eopen.
    split; [exact I'|]. repeat split. left. split; [reflexivity | congruence].
  - intros [= <- <-].
    pose proof (open_keeps_inv _ _ _ _ _ _ I Eopen) as I'.
    destruct (open_returns _ _ _ _ _ Eopen) as [[Ht _]|[_ Ho]]; [congruence|].
    pose proof I' as (V & Hopen & Hclosed). destruct (Hopen Ho) as [Hm Hb].
    rewrite (params_of_open p Hm). cbn.
    split; [exact I'|]. repeat split. right. repeat split. exact Ho.
Qed.

Lemma webapp_inv_showPopup (rnd : nat -> ascii) (v : jsvalue PopupParams)
    (cb : option PopupCallback) (w : TelegramWebApp.t) :
  webapp_inv w ->
  webapp_inv (fst (showPopup rnd v cb w))
  /\ popup_slack (fst (showPopup rnd v cb w)) = popup_slack w.
Proof.
  intros J. pose proof J as (I & V & Hc & Hi).
  destruct (showPopup rnd v cb w) as [w' o] eqn:E. cbn [fst].
  destruct (showPopup_effect rnd v cb w w' o I E)
    as (I' & Ei & Ec & [[Ht Ho]|(Ho & Ho' & Ht)]).
  - split.
    + unfold webapp_inv. rewrite Ht, Ei, Ec.
      split; [exact I'|]. split; [exact V|]. split; [exact Hc | exact Hi].
    + unfold popup_slack, open_popups. now rewrite Ht, Ho.
  - split.
    + unfold webapp_inv. rewrite Ht, Ei, Ec.
      split; [exact I'|]. split; [|split].
      * intros d Hd. apply in_app_or in Hd as [Hd|Hd]; [now apply V|].
        destruct Hd as [Hd|[]]. injection Hd as <-.
        destruct I' as (V' & Hopen & _). destruct (Hopen Ho') as [Hm Hb].
        eexists. split; [reflexivity|]. split; [exact V'|].
        split; [exact Hm | exact Hb].
      * intros id Hid. apply in_or_app. left. now apply Hc.
      * intros slug Hs. apply in_or_app. left. now apply Hi.
    + unfold popup_slack, open_popups.
      rewrite Ht, Ho, Ho', !count_effects_app. cbn. lia.
Qed.

Lemma lookup_delete_is_Some {V : Type} (m : gmap string V) (k i : string) :
  is_Some (delete k m !! i) -> is_Some (m !! i).
Proof.
  destruct (decide (k = i)) as [->|Hne].
  - rewrite lookup_delete_eq. intros [x Hx]. discriminate.
  - now rewrite lookup_delete_ne.
Qed.

Lemma lookup_insert_is_Some {V : Type} (m : gmap string V) (k i : string) (v : V) :
  is_Some (<[k := v]> m !! i) -> i = k \/ is_Some (m !! i).
Proof.
  destruct (decide (k = i)) as [->|Hne]; [now left|].
  rewrite lookup_insert_ne by exact Hne. now right.
Qed.

(** A call of a method keeps the invariant and the balance of the popups. *)
Lemma webapp_inv_method (op : webapp_op) (w : TelegramWebApp.t) :
  is_method op = true ->
  webapp_inv w ->
  webapp_inv (fst (webapp_step create consumer op w))
  /\ popup_slack (fst (webapp_step create consumer op w)) = popup_slack w.
Proof.
  intros Hop J. destruct op as [rnd v cb|rnd m cb|rnd m cb|bid|rnd cb|id data|url cb
                                |slug status|query ct];
    try discriminate Hop; cbn [webapp_step].
  - now apply webapp_inv_showPopup.
  - unfold showAlert. now apply webapp_inv_showPopup.
  - unfold showConfirm.
    change (PopupButton.WebAppPopupButton
              {| PopupButton.id := Some OK_BTN_ID;
                 PopupButton.type := Some PopupButton.TYPES.OK;
                 PopupButton.text := None |}) with (Ok okButton).
    change (PopupButton.WebAppPopupButton
              {| PopupButton.id := Some "";
                 PopupButton.type := Some PopupButton.TYPES.CANCEL;
                 PopupButton.text := None |}) with (Ok cancelButton).
    cbn [bind]. now apply webapp_inv_showPopup.
  - unfold readTextFromClipboard. destruct (negb _); [now split|]. cbn [fst done_].
    apply (webapp_inv_quiet w _
             [Post "web_app_read_text_from_clipboard" (ReqIdData (generateId 16 rnd))]);
      try reflexivity; try exact J.
    + cbn. unfold Clipboard.setRequest. intros i Hi.
      apply lookup_insert_is_Some in Hi as [->|Hi]; [right; now left | now left].
    + cbn. intros s Hs. now left.
  - unfold openInvoice. destruct (create (invoices w) url) as [slug|e]; [|now split].
    cbn [fst done_].
    apply (webapp_inv_quiet w _ [Post "web_app_open_invoice" (SlugData slug)]);
      try reflexivity; try exact J.
    + cbn. intros i Hi. now left.
    + cbn. unfold Invoices.save. intros s Hs.
      apply lookup_insert_is_Some in Hs as [->|Hs]; [right; now left | now left].
  - unfold switchInlineQuery, threw, done_.
    destruct (negb _); [now split|]. destruct (negb _); [now split|].
    destruct (_ <? _); [now split|].
    destruct ct as [| |l]; [now split | now split |].
    destruct (checkChats (uniq l)); [|now split]. cbn [fst].
    apply (webapp_inv_quiet w _
             [Post "web_app_switch_inline_query" (InlineQueryData (trim query) (uniq l))]);
      try reflexivity; try exact J.
    + cbn. intros i Hi. now left.
    + cbn. intros s Hs. now left.
Qed.

Lemma webapp_inv_methods (ops : list webapp_op) :
  forallb is_method ops = true ->
  forall w : TelegramWebApp.t,
    webapp_inv w ->
    webapp_inv (webapp_run create consumer ops w)
    /\ popup_slack (webapp_run create consumer ops w) = popup_slack w.
Proof.
  induction ops as [|op ops IH]; intros Hops w J; [now split|].
  cbn [forallb] in Hops. apply andb_true_iff in Hops as [Hop Hops].
  cbn [webapp_run].
  destruct (webapp_inv_method op w Hop J) as [J1 S1].
  destruct (IH Hops _ J1) as [J2 S2]. split; [exact J2 | congruence].
Qed.

(** The emission of an application event. *)
Lemma webapp_inv_emit (eventType : string) (params : event_params)
    (w : TelegramWebApp.t) :
  webapp_inv w ->
  webapp_inv (receiveWebViewEvent eventType params w)
  /\ popup_slack (receiveWebViewEvent eventType params w)
     = popup_slack w - (if String.eqb eventType "popupClosed" then 1 else 0).
Proof.
  intros (I & V & Hc & Hi). split.
  - unfold webapp_inv, receiveWebViewEvent, log. cbn [popup trace clipboard invoices].
    split; [exact I|]. split; [|split].
    + intros d Hd. apply in_app_or in Hd as [Hd|Hd]; [now apply V|].
      destruct Hd as [Hd|[]]. discriminate.
    + intros id Hid. apply in_or_app. left. now apply Hc.
    + intros slug Hs. apply in_or_app. left. now apply Hi.
  - unfold popup_slack, open_popups, receiveWebViewEvent, log.
    cbn [popup trace]. rewrite !count_effects_app.
    unfold count_effects at 2 4. cbn [List.filter is_popup_post is_popup_closed].
    destruct (String.eqb eventType "popupClosed"); cbn [length]; lia.
Qed.

(** The popup of an open orchestrator is reset. *)
Lemma webapp_inv_close (w : TelegramWebApp.t) :
  webapp_inv w ->
  isOpened (popup w) = true ->
  webapp_inv (with_popup Popup.initial w)
  /\ popup_slack (with_popup Popup.initial w) = popup_slack w + 1.
Proof.
  intros (I & V & Hc & Hi) Ho. split.
  - split; [apply any_run_inv, any_initial|]. split; [exact V|].
    split; [exact Hc | exact Hi].
  - unfold popup_slack, open_popups, with_popup. cbn [popup trace Popup.initial
      Popup.isOpened]. rewrite Ho. lia.
Qed.

Hypothesis consumer_methods : acts_through_methods create consumer.

Lemma webapp_inv_callConsumer (f : handle) (args : list jsarg) (w : TelegramWebApp.t) :
  webapp_inv w ->
  webapp_inv (fst (callConsumer consumer f args w))
  /\ popup_slack (fst (callConsumer consumer f args w)) = popup_slack w
  /\ (never_throws consumer -> snd (callConsumer consumer f args w) = None).
Proof.
  intros J. unfold callConsumer.
  destruct (webapp_inv_quiet w (log (Call f args) w) [Call f args] J) as [J1 S1];
    try reflexivity; try (intros; now left).
  destruct (consumer_methods f args (log (Call f args) w)) as (ops & Hops & E).
  rewrite E. destruct (webapp_inv_methods ops Hops _ J1) as [J2 S2].
  split; [exact J2|]. split; [congruence|]. intros Hn. apply Hn.
Qed.

Lemma webapp_inv_callOptional (cb : option handle) (args : list jsarg)
    (w : TelegramWebApp.t) :
  webapp_inv w ->
  webapp_inv (fst (callOptional consumer cb args w))
  /\ popup_slack (fst (callOptional consumer cb args w)) = popup_slack w
  /\ (never_throws consumer -> snd (callOptional consumer cb args w) = None).
Proof.
  intros J. destruct cb as [f|]; [now apply webapp_inv_callConsumer|].
  split; [exact J|]. split; [reflexivity | intros _; reflexivity].
Qed.

Lemma webapp_inv_callPopupCallback (cb : option PopupCallback) (id : string)
    (w : TelegramWebApp.t) :
  webapp_inv w ->
  webapp_inv (fst (callPopupCallback consumer cb id w))
  /\ popup_slack (fst (callPopupCallback consumer cb id w)) = popup_slack w
  /\ (never_throws consumer -> snd (callPopupCallback consumer cb id w) = None).
Proof.
  intros J. destruct cb as [[f|cb|cb]|]; cbn [callPopupCallback].
  - now apply webapp_inv_callConsumer.
  - now apply webapp_inv_callOptional.
  - now apply webapp_inv_callOptional.
  - split; [exact J|]. split; [reflexivity | intros _; reflexivity].
Qed.

(** A call followed by the emission of an event: the event is emitted
    exactly when the call returned. *)
Lemma webapp_inv_afterCall (r : ran TelegramWebApp.t) (eventType : string)
    (params : event_params) :
  webapp_inv (fst r) ->
  webapp_inv (fst (afterCall r
                     (fun w2 => done_ (receiveWebViewEvent eventType params w2))))
  /\ popup_slack (fst (afterCall r
                         (fun w2 => done_ (receiveWebViewEvent eventType params w2))))
     = popup_slack (fst r)
       - match snd r with
         | None => if String.eqb eventType "popupClosed" then 1 else 0
         | Some _ => 0
         end.
Proof.
  destruct r as [w' [e|]]; cbn [fst snd afterCall threw done_]; intros J.
  - split; [exact J | lia].
  - now apply webapp_inv_emit.
Qed.

Lemma webapp_inv_onPopupClosed (button_id : option string) (w : TelegramWebApp.t) :
  webapp_inv w ->
  webapp_inv (fst (onPopupClosed consumer button_id w))
  /\ popup_slack w <= popup_slack (fst (onPopupClosed consumer button_id w))
  /\ (never_throws consumer ->
      popup_slack (fst (onPopupClosed consumer button_id w)) = popup_slack w).
Proof.
  intros J. destruct (isOpened (popup w)) eqn:Eo.
  - rewrite onPopupClosed_open by exact Eo.
    destruct (webapp_inv_close w J Eo) as [J1 S1].
    set (r := if truthy_opt button_id
              then callPopupCallback consumer (Popup.callback (popup w))
                     (default "" button_id) (with_popup Popup.initial w)
              else done_ (with_popup Popup.initial w)).
    assert (K : webapp_inv (fst r)
                /\ popup_slack (fst r) = popup_slack (with_popup Popup.initial w)
                /\ (never_throws consumer -> snd r = None)).
    { subst r. destruct (truthy_opt button_id);
        [now apply webapp_inv_callPopupCallback|].
      split; [exact J1|]. split; [reflexivity | intros _; reflexivity]. }
    destruct K as (Jr & Sr & Nr).
    destruct (webapp_inv_afterCall r "popupClosed" (PopupClosedData button_id) Jr)
      as [J2 S2].
    split; [exact J2|]. rewrite S2, Sr, S1.
    change (String.eqb "popupClosed" "popupClosed") with true. cbv iota.
    split.
    + destruct (snd r); lia.
    + intros Hn. rewrite (Nr Hn). lia.
  - unfold onPopupClosed. rewrite Eo. cbn [negb fst done_].
    split; [exact J|]. split; [lia | reflexivity].
Qed.

Lemma webapp_inv_onClipboardTextReceived (id data : option string)
    (w : TelegramWebApp.t) :
  webapp_inv w ->
  webapp_inv (fst (onClipboardTextReceived consumer id data w))
  /\ popup_slack (fst (onClipboardTextReceived consumer id data w)) = popup_slack w.
Proof.
  intros J. unfold onClipboardTextReceived.
  destruct (_ || _); [now split|].
  set (w1 := with_clipboard _ w).
  destruct (webapp_inv_quiet w w1 [] J) as [J1 S1]; try reflexivity.
  { cbn. now rewrite app_nil_r. }
  { cbn. unfold Clipboard.removeRequest. intros i Hi. left.
    now apply lookup_delete_is_Some in Hi. }
  { cbn. intros s Hs. now left. }
  destruct (webapp_inv_callOptional
              (Clipboard.getRequest (default "" id) (clipboard w))
              [arg_of_data data] w1 J1) as (Jr & Sr & _).
  destruct (webapp_inv_afterCall _ "clipboardTextReceived" (ClipboardData data) Jr)
    as [J2 S2].
  split; [exact J2|]. rewrite S2, Sr, S1.
  change (String.eqb "clipboardTextReceived" "popupClosed") with false.
  destruct (snd _); lia.
Qed.

Lemma webapp_inv_onInvoiceClosed (slug : option string) (status : string)
    (w : TelegramWebApp.t) :
  webapp_inv w ->
  webapp_inv (fst (onInvoiceClosed consumer slug status w))
  /\ popup_slack (fst (onInvoiceClosed consumer slug status w)) = popup_slack w.
Proof.
  intros J. unfold onInvoiceClosed.
  destruct (negb (truthy_opt slug)); [now split|].
  unfold Invoices.has, Invoices.remove.
  destruct (invoices w !! default "" slug) as [e|] eqn:El; [|now split].
  cbn [has_key negb].
  set (w1 := with_invoices _ w).
  destruct (webapp_inv_quiet w w1 [] J) as [J1 S1]; try reflexivity.
  { cbn. now rewrite app_nil_r. }
  { cbn. intros i Hi. now left. }
  { cbn. intros s Hs. left. now apply lookup_delete_is_Some in Hs. }
  destruct (webapp_inv_callOptional (inv_callback e) [AString status] w1 J1)
    as (Jr & Sr & _).
  destruct (webapp_inv_afterCall _ "invoiceClosed"
              (InvoiceClosedData (inv_url e) status) Jr) as [J2 S2].
  split; [exact J2|]. rewrite S2, Sr, S1.
  change (String.eqb "invoiceClosed" "popupClosed") with false.
  destruct (snd _); lia.
Qed.

Lemma webapp_inv_step (op : webapp_op) (w : TelegramWebApp.t) :
  webapp_inv w ->
  webapp_inv (fst (webapp_step create consumer op w))
  /\ popup_slack w <= popup_slack (fst (webapp_step create consumer op w))
  /\ (never_throws consumer ->
      popup_slack (fst (webapp_step create consumer op w)) = popup_slack w).
Proof.
  intros J. destruct (is_method op) eqn:Em.
  - destruct (webapp_inv_method op w Em J) as [J1 S1].
    split; [exact J1|]. split; [lia | intros _; exact S1].
  - destruct op; try discriminate Em; cbn [webapp_step].
    + now apply webapp_inv_onPopupClosed.
    + destruct (webapp_inv_onClipboardTextReceived req_id data w J) as [J1 S1].
      split; [exact J1|]. split; [lia | intros _; exact S1].
    + destruct (webapp_inv_onInvoiceClosed slug status w J) as [J1 S1].
      split; [exact J1|]. split; [lia | intros _; exact S1].
Qed.

Lemma webapp_inv_run (ops : list webapp_op) :
  forall w : TelegramWebApp.t,
    webapp_inv w ->
    webapp_inv (webapp_run create consumer ops w)
    /\ popup_slack w <= popup_slack (webapp_run create consumer ops w)
    /\ (never_throws consumer ->
        popup_slack (webapp_run create consumer ops w) = popup_slack w).
Proof.
  induction ops as [|op ops IH]; intros w J.
  - split; [exact J|]. split; [cbn; lia | reflexivity].
  - cbn [webapp_run]. destruct (webapp_inv_step op w J) as (J1 & L1 & N1).
    destruct (IH _ J1) as (J2 & L2 & N2).
    split; [exact J2|]. split; [lia|].
    intros Hn. rewrite (N2 Hn), (N1 Hn). reflexivity.
Qed.

End RunFacts.

Section Consumers.
Import JS Popup TelegramWebApp.

Lemma webapp_inv_start (version : string) (botInline : bool) :
  webapp_inv (webapp_start version botInline)
  /\ popup_slack (webapp_start version botInline) = 0.
Proof.
  split; [|reflexivity].
  split; [apply any_run_inv, any_initial|].
  split; [intros d []|]. split; intros k [x Hx]; cbn in Hx;
    rewrite lookup_empty in Hx; discriminate.
Qed.

(** The consumer functions of the examples reach the orchestrator through
    its methods only. *)
Lemma sample_consumer_methods
    (create : gmap string InvoiceEntry -> string -> result string) :
  acts_through_methods create sample_consumer.
Proof.
  intros f args w. unfold sample_consumer.
  destruct (String.eqb f "boom"); [now exists []|].
  destruct (String.eqb f "again"); [|now exists []].
  now exists [OpShowAlert (fun _ => "z"%char) "Again" None].
Qed.

Lemma quiet_consumer_methods
    (create : gmap string InvoiceEntry -> string -> result string) :
  acts_through_methods create quiet_consumer.
Proof. intros f args w. now exists []. Qed.

Lemma quiet_consumer_returns : never_throws quiet_consumer.
Proof. intros f args w. reflexivity. Qed.

End Consumers.

(** X18.  Popups and their answers.  Take any sequence of calls
    ([showPopup], [showAlert], [showConfirm], [readTextFromClipboard],
    [openInvoice], [switchInlineQuery]) and host events ([popup_closed],
    [clipboard_text_received], [invoice_closed]), thrown errors included,
    with consumer functions that reach the orchestrator through these
    methods only.  Then the [popupClosed] events emitted, plus one if a
    popup is open, are at most the [web_app_open_popup] events posted; they
    are as many if no consumer function ever throws (a callback that throws
    leaves its popup without a [popupClosed]); and every popup posted carried
    a message and 1 to 3 valid buttons, every text within its bound. *)
Theorem popups_answered_one_for_one :
  forall (create : gmap string TelegramWebApp.InvoiceEntry -> string -> result string)
         (consumer : handle -> list jsarg -> TelegramWebApp.t -> ran TelegramWebApp.t)
         (version : string) (botInline : bool) (ops : list webapp_op),
    acts_through_methods create consumer ->
    let w := webapp_run create consumer ops (webapp_start version botInline) in
    (count_effects is_popup_closed (TelegramWebApp.trace w) + open_popups w
     <= count_effects is_popup_post (TelegramWebApp.trace w))%nat
    /\ (never_throws consumer ->
        count_effects is_popup_post (TelegramWebApp.trace w)
        = (count_effects is_popup_closed (TelegramWebApp.trace w) + open_popups w)%nat)
    /\ (forall d,
          In (TelegramWebApp.Post "web_app_open_popup" d) (TelegramWebApp.trace w) ->
          exists data, d = TelegramWebApp.PopupData data /\ validated data
                       /\ is_Some (Popup.ev_message data)
                       /\ is_Some (Popup.ev_buttons data)).
Proof.
  intros create consumer version botInline ops Hm w.
  destruct (webapp_inv_start version botInline) as [J0 S0].
  destruct (webapp_inv_run create consumer Hm ops _ J0) as ((_ & V & _) & L & N).
  fold w in L, N, V. rewrite S0 in L, N. unfold popup_slack in L, N.
  split; [lia|]. split; [|exact V].
  intros Hn. specialize (N Hn). lia.
Qed.

(** X19.  No pending request without its post.  After any such sequence,
    with consumer functions that reach the orchestrator through these
    methods only, every id in the clipboard registry was posted with
    [web_app_read_text_from_clipboard] and every slug in the invoice
    registry was posted with [web_app_open_invoice]. *)
Theorem pending_requests_were_posted :
  forall (create : gmap string TelegramWebApp.InvoiceEntry -> string -> result string)
         (consumer : handle -> list jsarg -> TelegramWebApp.t -> ran TelegramWebApp.t)
         (version : string) (botInline : bool) (ops : list webapp_op),
    acts_through_methods create consumer ->
    let w := webapp_run create consumer ops (webapp_start version botInline) in
    (forall id, is_Some (TelegramWebApp.clipboard w !! id) ->
       In (TelegramWebApp.Post "web_app_read_text_from_clipboard"
             (TelegramWebApp.ReqIdData id)) (TelegramWebApp.trace w))
    /\ (forall slug, is_Some (TelegramWebApp.invoices w !! slug) ->
          In (TelegramWebApp.Post "web_app_open_invoice"
                (TelegramWebApp.SlugData slug)) (TelegramWebApp.trace w)).
Proof.
  intros create consumer version botInline ops Hm w.
  destruct (webapp_inv_start version botInline) as [J0 _].
  destruct (webapp_inv_run create consumer Hm ops _ J0) as ((_ & _ & Hc & Hi) & _).
  split; [exact Hc | exact Hi].
Qed.

(** A clipboard read that is still waiting, after another one was answered
    and its function threw. *)
Lemma pending_requests_were_posted_witness :
  let w := webapp_run (fun _ _ => Ok "abc") sample_consumer
             [OpReadTextFromClipboard (fun _ => "q"%char) (Some "boom");
              OpClipboardTextReceived (Some "qqqqqqqqqqqqqqqq") (Some "text");
              OpReadTextFromClipboard (fun _ => "r"%char) (Some "cb")]
             (webapp_start "6.4" false) in
  is_Some (TelegramWebApp.clipboard w !! "rrrrrrrrrrrrrrrr")
  /\ In (TelegramWebApp.Post "web_app_read_text_from_clipboard"
           (TelegramWebApp.ReqIdData "rrrrrrrrrrrrrrrr")) (TelegramWebApp.trace w).
Proof.
  intros w.
  assert (H : is_Some (TelegramWebApp.clipboard w !! "rrrrrrrrrrrrrrrr")).
  { exists (Some "cb"). vm_compute. reflexivity. }
  split; [exact H|].
  apply (proj1 (pending_requests_were_posted (fun _ _ => Ok "abc") sample_consumer
                  "6.4" false
                  [OpReadTextFromClipboard (fun _ => "q"%char) (Some "boom");
                   OpClipboardTextReceived (Some "qqqqqqqqqqqqqqqq") (Some "text");
                   OpReadTextFromClipboard (fun _ => "r"%char) (Some "cb")]
                  (sample_consumer_methods _))).
  exact H.
Defined.

(** A popup whose callback throws when it is closed: it was posted, it is
    closed, and no [popupClosed] answered it.  And a popup whose callback
    shows another one from inside: two posted, one answered, one open. *)
Lemma popups_answered_one_for_one_witness :
  let boom := webapp_run (fun _ _ => Ok "abc") sample_consumer
                [OpShowAlert (fun _ => "a"%char) "one" (Some "boom");
                 OpPopupClosed (Some "aaaaa")]
                (webapp_start "6.4" false) in
  let again := webapp_run (fun _ _ => Ok "abc") sample_consumer
                 [OpShowAlert (fun _ => "a"%char) "one" (Some "again");
                  OpPopupClosed (Some "aaaaa")]
                 (webapp_start "6.4" false) in
  (count_effects is_popup_post (TelegramWebApp.trace boom) = 1%nat
   /\ count_effects is_popup_closed (TelegramWebApp.trace boom) = 0%nat
   /\ open_popups boom = 0%nat
   /\ (count_effects is_popup_closed (TelegramWebApp.trace boom) + open_popups boom
       <= count_effects is_popup_post (TelegramWebApp.trace boom))%nat)
  /\ (count_effects is_popup_post (TelegramWebApp.trace again) = 2%nat
      /\ count_effects is_popup_closed (TelegramWebApp.trace again) = 1%nat
      /\ open_popups again = 1%nat
      /\ (count_effects is_popup_closed (TelegramWebApp.trace again) + open_popups again
          <= count_effects is_popup_post (TelegramWebApp.trace again))%nat).
Proof.
  intros boom again. split.
  - split; [vm_compute; reflexivity|]. split; [vm_compute; reflexivity|].
    split; [vm_compute; reflexivity|].
    apply (proj1 (popups_answered_one_for_one (fun _ _ => Ok "abc") sample_consumer
                    "6.4" false
                    [OpShowAlert (fun _ => "a"%char) "one" (Some "boom");
                     OpPopupClosed (Some "aaaaa")]
                    (sample_consumer_methods _))).
  - split; [vm_compute; reflexivity|]. split; [vm_compute; reflexivity|].
    split; [vm_compute; reflexivity|].
    apply (proj1 (popups_answered_one_for_one (fun _ _ => Ok "abc") sample_consumer
                    "6.4" false
                    [OpShowAlert (fun _ => "a"%char) "one" (Some "again");
                     OpPopupClosed (Some "aaaaa")]
                    (sample_consumer_methods _))).
Defined.

(** ** What a successful open stores *)

(** X20.  What [open] stores when it succeeds on a closed popup that was
    reached by calls of [open] and [close]: the callback is the one passed
    with the call (none if none was passed, never one of an earlier call),
    the message is the trimmed message, the buttons are the validated
    buttons in the order given, or the one generated close button, and the
    title is the trimmed title, or, when the call has no title or a blank
    one, whatever title the popup held before. *)
Theorem Popup_open_stores :
  forall (rnd : nat -> ascii) (ps : Popup.PopupParams) (cb : option PopupCallback)
         (p p' : Popup.t),
    any_run p ->
    Popup.isOpened p = false ->
    Popup.open rnd (JS.VObject ps) cb p = (p', None) ->
    Popup.callback p' = cb
    /\ Popup.ev_message (Popup.data_params p')
       = Some (JS.trim (default "" (Popup.message ps)))
    /\ Popup.ev_title (Popup.data_params p')
       = (if truthy (JS.trim (default "" (Popup.title ps)))
          then Some (JS.trim (default "" (Popup.title ps)))
          else Popup.ev_title (Popup.data_params p))
    /\ match Popup.buttons ps with
       | Popup.NoButtons =>
           Popup.ev_buttons (Popup.data_params p') = Some [synthesized rnd]
       | Popup.NotAnArray => False
       | Popup.ButtonArray l =>
           exists bs, Popup.ev_buttons (Popup.data_params p') = Some bs
                      /\ Forall2 (fun b d => PopupButton.WebAppPopupButton b = Ok d) l bs
       end.
Proof.
  intros rnd ps cb p p' Hrun Hc. rewrite open_closed by exact Hc.
  destruct (any_run_inv p Hrun) as (_ & _ & Hclosed).
  destruct (Hclosed Hc) as [_ Hcb].
  destruct (Popup.setTitle (Popup.title ps) p) as [p1|e] eqn:E1; [|discriminate].
  assert (T1 : Popup.ev_title (Popup.data_params p1)
               = (if truthy (JS.trim (default "" (Popup.title ps)))
                  then Some (JS.trim (default "" (Popup.title ps)))
                  else Popup.ev_title (Popup.data_params p))
               /\ Popup.data_callback p1 = Popup.data_callback p).
  { destruct (Popup.title ps) as [t|].
    - rewrite setTitle_cases in E1. change (default "" (Some t)) with t.
      destruct (truthy (JS.trim t)); cbn [negb] in E1.
      + destruct (_ <? _); [discriminate|]. injection E1 as <-. now split.
      + injection E1 as <-. now split.
    - injection E1 as <-. now split. }
  destruct T1 as [T1 C1].
  rewrite setMessage_cases. cbv zeta.
  destruct (negb (truthy _)); [discriminate|].
  destruct (_ <? _); [discriminate|].
  destruct (Popup.setButtons rnd (Popup.buttons ps) _) as [p3|e] eqn:E3;
    [|discriminate].
  intros [= <-]. cbn [Popup.callback Popup.data_callback Popup.data_params].
  rewrite setCallback_params.
  assert (B3 : Popup.data_callback p3 = None
               /\ Popup.ev_message (Popup.data_params p3)
                  = Some (JS.trim (default "" (Popup.message ps)))
               /\ Popup.ev_title (Popup.data_params p3)
                  = Popup.ev_title (Popup.data_params p1)
               /\ match Popup.buttons ps with
                  | Popup.NoButtons =>
                      Popup.ev_buttons (Popup.data_params p3) = Some [synthesized rnd]
                  | Popup.NotAnArray => False
                  | Popup.ButtonArray l =>
                      exists bs, Popup.ev_buttons (Popup.data_params p3) = Some bs
                                 /\ Forall2 (fun b d =>
                                      PopupButton.WebAppPopupButton b = Ok d) l bs
                  end).
  { destruct (Popup.buttons ps) as [| |l].
    - rewrite setButtons_NoButtons in E3. injection E3 as <-. cbn.
      repeat split. congruence.
    - discriminate.
    - unfold Popup.setButtons in E3.
      destruct (_ <? _); [discriminate|]. destruct (_ <? _); [discriminate|].
      destruct (Popup.mapButtons l) as [ds|e] eqn:Em; [|discriminate].
      cbn [bind] in E3. injection E3 as <-. cbn.
      split; [congruence|]. split; [reflexivity|]. split; [reflexivity|].
      exists ds. split; [reflexivity|]. now apply mapButtons_valid. }
  destruct B3 as (Cb & M & T & B).
  split; [destruct cb; [reflexivity | exact Cb]|].
  split; [exact M|]. split; [now rewrite T | exact B].
Qed.

(** A confirm-like popup opened after a refused one. *)
Lemma Popup_open_stores_witness :
  let p := fst (Popup.open (fun _ => "a"%char)
                  (JS.VObject {| Popup.title := Some "Old"; Popup.message := None;
                                 Popup.buttons := Popup.NoButtons |})
                  (Some (UserCallback "old")) Popup.initial) in
  let p' := fst (Popup.open (fun _ => "b"%char)
                   (JS.VObject {| Popup.title := None; Popup.message := Some " Go? ";
                                  Popup.buttons := Popup.NoButtons |}) None p) in
  Popup.callback p' = None
  /\ Popup.ev_message (Popup.data_params p') = Some "Go?"
  /\ Popup.ev_title (Popup.data_params p') = Some "Old".
Proof.
  intros p p'.
  destruct (Popup_open_stores (fun _ => "b"%char)
              {| Popup.title := None; Popup.message := Some " Go? ";
                 Popup.buttons := Popup.NoButtons |} None p p')
    as (H1 & H2 & H3 & _).
  - eapply any_open; [apply any_initial | apply surjective_pairing].
  - reflexivity.
  - vm_compute. reflexivity.
  - split; [exact H1|]. split; [exact H2 | exact H3].
Defined.

(** ** The order of the chat types *)

Section UniqOrder.
Import TelegramWebApp.

Lemma uniq_from_NoDup (l : list string) :
  forall seen : list string,
    NoDup l -> (forall x, x ∈ l -> x ∉ seen) -> uniq_from seen l = l.
Proof.
  induction l as [|a l IH]; intros seen Hn Hd; [reflexivity|].
  apply NoDup_cons in Hn as [Ha Hn]. cbn [uniq_from].
  destruct (existsb (String.eqb a) seen) eqn:E.
  - apply existsb_eqb_elem_of in E. exfalso. apply (Hd a); [left | exact E].
  - f_equal. apply IH; [exact Hn|].
    intros x Hx Hin. apply elem_of_cons in Hin as [->|Hin]; [contradiction|].
    apply (Hd x); [now right | exact Hin].
Qed.

End UniqOrder.

(** X21.  Chat types that are valid and not repeated are posted by
    [switchInlineQuery] exactly as given, in the given order (version at
    least 6.7, inline mode on, query of at most 256 characters after
    trimming). *)
Theorem switchInlineQuery_keeps_order :
  forall (query : string) (l : list string) (w : TelegramWebApp.t),
    TelegramWebApp.isSuitableTo (TelegramWebApp.version w) "6.7" = true ->
    TelegramWebApp.tgWebAppBotInline w = true ->
    JS.len (JS.trim query) <= 256 ->
    NoDup l ->
    Forall (fun chat => chat ∈ TelegramWebApp.VALID_CHAT_TYPES) l ->
    TelegramWebApp.switchInlineQuery query (TelegramWebApp.ChatTypesArray l) w
    = (TelegramWebApp.log
         (TelegramWebApp.Post "web_app_switch_inline_query"
            (TelegramWebApp.InlineQueryData (JS.trim query) l)) w, None).
Proof.
  intros query l w Hv Hi Hl Hn Hvalid.
  unfold TelegramWebApp.switchInlineQuery. rewrite Hv, Hi. cbn [negb].
  unfold TelegramWebApp.MAX_INLINE_QUERY_LENGTH.
  destruct (Z.ltb_spec 256 (JS.len (JS.trim query))); [lia|].
  unfold TelegramWebApp.uniq.
  rewrite (uniq_from_NoDup l [] Hn) by (intros x _ Hx; now apply elem_of_nil in Hx).
  now rewrite (checkChats_valid l Hvalid).
Qed.

(** Channels before users. *)
Lemma switchInlineQuery_keeps_order_witness :
  let w := webapp_start "6.7" true in
  TelegramWebApp.switchInlineQuery "cats"
    (TelegramWebApp.ChatTypesArray ["channels"; "users"]) w
  = (TelegramWebApp.log
       (TelegramWebApp.Post "web_app_switch_inline_query"
          (TelegramWebApp.InlineQueryData "cats" ["channels"; "users"])) w, None).
Proof.
  intros w.
  apply (switchInlineQuery_keeps_order "cats" ["channels"; "users"] w).
  - vm_compute. reflexivity.
  - reflexivity.
  - vm_compute. discriminate.
  - apply NoDup_cons. split; [|apply NoDup_singleton].
    intros H. apply list_elem_of_In in H. destruct H as [H|[]]. discriminate.
  - repeat constructor.
Defined.
